(** * SLIM BPR (Code/SLIM_BPR_Python.py): top-K selection, BPR sampling,
      the batch SGD update, the epoch loop and the recommender.

    Conventions of the embedding.
    - Matrix entries are rationals ([Q]): float32 rounding, overflow and NaN
      are outside the model.  [np.exp] and [np.argsort] are library calls
      and are taken as parameters ([np_exp], [np_argsort]); all that is
      assumed of [np.argsort] is that it returns a permutation of the
      positions, ordered by value ([argsort_spec]), so no statement depends
      on how ties are broken.
    - A dense [np.ndarray] is a row-major [list (list Q)].  A scipy
      compressed matrix is the record of its three arrays; [self.S] is the
      dense array that the constructor builds by default.
    - Exceptions are values of [result]; the random source is a finite tape
      of raw draws, [np.random.randint(0, n)] maps a draw into [0, n), and
      a loop that has not returned when the tape ends yields
      [Raise Exhausted].
    - [fit] is modelled without a test set, so the evaluation collaborator
      is never called. *)

From Stdlib Require Import QArith ZArith Lia List Permutation Sorted.
From stdpp Require Import base list gmap.
Import ListNotations.

(** ** Exceptions *)

Inductive exn : Set :=
| ValueError | IndexError | KeyError | AssertionError | ZeroDivisionError
| AttributeError | Exhausted.

Inductive result (A : Type) : Type :=
| Ok (a : A)
| Raise (e : exn).
Arguments Ok {A} a.
Arguments Raise {A} e.

#[global] Instance result_ret : MRet result := @Ok.
#[global] Instance result_bind : MBind result :=
  fun A B f m => match m with Ok a => f a | Raise e => Raise e end.

(** ** Python values that [topK] ranges over: [False]/[True] and integers.
    Comparison of a bool with an int is numeric ([False == 0], [True == 1]). *)

Inductive pyval : Set :=
| PyBool (b : bool)
| PyInt (z : Z).

Definition as_int (v : pyval) : Z :=
  match v with
  | PyBool true => 1
  | PyBool false => 0
  | PyInt z => z
  end.

(** [v != False] *)
Definition py_ne_False (v : pyval) : bool := negb (as_int v =? 0)%Z.

(** [v < 1] *)
Definition py_lt_1 (v : pyval) : bool := (as_int v <? 1)%Z.

(** ** Python slices *)

(** Position that a slice bound [s] denotes in a sequence of length [len]:
    a negative bound counts from the end, and both ends are clamped. *)
Definition slice_bound (len : nat) (s : Z) : nat :=
  if (s <? 0)%Z then Z.to_nat (Z.max 0 (Z.of_nat len + s))
  else Nat.min (Z.to_nat s) len.

(** [l[:stop]] *)
Definition slice_to {A} (l : list A) (stop : Z) : list A :=
  take (slice_bound (length l) stop) l.

(** [l[start:]] *)
Definition slice_from {A} (l : list A) (start : Z) : list A :=
  drop (slice_bound (length l) start) l.

(** [l[a:b]] for non-negative bounds *)
Definition slice {A} (l : list A) (a b : nat) : list A := drop a (take b l).

(** [l[mask]] for a boolean mask *)
Definition mask_select {A} (mask : list bool) (l : list A) : list A :=
  map snd (List.filter fst (combine mask l)).

(** [l[idx]] for an array of positions *)
Definition take_idx {A} (d : A) (l : list A) (idx : list nat) : list A :=
  map (fun i => nth i l d) idx.

(** ** np.argsort *)

(** What is assumed of [np.argsort xs]: a permutation of [0 .. len(xs)-1]
    along which the values do not decrease. *)
Definition argsort_spec
    (argsort : forall A : Type, (A -> A -> bool) -> list A -> list nat) : Prop :=
  forall (A : Type) (leb : A -> A -> bool) (d : A) (l : list A),
    (forall x y, leb x y = true \/ leb y x = true) ->
    (forall x y z, leb x y = true -> leb y z = true -> leb x z = true) ->
    Permutation (argsort A leb l) (seq 0 (length l)) /\
    StronglySorted (fun a b => leb (nth a l d) (nth b l d) = true)
                   (argsort A leb l).

(** A stable insertion sort on (position, value) pairs: one function that
    meets [argsort_spec], used to run the model on concrete inputs. *)
Fixpoint insert_by {A} (leb : A -> A -> bool) (x : nat * A)
    (l : list (nat * A)) : list (nat * A) :=
  match l with
  | [] => [x]
  | y :: t => if leb (snd x) (snd y) then x :: y :: t
              else y :: insert_by leb x t
  end.

Definition stable_argsort (A : Type) (leb : A -> A -> bool) (l : list A)
    : list nat :=
  map fst (fold_right (insert_by leb) [] (combine (seq 0 (length l)) l)).

(** A rational stand-in for [np.exp] (second-order Taylor polynomial), used
    only to run the model on concrete inputs. *)
Definition exp_taylor2 (x : Q) : Q := (1 + x + x * x / 2)%Q.

(** ** Dense matrices *)

Abbreviation dense := (list (list Q)).

Definition entry (M : dense) (r c : nat) : Q := nth c (nth r M []) 0%Q.

Definition shape (M : dense) : nat * nat := (length M, length (nth 0 M [])).

(** [M] is an [nr] x [nc] array. *)
Definition has_shape (nr nc : nat) (M : dense) : Prop :=
  length M = nr /\ Forall (fun row => length row = nc) M.

Definition column (M : dense) (c : nat) : list Q :=
  map (fun row => nth c row 0%Q) M.

(** [M.T] *)
Definition transpose (M : dense) : dense :=
  map (column M) (seq 0 (snd (shape M))).

(** [M[r, c] = v].  The positions written by the code are in range: they
    come from [np.argsort], or follow a read of the same position, which
    raises first when the position is out of range. *)
Definition set_entry (M : dense) (r c : nat) (v : Q) : dense :=
  alter (fun row => <[c := v]> row) r M.

(** [M[rows, cols] = 0.0] for index-aligned positions *)
Definition zero_out (M : dense) (cells : list (nat * nat)) : dense :=
  fold_left (fun W rc => set_entry W (fst rc) (snd rc) 0%Q) cells M.

Definition nonzero (x : Q) : bool := negb (Qeq_bool x 0).


(** ** Compressed sparse matrices (CSR: one slice per row; CSC: one slice
    per column) *)

Record compressed : Type := {
  indptr : list nat;
  indices : list nat;
  data : list Q
}.

(** The (minor index, value) pairs stored for major index [m]. *)
Definition major_slice (A : compressed) (m : nat) : list (nat * Q) :=
  let start_pos := nth m (indptr A) 0 in
  let end_pos := nth (m + 1) (indptr A) 0 in
  combine (slice (indices A) start_pos end_pos) (slice (data A) start_pos end_pos).

(** Value read at minor index [i] in a slice (0 when nothing is stored). *)
Definition slice_get (sl : list (nat * Q)) (i : nat) : Q :=
  match find (fun p => fst p =? i) sl with
  | Some p => snd p
  | None => 0%Q
  end.

(** [indptr] of the matrix whose major slices are [sls]. *)
Fixpoint offsets {A} (from : nat) (sls : list (list A)) : list nat :=
  match sls with
  | [] => [from]
  | sl :: rest => from :: offsets (from + length sl) rest
  end.

Definition compress (sls : list (list (nat * Q))) : compressed :=
  {| indptr := offsets 0 sls;
     indices := concat (map (map fst) sls);
     data := concat (map (map snd) sls) |}.

(** Canonical compressed layout with [n] major and [n_minor] minor
    indices: monotone [indptr], no duplicate and no out-of-range minor
    index inside a slice. *)
Definition canonical (n n_minor : nat) (A : compressed) : Prop :=
  length (indptr A) = S n /\
  length (indices A) = length (data A) /\
  (forall m, m < n -> nth m (indptr A) 0 <= nth (m + 1) (indptr A) 0) /\
  nth n (indptr A) 0 <= length (data A) /\
  (forall m, m < n ->
     List.NoDup (map fst (major_slice A m)) /\
     Forall (fun p => fst p < n_minor) (major_slice A m)).

(** No minor index is stored twice in any of the first [n] major slices
    (scipy allows duplicate entries, which it adds up when it puts the
    matrix in canonical format). *)
Definition no_duplicates (n : nat) (A : compressed) : Prop :=
  forall m, m < n -> List.NoDup (map fst (major_slice A m)).

(** scipy's canonical format, on the first [n] major slices: the minor
    indices of a slice are strictly increasing (sorted, none twice). *)
Definition has_canonical_format (n : nat) (A : compressed) : Prop :=
  forall m, m < n -> StronglySorted lt (map fst (major_slice A m)).

(** An item-weight matrix is an [np.ndarray] or a scipy sparse matrix.  A
    sparse matrix is kept in compressed-column layout with its shape: the
    layout conversions of scipy ([tocsc], [tocsr], [csr_matrix(W)]) keep the
    entries and are not modelled as separate layouts. *)
Inductive matrix : Type :=
| Dense (W : dense)
| Sparse (shp : nat * nat) (A : compressed).

Definition mshape (M : matrix) : nat * nat :=
  match M with
  | Dense W => shape W
  | Sparse shp _ => shp
  end.

Definition mentry (M : matrix) (r c : nat) : Q :=
  match M with
  | Dense W => entry W r c
  | Sparse _ A => slice_get (major_slice A c) r
  end.


(** [M] is an [n] x [n] matrix (in canonical layout when sparse). *)
Definition square (n : nat) (M : matrix) : Prop :=
  match M with
  | Dense W => has_shape n n W
  | Sparse shp A => shp = (n, n) /\ canonical n n A
  end.



(** [sps.csr_matrix(W)]: the non-zero entries of [W]. *)
Definition sparse_of_dense (n : nat) (W : dense) : compressed :=
  compress (map (fun c => List.filter (fun p => nonzero (snd p))
                                 (combine (seq 0 (length W)) (column W c)))
                (seq 0 n)).

(** [check_matrix(X, format='csc', dtype=np.float32)]: a layout and dtype
    conversion, the identity on the modelled content. *)
Definition check_matrix (X : compressed) : compressed := X.

Section Numpy.

Variable np_exp : Q -> Q.
Variable np_argsort : forall A : Type, (A -> A -> bool) -> list A -> list nat.

(** ** similarityMatrixTopK *)

(** Body of the loop over the columns of a sparse [item_weights]; [acc] is
    ([data], [rows_indices], [cols_indptr]). *)
Definition topK_column (A : compressed) (k : Z)
    (acc : list Q * list nat * list nat) (item_idx : nat)
    : list Q * list nat * list nat :=
  let '(data_, rows_indices, cols_indptr) := acc in
  let cols_indptr := cols_indptr ++ [length data_] in
  let start_position := nth item_idx (indptr A) 0 in
  let end_position := nth (item_idx + 1) (indptr A) 0 in
  let column_data := slice (data A) start_position end_position in
  let column_row_index := slice (indices A) start_position end_position in
  let non_zero_data := map nonzero column_data in
  let idx_sorted := np_argsort Q Qle_bool (mask_select non_zero_data column_data) in
  let top_k_idx := slice_from idx_sorted (- k) in
  (data_ ++ take_idx 0%Q (mask_select non_zero_data column_data) top_k_idx,
   rows_indices ++ take_idx 0 (mask_select non_zero_data column_row_index) top_k_idx,
   cols_indptr).

(** Returns the pair (returned matrix, [item_weights] after the call): with
    [inplace] the dense path writes into its argument. *)
Definition similarityMatrixTopK (item_weights : matrix)
    (forceSparseOutput : bool) (k : Z) (inplace : bool)
    : result (matrix * matrix) :=
  if negb (fst (mshape item_weights) =? snd (mshape item_weights))
  then Raise AssertionError
  else
    let nitems := snd (mshape item_weights) in
    let k := Z.min k (Z.of_nat nitems) in
    match item_weights with
    | Dense M =>
        (* column c of idx_sorted is the argsort of column c *)
        let idx_sorted :=
          map (fun c => np_argsort Q Qle_bool (column M c)) (seq 0 nitems) in
        let not_top_k := map (fun idx => slice_to idx (- k)) idx_sorted in
        let W := zero_out M
                   (concat (imap (fun c rows => map (fun r => (r, c)) rows)
                                 not_top_k)) in
        let item_weights' := if inplace then Dense W else Dense M in
        if forceSparseOutput
        then Ok (Sparse (nitems, nitems) (sparse_of_dense nitems W), item_weights')
        else Ok (Dense W, item_weights')
    | Sparse shp A =>
        let A := check_matrix A in
        let '(data_, rows_indices, cols_indptr) :=
          fold_left (topK_column A k) (seq 0 nitems) ([], [], []) in
        let cols_indptr := cols_indptr ++ [length data_] in
        Ok (Sparse (nitems, nitems)
                   {| indptr := cols_indptr; indices := rows_indices; data := data_ |},
            Sparse shp A)
    end.

(** [sigmoidFunction] *)
Definition sigmoidFunction (x : Q) : Q := (1 / (1 + np_exp (- x)))%Q.

(** [np.sum] of a one-dimensional array *)
Definition np_sum (l : list Q) : Q := fold_left Qplus l 0%Q.

(** ** The recommender object *)

(** The fields of a [SLIM_BPR_Python] instance.  [Smat] is [self.S] (the
    name [S] is the successor of [nat]); it is the dense array that the
    constructor builds by default.  [URM_train] is a CSR matrix.
    [URM_mask] is the boolean CSR matrix left by [eliminate_zeros]: every
    stored entry is [True], so a row is the list of its column indices.
    The fields from [eligibleUsers] on are created by
    [initializeFastSampling], [fit_alreadyInitialized] and
    [updateSimilarityMatrix]; until then they hold a placeholder. *)
Record SLIM_BPR_Python : Type := {
  URM_train : compressed;
  n_users : nat;
  n_items : nat;
  sparse_weights : bool;
  positive_threshold : Q;
  URM_mask : list (list nat);
  Smat : dense;
  eligibleUsers : list nat;
  userSeenItems : gmap nat (list nat);
  topK : pyval;
  batch_size : nat;
  lambda_i : Q;
  lambda_j : Q;
  learning_rate : Q;
  W : option dense;
  W_sparse : option matrix
}.

Definition set_Smat (self : SLIM_BPR_Python) (M : dense) : SLIM_BPR_Python :=
  {| URM_train := URM_train self; n_users := n_users self;
     n_items := n_items self; sparse_weights := sparse_weights self;
     positive_threshold := positive_threshold self;
     URM_mask := URM_mask self; Smat := M;
     eligibleUsers := eligibleUsers self;
     userSeenItems := userSeenItems self; topK := topK self;
     batch_size := batch_size self; lambda_i := lambda_i self;
     lambda_j := lambda_j self; learning_rate := learning_rate self;
     W := W self; W_sparse := W_sparse self |}.

(** ** BPR_Sampling *)

(** The random source: raw draws, consumed left to right. *)
Abbreviation tape := (list nat).

(** [np.random.randint(0, high)] *)
Definition randint (high : nat) (t : tape) : result (nat * tape) :=
  if high =? 0 then Raise ValueError
  else match t with
       | [] => Raise Exhausted
       | r :: t' => Ok (r mod high, t')
       end.

(** [np.random.choice(a)] *)
Definition choice (a : list nat) (t : tape) : result (nat * tape) :=
  '(p, t) ← randint (length a) t;
  Ok (nth p a 0, t).

(** [np.random.choice(a, size=size)] *)
Fixpoint choice_n (a : list nat) (size : nat) (t : tape)
    : result (list nat * tape) :=
  match size with
  | 0 => Ok ([], t)
  | S m =>
      '(x, t) ← choice a t;
      '(xs, t) ← choice_n a m t;
      Ok (x :: xs, t)
  end.

(** [while True: x = np.random.randint(0, high); if accept(x): return x].
    Every iteration consumes one draw, so [fuel] = 1 + the length of the
    tape never runs out before the tape does. *)
Fixpoint rejection_loop (fuel : nat) (high : nat) (accept : nat -> bool)
    (t : tape) : result (nat * tape) :=
  match fuel with
  | 0 => Raise Exhausted
  | S fuel' =>
      '(x, t) ← randint high t;
      if accept x then Ok (x, t) else rejection_loop fuel' high accept t
  end.

Definition rejection (high : nat) (accept : nat -> bool) (t : tape)
    : result (nat * tape) :=
  rejection_loop (S (length t)) high accept t.

(** [x in arr] *)
Definition member (x : nat) (arr : list nat) : bool := existsb (Nat.eqb x) arr.

(** [URM_train[user_id]]: a row of the CSR matrix *)
Definition get_row (self : SLIM_BPR_Python) (user_id : nat)
    : result (list (nat * Q)) :=
  if user_id <? n_users self then Ok (major_slice (URM_train self) user_id)
  else Raise IndexError.

Definition sampleUser (self : SLIM_BPR_Python) (t : tape)
    : result (nat * tape) :=
  rejection (n_users self)
    (fun user_id =>
       let numSeenItems := length (major_slice (URM_train self) user_id) in
       (0 <? numSeenItems) && (numSeenItems <? n_items self))
    t.

Definition sampleItemPair (self : SLIM_BPR_Python) (user_id : nat) (t : tape)
    : result (nat * nat * tape) :=
  row ← get_row self user_id;
  let userSeenItems := map fst row in
  '(pos_item_id, t) ← choice userSeenItems t;
  '(neg_item_id, t) ← rejection (n_items self)
                        (fun neg_item_id => negb (member neg_item_id userSeenItems)) t;
  Ok (pos_item_id, neg_item_id, t).

Definition sampleTriple (self : SLIM_BPR_Python) (t : tape)
    : result (nat * nat * nat * tape) :=
  '(user_id, t) ← sampleUser self t;
  '(pos_item_id, neg_item_id, t) ← sampleItemPair self user_id t;
  Ok (user_id, pos_item_id, neg_item_id, t).

(** Row [user_id] of [URM_train.multiply(URM_train > positive_threshold)]:
    the product keeps the stored entries that are greater than the
    threshold and not zero.  The comparison first puts [URM_train] in
    canonical format in place ([sum_duplicates]: rows sorted, duplicate
    columns added up); this is the identity on a matrix that is already
    in canonical format ([has_canonical_format]), and changes only the
    order inside a row when no column is stored twice
    ([no_duplicates]).  A statement that depends on one of these
    conditions carries it as a hypothesis. *)
Definition URM_train_positive (self : SLIM_BPR_Python) (threshold : Q)
    (user_id : nat) : list (nat * Q) :=
  List.filter (fun p => negb (Qle_bool (snd p) threshold) && nonzero (snd p))
         (major_slice (URM_train self) user_id).

Definition initializeFastSampling (self : SLIM_BPR_Python) (threshold : Q)
    : SLIM_BPR_Python :=
  let '(eligible, seen) :=
    fold_left
      (fun (acc : list nat * gmap nat (list nat)) user_id =>
         let row := URM_train_positive self threshold user_id in
         if 0 <? length row
         then (fst acc ++ [user_id], <[user_id := map fst row]> (snd acc))
         else acc)
      (seq 0 (n_users self)) ([], ∅) in
  {| URM_train := URM_train self; n_users := n_users self;
     n_items := n_items self; sparse_weights := sparse_weights self;
     positive_threshold := positive_threshold self;
     URM_mask := URM_mask self; Smat := Smat self;
     eligibleUsers := eligible;
     userSeenItems := seen; topK := topK self;
     batch_size := batch_size self; lambda_i := lambda_i self;
     lambda_j := lambda_j self; learning_rate := learning_rate self;
     W := W self; W_sparse := W_sparse self |}.

(** [self.userSeenItems[user_id]] *)
Definition seen_of (self : SLIM_BPR_Python) (user_id : nat)
    : result (list nat) :=
  match userSeenItems self !! user_id with
  | Some seen => Ok seen
  | None => Raise KeyError
  end.

(** The loop of [sampleBatch] over the positions of [user_id_list]. *)
Fixpoint sampleBatch_loop (self : SLIM_BPR_Python) (user_id_list : list nat)
    (t : tape) : result (list nat * list nat * tape) :=
  match user_id_list with
  | [] => Ok ([], [], t)
  | user_id :: rest =>
      seen ← seen_of self user_id;
      '(pos_item_id, t) ← choice seen t;
      '(neg_item_id, t) ← rejection (n_items self)
                            (fun neg_item_id => negb (member neg_item_id seen)) t;
      '(pos_item_id_list, neg_item_id_list, t) ← sampleBatch_loop self rest t;
      Ok (pos_item_id :: pos_item_id_list, neg_item_id :: neg_item_id_list, t)
  end.

Definition sampleBatch (self : SLIM_BPR_Python) (t : tape)
    : result (list nat * list nat * list nat * tape) :=
  '(user_id_list, t) ← choice_n (eligibleUsers self) (batch_size self) t;
  '(pos_item_id_list, neg_item_id_list, t) ← sampleBatch_loop self user_id_list t;
  Ok (user_id_list, pos_item_id_list, neg_item_id_list, t).


(** ** SLIM_BPR_Python *)

(** A row of [URM_mask]: [data >= positive_threshold], then
    [eliminate_zeros()]. *)
Definition positive_mask_row (URM : compressed) (threshold : Q) (user_id : nat)
    : list nat :=
  map fst (List.filter (fun p => Qle_bool threshold (snd p)) (major_slice URM user_id)).

(** [np.zeros((nr, nc))] *)
Definition zeros (nr nc : nat) : dense := repeat (repeat 0%Q nc) nr.

(** [__init__(URM_train, positive_threshold)], with the default
    [sparse_weights = False]; [shp] is [URM_train.shape]. *)
Definition init (URM : compressed) (shp : nat * nat) (threshold : Q)
    : SLIM_BPR_Python :=
  {| URM_train := URM; n_users := fst shp; n_items := snd shp;
     sparse_weights := false; positive_threshold := threshold;
     URM_mask := map (positive_mask_row URM threshold) (seq 0 (fst shp));
     Smat := zeros (snd shp) (snd shp);
     eligibleUsers := []; userSeenItems := ∅; topK := PyBool false;
     batch_size := 0; lambda_i := 0; lambda_j := 0; learning_rate := 0;
     W := None; W_sparse := None |}.

(** [updateSimilarityMatrix].  The exported [W] / [W_sparse] is stored as
    the value [S.T] has when the export is made. *)
Definition updateSimilarityMatrix (self : SLIM_BPR_Python)
    : result SLIM_BPR_Python :=
  if py_ne_False (topK self) then
    (* self.S.T is a view of self.S: what similarityMatrixTopK writes into
       its argument is written into self.S *)
    '(W_sparse', ST') ← similarityMatrixTopK (Dense (transpose (Smat self)))
                          true (as_int (topK self)) true;
    let S' := match ST' with Dense M => transpose M | Sparse _ _ => Smat self end in
    Ok {| URM_train := URM_train self; n_users := n_users self;
          n_items := n_items self; sparse_weights := true;
          positive_threshold := positive_threshold self;
          URM_mask := URM_mask self; Smat := S';
          eligibleUsers := eligibleUsers self;
          userSeenItems := userSeenItems self; topK := topK self;
          batch_size := batch_size self; lambda_i := lambda_i self;
          lambda_j := lambda_j self; learning_rate := learning_rate self;
          W := W self; W_sparse := Some W_sparse' |}
  else
    Ok {| URM_train := URM_train self; n_users := n_users self;
          n_items := n_items self; sparse_weights := sparse_weights self;
          positive_threshold := positive_threshold self;
          URM_mask := URM_mask self; Smat := Smat self;
          eligibleUsers := eligibleUsers self;
          userSeenItems := userSeenItems self; topK := topK self;
          batch_size := batch_size self; lambda_i := lambda_i self;
          lambda_j := lambda_j self; learning_rate := learning_rate self;
          W := if sparse_weights self then W self
               else Some (transpose (Smat self));
          W_sparse := if sparse_weights self
                      then Some (Dense (transpose (Smat self)))
                      else W_sparse self |}.

(** [M[r, cols] += d] for one row [r] *)
Definition add_at (M : dense) (r : nat) (cols : list nat) (d : Q) : dense :=
  alter (imap (fun c x => if member c cols then (x + d)%Q else x)) r M.

(** [M[rows] += v] (every selected row is read, then written, once) *)
Definition add_rows (M : dense) (rows : list nat) (v : list Q) : dense :=
  imap (fun r row => if member r rows then zip_with Qplus row v else row) M.

(** [M[rows, rows] = 0] *)
Definition zero_diag (M : dense) (rows : list nat) : dense :=
  zero_out M (combine rows rows).

(** The sparse-by-dense product [mask_rows.dot(X.T)]: entry (a, b) adds
    the entries of row [b] of [X] at the columns stored in row [a] of the
    mask (whose stored values are all [True]). *)
Definition mask_dot (mask_rows : list (list nat)) (X : dense) : dense :=
  map (fun mrow => map (fun xrow => np_sum (map (fun c => nth c xrow 0%Q) mrow)) X)
      mask_rows.

(** [P.diagonal()] *)
Definition diagonal (P : dense) : list Q := imap (fun a row => nth a row 0%Q) P.

(** [(mask_rows.sum(axis=0) > 0).ravel()] *)
Definition any_positive (ncols : nat) (mask_rows : list (list nat)) : list bool :=
  map (fun c => 0 <? length (List.filter (Nat.eqb c) (concat mask_rows)))
      (seq 0 ncols).

Definition of_bool (b : bool) : Q := if b then 1%Q else 0%Q.

(** [updateWeightsBatch(u, i, j)].  With [batch_size == 1] the arrays hold
    one element each (as [sampleBatch] returns them), so [S[i, seenItems]]
    broadcasts [i] along [seenItems].  Every index is read before the
    first write, so an out-of-range index raises before [S] changes.
    A call with [batch_size == 1] on arrays of another length, which
    numpy would broadcast against [seenItems], is outside the model (it
    is answered [Raise IndexError]); a statement about a call that
    returns states that the arrays hold [batch_size] elements. *)
Definition updateWeightsBatch (self : SLIM_BPR_Python) (u i j : list nat)
    : result SLIM_BPR_Python :=
  let S0 := Smat self in
  if batch_size self =? 1 then
    match u, i, j with
    | [u0], [i0], [j0] =>
        seenItems ← seen_of self u0;
        if negb ((i0 <? length S0) && (j0 <? length S0)
                 && forallb (fun c => c <? snd (shape S0)) seenItems)
        then Raise IndexError
        else
          let x_ui := map (entry S0 i0) seenItems in
          let x_uj := map (entry S0 j0) seenItems in
          let x_uij := np_sum (zip_with Qminus x_ui x_uj) in
          let gradient := (1 / (1 + np_exp x_uij))%Q in
          let S1 := add_at S0 i0 seenItems (learning_rate self * gradient)%Q in
          let S2 := zero_diag S1 i in
          let S3 := add_at S2 j0 seenItems (- (learning_rate self * gradient))%Q in
          let S4 := zero_diag S3 j in
          Ok (set_Smat self S4)
    | _, _, _ => Raise IndexError
    end
  else
    if negb (forallb (fun r => r <? length S0) i
             && forallb (fun r => r <? length S0) j
             && forallb (fun r => r <? n_users self) u)
    then Raise IndexError
    else
      let x_ui := map (fun r => nth r S0 []) i in
      let x_uj := map (fun r => nth r S0 []) j in
      let x_uij := zip_with (zip_with Qminus) x_ui x_uj in
      let mask_rows := map (fun user => nth user (URM_mask self) []) u in
      let x_uij := diagonal (mask_dot mask_rows x_uij) in
      let gradient :=
        (np_sum (map (fun x => 1 / (1 + np_exp x)) x_uij)
         / inject_Z (Z.of_nat (batch_size self)))%Q in
      let itemsToUpdate := any_positive (n_items self) mask_rows in
      let step := map (fun b => (learning_rate self * gradient * of_bool b)%Q)
                      itemsToUpdate in
      let S1 := add_rows S0 i step in
      let S2 := zero_diag S1 i in
      let S3 := add_rows S2 j (map Qopp step) in
      let S4 := zero_diag S3 j in
      Ok (set_Smat self S4).

(** The batches of [epochIteration]. *)
Fixpoint run_batches (n : nat) (self : SLIM_BPR_Python) (t : tape)
    : result (SLIM_BPR_Python * tape) :=
  match n with
  | 0 => Ok (self, t)
  | S n' =>
      '(sgd_users, sgd_pos_items, sgd_neg_items, t) ← sampleBatch self t;
      self ← updateWeightsBatch self sgd_users sgd_pos_items sgd_neg_items;
      run_batches n' self t
  end.

Definition epochIteration (self : SLIM_BPR_Python) (t : tape)
    : result (SLIM_BPR_Python * tape) :=
  let numPositiveIteractions := length (concat (URM_mask self)) in
  if batch_size self =? 0 then Raise ZeroDivisionError
  else
    let totalNumberOfBatch := numPositiveIteractions / batch_size self + 1 in
    '(self, t) ← run_batches totalNumberOfBatch self t;
    if negb ((n_items self <=? length (Smat self))
             && forallb (fun row => n_items self <=? length row) (Smat self))
    then Raise IndexError
    else
      let self := set_Smat self (zero_diag (Smat self) (seq 0 (n_items self))) in
      self ← updateSimilarityMatrix self;
      Ok (self, t).

(** The loop of [fit_alreadyInitialized] over the epochs, without a test
    set ([URM_test = None]: the evaluation collaborator is not called). *)
Fixpoint run_epochs (epochs : list nat) (self : SLIM_BPR_Python) (t : tape)
    : result (SLIM_BPR_Python * tape) :=
  match epochs with
  | [] => Ok (self, t)
  | currentEpoch :: rest =>
      '(self, t) ←
        (if 0 <? currentEpoch then
           if 0 <? batch_size self then epochIteration self t
           else Ok (self, t)
         else self ← updateSimilarityMatrix self; Ok (self, t));
      run_epochs rest self t
  end.

(** The assignments [self.topK = topK], [self.batch_size = batch_size],
    ... of [fit_alreadyInitialized]. *)
Definition set_hyperparameters (self : SLIM_BPR_Python)
    (batch_size' : nat) (lambda_i' lambda_j' learning_rate' : Q)
    (topK' : pyval) : SLIM_BPR_Python :=
  {| URM_train := URM_train self; n_users := n_users self;
     n_items := n_items self; sparse_weights := sparse_weights self;
     positive_threshold := positive_threshold self;
     URM_mask := URM_mask self; Smat := Smat self;
     eligibleUsers := eligibleUsers self;
     userSeenItems := userSeenItems self; topK := topK';
     batch_size := batch_size'; lambda_i := lambda_i';
     lambda_j := lambda_j'; learning_rate := learning_rate';
     W := W self; W_sparse := W_sparse self |}.

Definition fit_alreadyInitialized (self : SLIM_BPR_Python) (epochs : nat)
    (batch_size' : nat) (lambda_i' lambda_j' learning_rate' : Q)
    (topK' : pyval) (t : tape) : result (SLIM_BPR_Python * tape) :=
  if py_ne_False topK' && py_lt_1 topK' then Raise ValueError
  else
    let self := set_hyperparameters self batch_size' lambda_i' lambda_j'
                  learning_rate' topK' in
    run_epochs (seq 0 epochs) self t.

Definition fit (self : SLIM_BPR_Python) (epochs : nat)
    (batch_size' : nat) (lambda_i' lambda_j' learning_rate' : Q)
    (topK' : pyval) (t : tape) : result (SLIM_BPR_Python * tape) :=
  let self := initializeFastSampling self (positive_threshold self) in
  fit_alreadyInitialized self epochs batch_size' lambda_i' lambda_j'
    learning_rate' topK' t.


(** ** Recommender *)

(** A score is a float that may be [-np.inf]. *)
Inductive score : Type :=
| NegInf
| Fin (q : Q).

Definition score_leb (a b : score) : bool :=
  match a, b with
  | NegInf, _ => true
  | Fin _, NegInf => false
  | Fin x, Fin y => Qle_bool x y
  end.


(** The item indices stored for [user_id]:
    [URM_train.indices[indptr[user_id]:indptr[user_id+1]]]. *)
Definition interaction_row (self : SLIM_BPR_Python) (user_id : nat) : list nat :=
  let start_pos := nth user_id (indptr (URM_train self)) 0 in
  let end_pos := nth (user_id + 1) (indptr (URM_train self)) 0 in
  slice (indices (URM_train self)) start_pos end_pos.

Definition filter_seen (self : SLIM_BPR_Python) (user_id : nat)
    (scores : list score) : result (list score) :=
  if negb (user_id + 1 <? length (indptr (URM_train self))) then Raise IndexError
  else
    let user_profile := interaction_row self user_id in
    if negb (forallb (fun c => c <? length scores) user_profile)
    then Raise IndexError
    else Ok (fold_left (fun sc c => <[c := NegInf]> sc) user_profile scores).

(** [recommend(user_id, at, exclude_seen)]; [at_ = None] is [at=None]. *)
Definition recommend (self : SLIM_BPR_Python) (user_id : nat)
    (at_ : option Z) (exclude_seen : bool) : result (list nat) :=
  user_profile ← get_row self user_id;
  match W_sparse self with
  | Some (Sparse shp A) =>
      if negb (n_items self =? fst shp) then Raise ValueError
      else
        let scores :=
          map (fun c =>
                 Fin (np_sum (map (fun p => (snd p * slice_get (major_slice A c) (fst p))%Q)
                                  user_profile)))
              (seq 0 (snd shp)) in
        scores ← (if exclude_seen then filter_seen self user_id scores
                  else Ok scores);
        let ranking := rev (np_argsort score score_leb scores) in
        Ok (match at_ with
            | Some a => slice_to ranking a
            | None => ranking
            end)
  | _ => Raise AttributeError
  end.

End Numpy.

(** ** Concrete inputs *)

(** Two users and three items: user 0 rated item 0 with 5; user 1 rated
    item 1 with 4 and item 2 with 5. *)
Definition URM_small : compressed :=
  compress [[(0, 5%Q)]; [(1, 4%Q); (2, 5%Q)]].

(** The model built on [URM_small] with threshold 3, after
    [initializeFastSampling], with the hyper-parameters that
    [fit_alreadyInitialized] would store. *)
Definition model_small (batch_size' : nat) (topK' : pyval) : SLIM_BPR_Python :=
  set_hyperparameters (initializeFastSampling (init URM_small (2, 3) 3) 3)
    batch_size' 0 0 (1 # 10) topK'.

(** One user and two items; the only rating equals the threshold 3. *)
Definition URM_threshold : compressed := compress [[(0, 3%Q)]].


Definition M_positive : list (list Q) := [[3; 1]; [0; 2]]%Q.

(** A model whose [S] holds two different positive weights in row 0, with
    [topK = 1]. *)
Definition model_trained : SLIM_BPR_Python :=
  set_Smat (model_small 1 (PyInt 1)) [[0; 1; 2]; [0; 0; 0]; [0; 0; 0]]%Q.

Definition tape_small : list nat :=
  [0; 0; 1; 1; 0; 0; 0; 0; 2; 1; 1; 0; 0; 0; 1; 1; 1; 0; 2; 0; 1; 2; 0; 1].

(** [model_small] with [topK = 1] after the export of epoch 0. *)
Definition model_exported : SLIM_BPR_Python :=
  match updateSimilarityMatrix stable_argsort (model_small 1 (PyInt 1)) with
  | Ok self => self
  | Raise _ => model_small 1 (PyInt 1)
  end.

(** A 2 x 2 weight matrix in compressed-column layout with an explicit
    zero and a negative value: column 0 stores 3 at row 0 and 0 at row 1,
    column 1 stores 2 at row 1 and -1 at row 0. *)
Definition W_small : compressed :=
  compress [[(0, 3%Q); (1, 0%Q)]; [(1, 2%Q); (0, (-1)%Q)]].

(** One user and one item, rated 3: with threshold 2 the user is eligible
    and has seen every item. *)
Definition model_one_item : SLIM_BPR_Python :=
  set_hyperparameters (initializeFastSampling (init URM_threshold (1, 1) 2) 2)
    1 0 0 (1 # 10) (PyBool false).

(** * Facts about the embedding *)

(** ** Arrays *)

Lemma nth_insert {A} (l : list A) (i j : nat) (x d : A) :
  nth j (<[i := x]> l) d = if decide (i = j /\ i < length l) then x else nth j l d.
Proof.
  rewrite !nth_lookup, list_lookup_insert.
  destruct (decide (i = j /\ i < length l)); reflexivity.
Qed.

Lemma nth_alter {A} (f : A -> A) (l : list A) (i j : nat) (d : A) :
  nth j (alter f i l) d =
  if decide (i = j /\ i < length l) then f (nth i l d) else nth j l d.
Proof.
  rewrite !nth_lookup, list_lookup_alter.
  destruct (decide (i = j)) as [->|Hne].
  - destruct (l !! j) eqn:E.
    + apply lookup_lt_Some in E as Hlt.
      destruct (decide (j = j /\ j < length l)) as [_|Hn]; [reflexivity|].
      exfalso; apply Hn; split; [reflexivity | exact Hlt].
    + apply lookup_ge_None in E as Hge.
      destruct (decide (j = j /\ j < length l)) as [[_ Hlt]|_]; [lia|reflexivity].
  - destruct (decide (i = j /\ i < length l)) as [[He _]|_]; [contradiction|reflexivity].
Qed.

Lemma shape_square (n : nat) (M : dense) :
  has_shape n n M -> shape M = (n, n).
Proof.
  intros [Hlen Hrows]. unfold shape. rewrite Hlen. f_equal.
  destruct M as [|row M']; simpl in *.
  - now subst n.
  - now inversion Hrows.
Qed.

Lemma has_shape_row (nr nc : nat) (M : dense) (r : nat) :
  has_shape nr nc M -> r < nr -> length (nth r M []) = nc.
Proof.
  intros [Hlen Hrows] Hr. rewrite List.Forall_forall in Hrows.
  apply Hrows, nth_In. lia.
Qed.

(** ** Writing entries *)

Lemma entry_set_entry_ne (M : dense) (r c r' c' : nat) (v : Q) :
  (r, c) <> (r', c') -> entry (set_entry M r' c' v) r c = entry M r c.
Proof.
  intros Hne. unfold entry, set_entry. rewrite nth_alter.
  destruct (decide (r' = r /\ r' < length M)) as [[-> _]|_]; [|reflexivity].
  rewrite nth_insert.
  destruct (decide (c' = c /\ c' < length (nth r M []))) as [[-> _]|_];
    [congruence | reflexivity].
Qed.

Lemma entry_set_entry_zero (M : dense) (r c : nat) :
  entry (set_entry M r c 0%Q) r c = 0%Q.
Proof.
  unfold entry, set_entry. rewrite nth_alter.
  destruct (decide (r = r /\ r < length M)) as [[_ Hr]|Hn].
  - rewrite nth_insert.
    destruct (decide (c = c /\ c < length (nth r M []))) as [_|Hn]; [reflexivity|].
    apply nth_overflow. apply Nat.nlt_ge. intros Hc. apply Hn. now split.
  - rewrite (nth_overflow M); [now destruct c|].
    apply Nat.nlt_ge. intros Hr. apply Hn. now split.
Qed.

Lemma entry_zero_out_keeps_zero (cells : list (nat * nat)) (M : dense) (r c : nat) :
  entry M r c = 0%Q -> entry (zero_out M cells) r c = 0%Q.
Proof.
  revert M. induction cells as [|[r' c'] cells IH]; intros M Hz; [exact Hz|].
  apply IH. simpl.
  destruct (decide ((r, c) = (r', c'))) as [Heq|Hne].
  - inversion Heq; subst. apply entry_set_entry_zero.
  - now rewrite entry_set_entry_ne.
Qed.

Lemma entry_zero_out_in (cells : list (nat * nat)) (M : dense) (r c : nat) :
  In (r, c) cells -> entry (zero_out M cells) r c = 0%Q.
Proof.
  revert M. induction cells as [|[r' c'] cells IH]; intros M Hin; [destruct Hin|].
  destruct Hin as [Heq|Hin].
  - inversion Heq; subst. simpl.
    apply entry_zero_out_keeps_zero, entry_set_entry_zero.
  - now apply IH.
Qed.

Lemma entry_zero_out_notin (cells : list (nat * nat)) (M : dense) (r c : nat) :
  ~ In (r, c) cells -> entry (zero_out M cells) r c = entry M r c.
Proof.
  revert M. induction cells as [|[r' c'] cells IH]; intros M Hin; [reflexivity|].
  simpl. rewrite IH.
  - apply entry_set_entry_ne. intros Heq. apply Hin. left. now symmetry.
  - intros H. apply Hin. now right.
Qed.

Lemma set_entry_shape (nr nc : nat) (M : dense) (r c : nat) (v : Q) :
  has_shape nr nc M -> has_shape nr nc (set_entry M r c v).
Proof.
  intros [Hlen Hrows]. split.
  - unfold set_entry. now rewrite length_alter.
  - unfold set_entry. rewrite List.Forall_forall in *. intros row Hin.
    apply (In_nth _ _ []) in Hin as (p & Hp & <-).
    rewrite length_alter in Hp. rewrite nth_alter.
    destruct (decide (r = p /\ r < length M)) as [[-> _]|_].
    + rewrite length_insert. apply Hrows, nth_In; lia.
    + apply Hrows, nth_In; lia.
Qed.

Lemma zero_out_shape (nr nc : nat) (cells : list (nat * nat)) (M : dense) :
  has_shape nr nc M -> has_shape nr nc (zero_out M cells).
Proof.
  revert M. induction cells as [|rc cells IH]; intros M HM; [exact HM|].
  simpl. apply IH. now apply set_entry_shape.
Qed.

(** ** Slices *)

Lemma slice_to_0 {A} (l : list A) : slice_to l 0 = [].
Proof. unfold slice_to, slice_bound. simpl. reflexivity. Qed.

Lemma concat_imap_nil {A B} (f : nat -> list A -> list B) (l : list (list A)) :
  (forall i, f i [] = []) -> Forall (fun x => x = []) l -> concat (imap f l) = [].
Proof.
  intros Hf. revert f Hf. induction l as [|x l IH]; intros f Hf Hall; [reflexivity|].
  inversion Hall; subst. simpl. rewrite Hf. simpl.
  apply IH; [intros i; apply Hf | assumption].
Qed.

Section TopKZero.

Variable np_exp : Q -> Q.
Variable np_argsort : forall A : Type, (A -> A -> bool) -> list A -> list nat.
Hypothesis np_argsort_ok : argsort_spec np_argsort.

(** C10: for a square dense matrix, [similarityMatrixTopK] with [k = 0] and
    [forceSparseOutput = False] returns the matrix with every entry as it
    was: no error is raised and nothing is zeroed, because the slice
    [idx_sorted[:-0]] is empty. *)
Theorem topK_zero_keeps_dense (n : nat) (M : dense) (inplace : bool) :
  has_shape n n M ->
  similarityMatrixTopK np_argsort (Dense M) false 0 inplace
  = Ok (Dense M, Dense M).
Proof.
  intros HM. unfold similarityMatrixTopK. simpl mshape.
  rewrite (shape_square n M HM). simpl fst; simpl snd.
  rewrite Nat.eqb_refl. simpl negb. cbv iota.
  replace (Z.min 0 (Z.of_nat n)) with 0%Z by lia.
  change (- 0)%Z with 0%Z.
  rewrite concat_imap_nil.
  - simpl. now destruct inplace.
  - reflexivity.
  - rewrite List.Forall_forall. intros x Hx. apply in_map_iff in Hx as (idx & <- & _).
    apply slice_to_0.
Qed.

End TopKZero.

(** ** Sampling *)

Lemma member_In (x : nat) (l : list nat) : member x l = true <-> In x l.
Proof.
  unfold member. rewrite existsb_exists. split.
  - intros (y & Hy & Heq). apply Nat.eqb_eq in Heq. now subst.
  - intros H. exists x. split; [exact H | apply Nat.eqb_refl].
Qed.

Lemma member_false (x : nat) (l : list nat) : member x l = false <-> ~ In x l.
Proof.
  rewrite <- member_In. destruct (member x l); split; congruence.
Qed.

Lemma randint_Ok (high : nat) (t t' : list nat) (x : nat) :
  randint high t = Ok (x, t') ->
  x < high /\ exists r, t = r :: t' /\ x = r mod high.
Proof.
  unfold randint. destruct (high =? 0) eqn:E; [discriminate|].
  apply Nat.eqb_neq in E.
  destruct t as [|r t0]; [discriminate|].
  intros H; inversion H; subst. split.
  - now apply Nat.mod_upper_bound.
  - now exists r.
Qed.

Lemma choice_Ok (a : list nat) (t t' : list nat) (x : nat) :
  choice a t = Ok (x, t') -> In x a /\ length t = S (length t').
Proof.
  unfold choice. destruct (randint (length a) t) as [[p t0]|e] eqn:E; [|discriminate].
  simpl. intros H; inversion H; subst.
  apply randint_Ok in E as (Hp & r & -> & _). split.
  - now apply nth_In.
  - reflexivity.
Qed.

Lemma choice_n_Ok (a : list nat) (size : nat) (t t' : list nat) (xs : list nat) :
  choice_n a size t = Ok (xs, t') -> length xs = size /\ Forall (fun x => In x a) xs.
Proof.
  revert t xs. induction size as [|m IH]; intros t xs; simpl.
  - intros H; inversion H; subst. now split.
  - destruct (choice a t) as [[x t0]|e] eqn:E; [|discriminate]. simpl.
    destruct (choice_n a m t0) as [[ys t1]|e] eqn:E'; [|discriminate]. simpl.
    intros H; inversion H; subst.
    apply IH in E' as [Hlen Hall]. apply choice_Ok in E as [Hin _].
    split; [simpl; now f_equal | now constructor].
Qed.

Lemma rejection_loop_Ok (fuel high : nat) (accept : nat -> bool)
    (t t' : list nat) (x : nat) :
  rejection_loop fuel high accept t = Ok (x, t') -> x < high /\ accept x = true.
Proof.
  revert t. induction fuel as [|fuel IH]; intros t; simpl; [discriminate|].
  destruct (randint high t) as [[y t0]|e] eqn:E; [|discriminate]. simpl.
  destruct (accept y) eqn:Hacc.
  - intros H; inversion H; subst. apply randint_Ok in E as [Hlt _]. now split.
  - apply IH.
Qed.

Lemma rejection_Ok (high : nat) (accept : nat -> bool) (t t' : list nat) (x : nat) :
  rejection high accept t = Ok (x, t') -> x < high /\ accept x = true.
Proof. apply rejection_loop_Ok. Qed.

(** The rejection loop returns as soon as the tape holds a draw that is
    accepted. *)
Lemma rejection_loop_returns (high : nat) (accept : nat -> bool) (t : list nat) (fuel : nat) :
  0 < high -> length t < fuel ->
  Exists (fun r => accept (r mod high) = true) t ->
  exists x t', rejection_loop fuel high accept t = Ok (x, t').
Proof.
  intros Hhigh. revert fuel. induction t as [|r t IH]; intros fuel Hfuel Hex.
  - inversion Hex.
  - destruct fuel as [|fuel]; [simpl in Hfuel; lia|].
    simpl. unfold randint. destruct (high =? 0) eqn:E; [apply Nat.eqb_eq in E; lia|].
    simpl. destruct (accept (r mod high)) eqn:Hacc; [eauto|].
    apply IH; [simpl in Hfuel; lia|].
    inversion Hex; subst; [congruence | assumption].
Qed.

Lemma rejection_returns (high : nat) (accept : nat -> bool) (t : list nat) :
  0 < high ->
  Exists (fun r => accept (r mod high) = true) t ->
  exists x t', rejection high accept t = Ok (x, t').
Proof. intros. apply rejection_loop_returns; auto. Qed.

Lemma sampleItemPair_Ok (self : SLIM_BPR_Python) (user_id : nat)
    (t t' : list nat) (pos neg : nat) :
  sampleItemPair self user_id t = Ok (pos, neg, t') ->
  user_id < n_users self /\
  In pos (map fst (major_slice (URM_train self) user_id)) /\
  ~ In neg (map fst (major_slice (URM_train self) user_id)) /\
  neg < n_items self.
Proof.
  unfold sampleItemPair, get_row.
  destruct (user_id <? n_users self) eqn:Hu; [|discriminate]. simpl.
  destruct (choice _ t) as [[p t0]|e] eqn:E; [|discriminate]. simpl.
  destruct (rejection _ _ t0) as [[n t1]|e] eqn:E'; [|discriminate]. simpl.
  intros H; inversion H; subst.
  apply choice_Ok in E as [Hin _]. apply rejection_Ok in E' as [Hlt Hacc].
  apply negb_true_iff, member_false in Hacc.
  apply Nat.ltb_lt in Hu. auto.
Qed.

(** [sampleItemPair] returns for a user with a non-empty row as soon as
    the tape, after the draw of the positive item, holds a draw that falls
    on an item outside the row. *)
Lemma sampleItemPair_returns (self : SLIM_BPR_Python) (user_id r : nat) (t : list nat) :
  user_id < n_users self ->
  major_slice (URM_train self) user_id <> [] ->
  0 < n_items self ->
  Exists (fun d => member (d mod n_items self)
                     (map fst (major_slice (URM_train self) user_id)) = false) t ->
  exists pos neg t', sampleItemPair self user_id (r :: t) = Ok (pos, neg, t').
Proof.
  intros Hu Hrow Hn Hex. unfold sampleItemPair, get_row.
  apply Nat.ltb_lt in Hu as ->. cbn [mbind result_bind].
  unfold choice, randint. rewrite length_map.
  destruct (length (major_slice (URM_train self) user_id) =? 0) eqn:E.
  - apply Nat.eqb_eq in E. now destruct (major_slice (URM_train self) user_id).
  - cbn [mbind result_bind].
    destruct (rejection_returns (n_items self)
                (fun neg_item_id =>
                   negb (member neg_item_id
                           (map fst (major_slice (URM_train self) user_id)))) t Hn)
      as (neg & t' & Hneg).
    + apply List.Exists_exists in Hex as (d & Hd & Hmem).
      apply List.Exists_exists. exists d. split; [exact Hd | now rewrite Hmem].
    + rewrite Hneg. cbn [mbind result_bind]. eauto.
Qed.

Lemma sampleBatch_loop_Ok (self : SLIM_BPR_Python) (users : list nat) :
  forall (t t' : list nat) (ps ns : list nat),
  sampleBatch_loop self users t = Ok (ps, ns, t') ->
  length ps = length users /\ length ns = length users /\
  forall k u p n,
    users !! k = Some u -> ps !! k = Some p -> ns !! k = Some n ->
    exists seen, userSeenItems self !! u = Some seen /\
                 In p seen /\ ~ In n seen /\ n < n_items self.
Proof.
  induction users as [|user rest IH]; intros t t' ps ns; simpl.
  - intros H; inversion H; subst. repeat split; auto.
    intros k u p n Hk. destruct k; discriminate.
  - unfold seen_of. destruct (userSeenItems self !! user) as [seen|] eqn:Hseen;
      [|discriminate]. simpl.
    destruct (choice seen t) as [[p0 t0]|e] eqn:E; [|discriminate]. simpl.
    destruct (rejection _ _ t0) as [[n0 t1]|e] eqn:E'; [|discriminate]. simpl.
    destruct (sampleBatch_loop self rest t1) as [[[ps' ns'] t2]|e] eqn:E'';
      [|discriminate]. simpl.
    intros H; inversion H; subst.
    apply IH in E'' as (Hl1 & Hl2 & Hall).
    apply choice_Ok in E as [Hin _]. apply rejection_Ok in E' as [Hlt Hacc].
    apply negb_true_iff, member_false in Hacc.
    split; [simpl; now f_equal|]. split; [simpl; now f_equal|].
    intros [|k] u p n Hu Hp Hn; simpl in *.
    + inversion Hu; inversion Hp; inversion Hn; subst. eauto.
    + eauto.
Qed.

(** C3: what the samplers return.  For [sampleItemPair] and [sampleTriple]
    the seen items of the user are the indices stored in the user's row of
    [URM_train]; for [sampleBatch] they are [userSeenItems[user]].  Whenever
    a sampler returns, the positive item is one of the seen items of the
    sampled user, the negative item is not, and the negative item is below
    [n_items]. *)
Theorem sampled_triples_valid (self : SLIM_BPR_Python) :
  (forall user_id t pos neg t',
     sampleItemPair self user_id t = Ok (pos, neg, t') ->
     In pos (map fst (major_slice (URM_train self) user_id)) /\
     ~ In neg (map fst (major_slice (URM_train self) user_id)) /\
     neg < n_items self) /\
  (forall t user_id pos neg t',
     sampleTriple self t = Ok (user_id, pos, neg, t') ->
     In pos (map fst (major_slice (URM_train self) user_id)) /\
     ~ In neg (map fst (major_slice (URM_train self) user_id)) /\
     neg < n_items self) /\
  (forall t users poss negs t',
     sampleBatch self t = Ok (users, poss, negs, t') ->
     length users = batch_size self /\
     length poss = batch_size self /\
     length negs = batch_size self /\
     forall k u p n,
       users !! k = Some u -> poss !! k = Some p -> negs !! k = Some n ->
       exists seen, userSeenItems self !! u = Some seen /\
                    In p seen /\ ~ In n seen /\ n < n_items self).
Proof.
  split; [|split].
  - intros user_id t pos neg t' H. apply sampleItemPair_Ok in H. tauto.
  - intros t user_id pos neg t'. unfold sampleTriple.
    destruct (sampleUser self t) as [[u t0]|e]; [|discriminate]. simpl.
    destruct (sampleItemPair self u t0) as [[[p n] t1]|e] eqn:E; [|discriminate].
    simpl. intros H; inversion H; subst.
    apply sampleItemPair_Ok in E. tauto.
  - intros t users poss negs t'. unfold sampleBatch.
    destruct (choice_n _ _ t) as [[us t0]|e] eqn:E; [|discriminate]. simpl.
    destruct (sampleBatch_loop self us t0) as [[[ps ns] t1]|e] eqn:E';
      [|discriminate]. simpl.
    intros H; inversion H; subst.
    apply choice_n_Ok in E as [Hlen _].
    apply sampleBatch_loop_Ok in E' as (Hl1 & Hl2 & Hall).
    repeat split; try congruence. exact Hall.
Qed.

(** ** Transposition and the exported similarity *)

Lemma nth_column (M : dense) (r c : nat) : nth c (column M r) 0%Q = entry M c r.
Proof.
  unfold column, entry.
  destruct (Nat.lt_ge_cases c (length M)) as [Hc|Hc].
  - rewrite (nth_indep _ 0%Q (nth r [] 0%Q)) by now rewrite length_map.
    now rewrite (map_nth (fun row => nth r row 0%Q)).
  - rewrite !nth_overflow; try (now rewrite ?length_map); simpl; try lia.
    rewrite (nth_overflow M) by lia. simpl. lia.
Qed.

Lemma entry_transpose (M : dense) (r c : nat) :
  entry (transpose M) r c = if r <? snd (shape M) then entry M c r else 0%Q.
Proof.
  unfold transpose. unfold entry at 1.
  destruct (r <? snd (shape M)) eqn:Hr.
  - apply Nat.ltb_lt in Hr.
    rewrite (nth_indep _ [] (column M 0)) by now rewrite length_map, length_seq.
    rewrite (map_nth (column M)), seq_nth by exact Hr. simpl.
    apply nth_column.
  - apply Nat.ltb_ge in Hr. rewrite (nth_overflow (map _ _)).
    + now destruct c.
    + now rewrite length_map, length_seq.
Qed.

Lemma zero_out_length (cells : list (nat * nat)) (M : dense) :
  length (zero_out M cells) = length M.
Proof.
  revert M. induction cells as [|rc cells IH]; intros M; [reflexivity|].
  simpl. rewrite IH. unfold set_entry. apply length_alter.
Qed.

Lemma zero_out_row_length (cells : list (nat * nat)) (M : dense) (r : nat) :
  length (nth r (zero_out M cells) []) = length (nth r M []).
Proof.
  revert M. induction cells as [|rc cells IH]; intros M; [reflexivity|].
  simpl. rewrite IH. unfold set_entry. rewrite nth_alter.
  destruct (decide (rc.1 = r /\ rc.1 < length M)) as [[-> _]|_]; [|reflexivity].
  apply length_insert.
Qed.

Lemma zero_out_shape_eq (cells : list (nat * nat)) (M : dense) :
  shape (zero_out M cells) = shape M.
Proof.
  unfold shape. now rewrite zero_out_length, zero_out_row_length.
Qed.

Lemma entry_zero_out_cases (cells : list (nat * nat)) (M : dense) (r c : nat) :
  entry (zero_out M cells) r c = entry M r c \/ entry (zero_out M cells) r c = 0%Q.
Proof.
  destruct (decide ((r, c) ∈ cells)) as [Hin|Hin]; rewrite list_elem_of_In in Hin.
  - right. now apply entry_zero_out_in.
  - left. now apply entry_zero_out_notin.
Qed.

Section Epoch.

Variable np_exp : Q -> Q.
Variable np_argsort : forall A : Type, (A -> A -> bool) -> list A -> list nat.

(** [updateSimilarityMatrix] writes nothing but zeros into [S], and keeps
    the other fields that training reads. *)
Lemma updateSimilarityMatrix_entries (self self' : SLIM_BPR_Python) :
  updateSimilarityMatrix np_argsort self = Ok self' ->
  n_items self' = n_items self /\
  forall r c, entry (Smat self') r c = entry (Smat self) r c \/
              entry (Smat self') r c = 0%Q.
Proof.
  unfold updateSimilarityMatrix.
  destruct (py_ne_False (topK self)).
  - unfold similarityMatrixTopK. simpl mshape.
    destruct (negb _); [discriminate|]. simpl.
    intros H; inversion H; subst; clear H. simpl. split; [reflexivity|].
    intros r c. rewrite entry_transpose, zero_out_shape_eq.
    destruct (r <? _) eqn:Hr; [|now right].
    match goal with
    | |- context [entry (zero_out ?M ?cells) ?a ?b] =>
        destruct (entry_zero_out_cases cells M a b) as [He|He]; rewrite He;
          [|now right]
    end.
    rewrite entry_transpose. destruct (c <? _); [now left | now right].
  - intros H; inversion H; subst; clear H. simpl. split; [reflexivity|].
    intros; now left.
Qed.

Lemma updateWeightsBatch_frame (self self' : SLIM_BPR_Python) (u i j : list nat) :
  updateWeightsBatch np_exp self u i j = Ok self' ->
  self' = set_Smat self (Smat self').
Proof.
  unfold updateWeightsBatch.
  destruct (batch_size self =? 1).
  - destruct u as [|u0 [|]]; try discriminate.
    destruct i as [|i0 [|]]; try discriminate.
    destruct j as [|j0 [|]]; try discriminate.
    destruct (seen_of self u0); [|discriminate]. simpl.
    destruct (negb _); [discriminate|].
    intros H; inversion H; subst; reflexivity.
  - destruct (negb _); [discriminate|].
    intros H; inversion H; subst; reflexivity.
Qed.

Lemma run_batches_n_items (n : nat) :
  forall (self self' : SLIM_BPR_Python) (t t' : list nat),
  run_batches np_exp n self t = Ok (self', t') -> n_items self' = n_items self.
Proof.
  induction n as [|n IH]; intros self self' t t'; simpl.
  - intros H; now inversion H.
  - destruct (sampleBatch self t) as [[[[us ps] ns] t0]|e]; [|discriminate]. simpl.
    destruct (updateWeightsBatch np_exp self us ps ns) as [self1|e] eqn:E;
      [|discriminate]. simpl.
    intros H. apply IH in H. rewrite H.
    apply updateWeightsBatch_frame in E. now rewrite E.
Qed.

Lemma in_combine_diag (n i : nat) : i < n -> In (i, i) (combine (seq 0 n) (seq 0 n)).
Proof.
  intros Hi. replace (i, i) with (nth i (combine (seq 0 n) (seq 0 n)) (0, 0)).
  - apply nth_In. rewrite length_combine, length_seq. lia.
  - rewrite combine_nth by reflexivity. now rewrite seq_nth.
Qed.

End Epoch.

(** ** The in-place updates of the SGD step *)

Lemma nth_imap {A B} (f : nat -> A -> B) (l : list A) (i : nat) (d : A) (d' : B) :
  i < length l -> nth i (imap f l) d' = f i (nth i l d).
Proof.
  intros Hi. rewrite !nth_lookup, list_lookup_imap.
  destruct (l !! i) eqn:E; [reflexivity|].
  apply lookup_ge_None in E. lia.
Qed.

Lemma nth_zip_with {A B C} (f : A -> B -> C) (l1 : list A) (l2 : list B)
    (i : nat) (d1 : A) (d2 : B) (d : C) :
  i < length l1 -> i < length l2 ->
  nth i (zip_with f l1 l2) d = f (nth i l1 d1) (nth i l2 d2).
Proof.
  intros H1 H2. rewrite !nth_lookup, lookup_zip_with.
  destruct (l1 !! i) eqn:E1; [|apply lookup_ge_None in E1; lia].
  destruct (l2 !! i) eqn:E2; [|apply lookup_ge_None in E2; lia].
  reflexivity.
Qed.

Lemma entry_add_at (M : dense) (r' : nat) (cols : list nat) (d : Q) (r c : nat) :
  r < length M -> c < length (nth r M []) ->
  entry (add_at M r' cols d) r c =
  if decide (r' = r) then
    if member c cols then (entry M r c + d)%Q else entry M r c
  else entry M r c.
Proof.
  intros Hr Hc. unfold entry, add_at. rewrite nth_alter.
  destruct (decide (r' = r)) as [->|Hne].
  - destruct (decide (r = r /\ r < length M)) as [_|Hn]; [|exfalso; auto].
    now rewrite (nth_imap _ _ _ 0%Q).
  - destruct (decide (r' = r /\ r' < length M)) as [[He _]|_]; [contradiction|].
    reflexivity.
Qed.

Lemma add_at_shape (nr nc : nat) (M : dense) (r : nat) (cols : list nat) (d : Q) :
  has_shape nr nc M -> has_shape nr nc (add_at M r cols d).
Proof.
  intros [Hlen Hrows]. unfold add_at. split.
  - now rewrite length_alter.
  - rewrite List.Forall_forall in *. intros row Hin.
    apply (In_nth _ _ []) in Hin as (p & Hp & <-).
    rewrite length_alter in Hp. rewrite nth_alter.
    destruct (decide (r = p /\ r < length M)) as [[-> _]|_].
    + rewrite length_imap. apply Hrows, nth_In; lia.
    + apply Hrows, nth_In; lia.
Qed.

Lemma entry_add_rows (M : dense) (rows : list nat) (v : list Q) (r c : nat) :
  r < length M -> c < length (nth r M []) -> c < length v ->
  entry (add_rows M rows v) r c =
  if member r rows then (entry M r c + nth c v 0)%Q else entry M r c.
Proof.
  intros Hr Hc Hv. unfold entry, add_rows.
  rewrite (nth_imap _ _ _ []) by exact Hr.
  destruct (member r rows); [|reflexivity].
  now apply nth_zip_with.
Qed.

Lemma add_rows_shape (nr nc : nat) (M : dense) (rows : list nat) (v : list Q) :
  length v = nc -> has_shape nr nc M -> has_shape nr nc (add_rows M rows v).
Proof.
  intros Hv [Hlen Hrows]. unfold add_rows. split.
  - now rewrite length_imap.
  - rewrite List.Forall_forall in *. intros row Hin.
    apply (In_nth _ _ []) in Hin as (p & Hp & <-).
    rewrite length_imap in Hp. rewrite (nth_imap _ _ _ []) by exact Hp.
    assert (length (nth p M []) = nc) as Hrow by (apply Hrows, nth_In; lia).
    destruct (member p rows); [|exact Hrow].
    rewrite length_zip_with. lia.
Qed.

Lemma in_combine_same (rows : list nat) (r c : nat) :
  In (r, c) (combine rows rows) <-> r = c /\ In r rows.
Proof.
  induction rows as [|x rows IH]; simpl; [tauto|].
  rewrite IH. split.
  - intros [H|[-> H]]; [inversion H; subst; auto | auto].
  - intros [-> [->|H]]; auto.
Qed.

Lemma entry_zero_diag (M : dense) (rows : list nat) (r c : nat) :
  entry (zero_diag M rows) r c =
  if (r =? c) && member r rows then 0%Q else entry M r c.
Proof.
  unfold zero_diag.
  destruct ((r =? c) && member r rows) eqn:E.
  - apply andb_true_iff in E as [E1 E2]. apply Nat.eqb_eq in E1. apply member_In in E2.
    apply entry_zero_out_in. now apply in_combine_same.
  - apply entry_zero_out_notin. rewrite in_combine_same. intros [H1 H2].
    apply Nat.eqb_eq in H1. apply member_In in H2. rewrite H1, H2 in E. discriminate.
Qed.

Lemma zero_diag_shape (nr nc : nat) (M : dense) (rows : list nat) :
  has_shape nr nc M -> has_shape nr nc (zero_diag M rows).
Proof. apply zero_out_shape. Qed.

Lemma zip_with_map_same {A B C D} (f : B -> C -> D) (g : A -> B) (h : A -> C)
    (l : list A) :
  zip_with f (map g l) (map h l) = map (fun x => f (g x) (h x)) l.
Proof. induction l as [|x l IH]; simpl; [reflexivity | now rewrite IH]. Qed.

Lemma forallb_lt (n : nat) (l : list nat) :
  forallb (fun c => c <? n) l = true <-> Forall (fun c => c < n) l.
Proof.
  rewrite forallb_forall, List.Forall_forall. split; intros H x Hx.
  - now apply Nat.ltb_lt, H.
  - now apply Nat.ltb_lt, H.
Qed.

Section SingleUpdate.

Variable np_exp : Q -> Q.

(** The whole of [S] after the single-triple update. *)
Lemma updateWeightsBatch_single_table (self : SLIM_BPR_Python) (n u i j : nat)
    (seen : list nat) :
  batch_size self = 1 ->
  has_shape n n (Smat self) ->
  userSeenItems self !! u = Some seen ->
  Forall (fun c => c < n) seen ->
  i < n -> j < n -> i <> j ->
  let S0 := Smat self in
  let x_uij := np_sum (map (fun item => entry S0 i item - entry S0 j item)%Q seen) in
  let gradient := (1 / (1 + np_exp x_uij))%Q in
  exists S',
    updateWeightsBatch np_exp self [u] [i] [j] = Ok (set_Smat self S') /\
    has_shape n n S' /\
    forall r c, r < n -> c < n ->
      entry S' r c =
      if decide (r = i) then
        if decide (c = i) then 0%Q
        else if member c seen then (entry S0 i c + learning_rate self * gradient)%Q
             else entry S0 i c
      else if decide (r = j) then
        if decide (c = j) then 0%Q
        else if member c seen then (entry S0 j c - learning_rate self * gradient)%Q
             else entry S0 j c
      else entry S0 r c.
Proof.
  intros Hb HS Hseen Hall Hi Hj Hij S0 x_uij gradient.
  pose proof (shape_square n _ HS) as Hshape.
  destruct HS as [Hlen Hrows].
  unfold updateWeightsBatch. rewrite Hb. simpl (1 =? 1).
  unfold seen_of. rewrite Hseen. cbn [mbind result_bind].
  rewrite Hshape, Hlen. cbn [snd].
  apply forallb_lt in Hall as Hallb. rewrite Hallb.
  apply Nat.ltb_lt in Hi as Hib. apply Nat.ltb_lt in Hj as Hjb.
  rewrite Hib, Hjb. cbn [andb negb].
  subst S0 x_uij gradient. rewrite zip_with_map_same.
  set (S0 := Smat self) in *.
  set (gradient := (1 / (1 + np_exp _))%Q).
  eexists. split; [reflexivity|].
  assert (has_shape n n S0) as HS by (split; assumption).
  pose proof (add_at_shape n n S0 i seen (learning_rate self * gradient)%Q HS) as H1.
  pose proof (zero_diag_shape n n _ [i] H1) as H2.
  pose proof (add_at_shape n n _ j seen (- (learning_rate self * gradient))%Q H2) as H3.
  pose proof (zero_diag_shape n n _ [j] H3) as H4.
  split; [exact H4|].
  intros r c Hr Hc.
  rewrite entry_zero_diag.
  rewrite entry_add_at;
    [| destruct H2 as [-> _]; exact Hr | now rewrite (has_shape_row n n _ r H2 Hr)].
  rewrite entry_zero_diag.
  rewrite entry_add_at;
    [| now rewrite Hlen | now rewrite (has_shape_row n n _ r HS Hr)].
  unfold member; simpl existsb.
  repeat match goal with
         | |- context [decide (?a = ?b)] => destruct (decide (a = b)); subst
         | |- context [?a =? ?b] => destruct (Nat.eqb_spec a b); subst
         end; simpl; try reflexivity; try congruence.
Qed.

(** C1: [updateWeightsBatch] with [batch_size = 1] on a sampled triple
    ([i] seen by [u], [j] not seen).  With [x_uij] the sum over the seen
    items of [S[i, item] - S[j, item]] on the matrix before the call and
    [gradient = 1 / (1 + exp x_uij)], the call returns, and afterwards
    [S[i, item]] has gained [learning_rate * gradient] and [S[j, item]]
    has lost it for every seen item, [S[i, i]] and [S[j, j]] are zero, and
    every other entry is as before. *)
Theorem updateWeightsBatch_single (self : SLIM_BPR_Python) (n u i j : nat)
    (seen : list nat) :
  batch_size self = 1 ->
  has_shape n n (Smat self) ->
  userSeenItems self !! u = Some seen ->
  Forall (fun c => c < n) seen ->
  In i seen -> ~ In j seen -> j < n ->
  let S0 := Smat self in
  let x_uij := np_sum (map (fun item => entry S0 i item - entry S0 j item)%Q seen) in
  let gradient := (1 / (1 + np_exp x_uij))%Q in
  exists S',
    updateWeightsBatch np_exp self [u] [i] [j] = Ok (set_Smat self S') /\
    has_shape n n S' /\
    (forall item, In item seen -> item <> i ->
       entry S' i item = (entry S0 i item + learning_rate self * gradient)%Q) /\
    (forall item, In item seen ->
       entry S' j item = (entry S0 j item - learning_rate self * gradient)%Q) /\
    entry S' i i = 0%Q /\
    entry S' j j = 0%Q /\
    (forall r c, r < n -> c < n ->
       ~ (r = i /\ (In c seen \/ c = i)) ->
       ~ (r = j /\ (In c seen \/ c = j)) ->
       entry S' r c = entry S0 r c).
Proof.
  intros Hb HS Hseen Hall Hi Hj Hjn S0 x_uij gradient.
  assert (i < n) as Hin by (rewrite List.Forall_forall in Hall; now apply Hall).
  assert (i <> j) as Hij by (intros ->; contradiction).
  destruct (updateWeightsBatch_single_table self n u i j seen Hb HS Hseen Hall Hin Hjn Hij)
    as (S' & Hrun & Hshape & Htab).
  fold S0 in Htab. fold x_uij in Htab. fold gradient in Htab.
  exists S'. split; [exact Hrun|]. split; [exact Hshape|].
  rewrite List.Forall_forall in Hall.
  repeat split.
  - intros item Hitem Hne. rewrite Htab by auto.
    destruct (decide (i = i)); [|congruence].
    destruct (decide (item = i)); [congruence|].
    apply member_In in Hitem. now rewrite Hitem.
  - intros item Hitem. rewrite Htab by auto.
    destruct (decide (j = i)); [congruence|].
    destruct (decide (j = j)); [|congruence].
    destruct (decide (item = j)) as [->|_]; [contradiction|].
    apply member_In in Hitem. now rewrite Hitem.
  - rewrite Htab by auto.
    destruct (decide (i = i)); [reflexivity|congruence].
  - rewrite Htab by auto.
    destruct (decide (j = i)); [congruence|].
    destruct (decide (j = j)); [reflexivity|congruence].
  - intros r c Hr Hc Hni Hnj. rewrite Htab by auto.
    destruct (decide (r = i)) as [->|_].
    + destruct (decide (c = i)) as [->|_]; [exfalso; apply Hni; auto|].
      destruct (member c seen) eqn:Hm; [|reflexivity].
      apply member_In in Hm. exfalso; apply Hni; auto.
    + destruct (decide (r = j)) as [->|_]; [|reflexivity].
      destruct (decide (c = j)) as [->|_]; [exfalso; apply Hnj; auto|].
      destruct (member c seen) eqn:Hm; [|reflexivity].
      apply member_In in Hm. exfalso; apply Hnj; auto.
Qed.

End SingleUpdate.

(** ** The vectorised update *)

Lemma Qopp_opp_eq (x : Q) : (- - x)%Q = x.
Proof. destruct x as [a b]. unfold Qopp. simpl. now rewrite Z.opp_involutive. Qed.

Lemma nth_zip_minus (l1 l2 : list Q) (c : nat) :
  length l1 = length l2 ->
  nth c (zip_with Qminus l1 l2) 0%Q = (nth c l1 0 - nth c l2 0)%Q.
Proof.
  intros Hlen. destruct (Nat.lt_ge_cases c (length l1)) as [Hc|Hc].
  - apply nth_zip_with; lia.
  - rewrite !nth_overflow; try lia; [reflexivity|].
    rewrite length_zip_with. lia.
Qed.

Lemma filter_eqb_member (c : nat) (l : list nat) :
  (0 <? length (List.filter (Nat.eqb c) l)) = member c l.
Proof.
  unfold member. induction l as [|x l IH]; simpl; [reflexivity|].
  destruct (c =? x); simpl; [reflexivity | exact IH].
Qed.

Lemma any_positive_nth (n : nat) (rows : list (list nat)) (c : nat) :
  c < n -> nth c (any_positive n rows) false = existsb (member c) rows.
Proof.
  intros Hc. unfold any_positive.
  rewrite (nth_indep _ false ((fun c0 => 0 <? length (List.filter (Nat.eqb c0) (concat rows))) 0))
    by now rewrite length_map, length_seq.
  rewrite (map_nth (fun c0 => 0 <? length (List.filter (Nat.eqb c0) (concat rows)))).
  rewrite seq_nth by exact Hc. simpl.
  induction rows as [|r rows IH]; simpl; [reflexivity|].
  rewrite List.filter_app, length_app, <- IH, <- filter_eqb_member.
  destruct (length (List.filter (Nat.eqb c) r)); simpl; reflexivity.
Qed.

Lemma nth_map_opp (v : list Q) (c : nat) :
  nth c (map Qopp v) 0%Q = (- nth c v 0)%Q.
Proof. exact (map_nth Qopp v 0%Q c). Qed.

Lemma any_positive_length (n : nat) (rows : list (list nat)) :
  length (any_positive n rows) = n.
Proof. unfold any_positive. now rewrite length_map, length_seq. Qed.

Lemma existsb_map {A B} (f : A -> B) (p : B -> bool) (l : list A) :
  existsb p (map f l) = existsb (fun x => p (f x)) l.
Proof. induction l as [|x l IH]; simpl; [reflexivity | now rewrite IH]. Qed.

Section BatchUpdate.

Variable np_exp : Q -> Q.

Lemma sigmoid_neg (x : Q) : sigmoidFunction np_exp (- x) = (1 / (1 + np_exp x))%Q.
Proof. unfold sigmoidFunction. now rewrite Qopp_opp_eq. Qed.

(** The margins computed by the vectorised branch: entry [row] of
    [URM_mask[u, :].dot(x_uij.T).diagonal()] uses the mask row of
    [u[row]] and the difference of the rows [i[row]] and [j[row]] only. *)
Lemma batch_margins (S0 : dense) (mask : list (list nat)) (n : nat) (u i j : list nat) :
  has_shape n n S0 ->
  length i = length u -> length j = length u ->
  Forall (fun r => r < n) i -> Forall (fun r => r < n) j ->
  diagonal (mask_dot (map (fun user => nth user mask []) u)
              (zip_with (zip_with Qminus)
                 (map (fun r => nth r S0 []) i) (map (fun r => nth r S0 []) j)))
  = map (fun row =>
           np_sum (map (fun c => (entry S0 (nth row i 0%nat) c - entry S0 (nth row j 0%nat) c)%Q)
                       (nth (nth row u 0) mask [])))
        (seq 0 (length u)).
Proof.
  intros HS Hi Hj Hib Hjb.
  apply (nth_ext _ _ 0%Q 0%Q).
  - unfold diagonal, mask_dot. now rewrite length_imap, !length_map, length_seq.
  - unfold diagonal. rewrite length_imap. unfold mask_dot at 1. rewrite length_map.
    rewrite length_map. intros a Ha.
    rewrite (nth_imap _ _ _ []) by (unfold mask_dot; now rewrite !length_map).
    unfold mask_dot.
    rewrite (nth_indep _ [] ((fun mrow => map (fun xrow => np_sum (map (fun c => nth c xrow 0%Q) mrow))
               (zip_with (zip_with Qminus)
                 (map (fun r => nth r S0 []) i) (map (fun r => nth r S0 []) j))) []))
      by now rewrite !length_map.
    rewrite (map_nth (fun mrow => map (fun xrow => np_sum (map (fun c => nth c xrow 0%Q) mrow)) _)).
    rewrite (nth_indep (map (fun user => nth user mask []) u) [] ((fun user => nth user mask []) 0))
      by now rewrite length_map.
    rewrite (map_nth (fun user => nth user mask [])).
    set (mrow := nth (nth a u 0) mask []).
    assert (a < length (zip_with (zip_with Qminus)
                 (map (fun r => nth r S0 []) i) (map (fun r => nth r S0 []) j))) as Hlen
      by (rewrite length_zip_with, !length_map; lia).
    rewrite (nth_indep _ 0%Q ((fun xrow => np_sum (map (fun c => nth c xrow 0%Q) mrow)) []))
      by now rewrite length_map.
    rewrite (map_nth (fun xrow => np_sum (map (fun c => nth c xrow 0%Q) mrow))).
    rewrite (nth_indep (map _ (seq 0 (length u))) 0%Q
               ((fun row => np_sum (map (fun c => (entry S0 (nth row i 0%nat) c - entry S0 (nth row j 0%nat) c)%Q)
                       (nth (nth row u 0) mask []))) 0))
      by now rewrite length_map, length_seq.
    rewrite (map_nth (fun row => np_sum (map (fun c => (entry S0 (nth row i 0%nat) c - entry S0 (nth row j 0%nat) c)%Q)
                       (nth (nth row u 0) mask [])))).
    rewrite seq_nth by exact Ha. simpl. fold mrow.
    f_equal. apply map_ext. intros c.
    rewrite (nth_zip_with _ _ _ _ [] []) by (rewrite length_map; lia).
    rewrite (nth_indep (map _ i) [] ((fun r => nth r S0 []) 0)) by (rewrite length_map; lia).
    rewrite (nth_indep (map _ j) [] ((fun r => nth r S0 []) 0)) by (rewrite length_map; lia).
    rewrite !(map_nth (fun r => nth r S0 [])).
    rewrite nth_zip_minus; [reflexivity|].
    rewrite List.Forall_forall in Hib, Hjb.
    rewrite (has_shape_row n n S0 (nth a i 0)), (has_shape_row n n S0 (nth a j 0)); auto.
    + apply Hjb, nth_In; lia.
    + apply Hib, nth_In; lia.
Qed.

(** C2: [updateWeightsBatch] with [batch_size > 1] on index-aligned arrays
    [u], [i], [j].  The margin of a row is the sum, over the positive-mask
    row of its own user, of [S[i[row]] - S[j[row]]]; the gradient is the
    single scalar mean of [sigmoid(- margin)]; [itemsToUpdate] is true at
    an item iff some batch user has it in the mask.  The call returns, and
    afterwards every row listed in [i] has gained and every row listed in
    [j] has lost [learning_rate * gradient * itemsToUpdate] (a row listed
    in both gains, then loses it), the diagonal entry of every listed row
    is zero, and the other rows are as before. *)
Theorem updateWeightsBatch_batch (self : SLIM_BPR_Python) (n : nat) (u i j : list nat) :
  1 < batch_size self ->
  length u = batch_size self ->
  length i = batch_size self ->
  length j = batch_size self ->
  has_shape n n (Smat self) ->
  n_items self = n ->
  Forall (fun r => r < n) i -> Forall (fun r => r < n) j ->
  Forall (fun user => user < n_users self) u ->
  let S0 := Smat self in
  let mask := fun user => nth user (URM_mask self) [] in
  let x_uij := fun row =>
    np_sum (map (fun c => (entry S0 (nth row i 0%nat) c - entry S0 (nth row j 0%nat) c)%Q)
                (mask (nth row u 0))) in
  let gradient :=
    (np_sum (map (fun row => sigmoidFunction np_exp (- x_uij row))
                 (seq 0 (batch_size self)))
     / inject_Z (Z.of_nat (batch_size self)))%Q in
  let itemsToUpdate := fun c => existsb (fun user => member c (mask user)) u in
  let step := fun c => (learning_rate self * gradient * of_bool (itemsToUpdate c))%Q in
  exists S',
    updateWeightsBatch np_exp self u i j = Ok (set_Smat self S') /\
    has_shape n n S' /\
    forall r c, r < n -> c < n ->
      entry S' r c =
      if (r =? c) && (member r i || member r j) then 0%Q
      else if member r i then
             if member r j then (entry S0 r c + step c - step c)%Q
             else (entry S0 r c + step c)%Q
           else if member r j then (entry S0 r c - step c)%Q
                else entry S0 r c.
Proof.
  intros Hb Hu Hi Hj HS Hn Hib Hjb Hub. cbv zeta.
  pose proof HS as [Hlen Hrows].
  unfold updateWeightsBatch.
  destruct (batch_size self =? 1) eqn:Hb1; [apply Nat.eqb_eq in Hb1; lia|].
  rewrite Hlen.
  apply forallb_lt in Hib as Hib'. apply forallb_lt in Hjb as Hjb'.
  apply forallb_lt in Hub as Hub'. rewrite Hib', Hjb', Hub'. cbn [andb negb].
  rewrite (batch_margins (Smat self) (URM_mask self) n u i j HS)
    by (try assumption; congruence).
  rewrite Hu, List.map_map.
  erewrite (map_ext (fun x => (1 / (1 + np_exp _))%Q));
    [| intros row; rewrite <- sigmoid_neg; reflexivity].
  set (gradient := (np_sum _ / inject_Z _)%Q).
  rewrite Hn.
  set (S0 := Smat self) in *.
  set (step := fun c => (learning_rate self * gradient
                 * of_bool (existsb (fun user => member c (nth user (URM_mask self) [])) u))%Q).
  set (stepv := map (fun b => (learning_rate self * gradient * of_bool b)%Q)
                    (any_positive n (map (fun user => nth user (URM_mask self) []) u))).
  assert (length stepv = n) as Hstepv
    by (unfold stepv; now rewrite length_map, any_positive_length).
  assert (forall c, c < n -> nth c stepv 0%Q = step c) as Hstep.
  { intros c Hc. unfold stepv.
    rewrite (nth_indep _ 0%Q ((fun b => (learning_rate self * gradient * of_bool b)%Q) false))
      by now rewrite length_map, any_positive_length.
    rewrite (map_nth (fun b => (learning_rate self * gradient * of_bool b)%Q)).
    rewrite any_positive_nth by exact Hc. now rewrite existsb_map. }
  eexists. split; [reflexivity|].
  pose proof (add_rows_shape n n S0 i stepv Hstepv HS) as H1.
  pose proof (zero_diag_shape n n _ i H1) as H2.
  assert (length (map Qopp stepv) = n) as Hopp by now rewrite length_map.
  pose proof (add_rows_shape n n _ j (map Qopp stepv) Hopp H2) as H3.
  pose proof (zero_diag_shape n n _ j H3) as H4.
  split; [exact H4|].
  intros r c Hr Hc.
  rewrite entry_zero_diag.
  rewrite entry_add_rows;
    [| destruct H2 as [-> _]; exact Hr
     | now rewrite (has_shape_row n n _ r H2 Hr)
     | now rewrite Hopp].
  rewrite entry_zero_diag.
  rewrite entry_add_rows;
    [| now rewrite Hlen | now rewrite (has_shape_row n n _ r HS Hr) | now rewrite Hstepv].
  rewrite nth_map_opp.
  rewrite (Hstep c Hc).
  destruct (r =? c), (member r i), (member r j); reflexivity.
Qed.

End BatchUpdate.

(** ** Scores and ranking *)

Lemma score_leb_total (x y : score) : score_leb x y = true \/ score_leb y x = true.
Proof.
  destruct x as [|a], y as [|b]; simpl; auto.
  destruct (Qle_bool a b) eqn:E; [now left|right].
  apply Qle_bool_iff. apply Qlt_le_weak. apply Qnot_le_lt.
  intros H. apply Qle_bool_iff in H. congruence.
Qed.

Lemma score_leb_trans (x y z : score) :
  score_leb x y = true -> score_leb y z = true -> score_leb x z = true.
Proof.
  destruct x as [|a], y as [|b], z as [|c]; simpl; auto; try discriminate.
  rewrite !Qle_bool_iff. apply Qle_trans.
Qed.

(** [scores[user_profile] = -np.inf], read back. *)
Lemma nth_filter_seen (profile : list nat) (scores : list score) (x : nat) (d : score) :
  x < length scores ->
  nth x (fold_left (fun sc c => <[c := NegInf]> sc) profile scores) d =
  if member x profile then NegInf else nth x scores d.
Proof.
  revert scores. induction profile as [|c profile IH]; intros scores Hx; [reflexivity|].
  simpl fold_left. rewrite IH by now rewrite length_insert.
  unfold member. simpl existsb. fold (member x profile).
  destruct (member x profile); [now rewrite orb_true_r|].
  rewrite orb_false_r, nth_insert.
  destruct (Nat.eqb_spec x c) as [->|Hne].
  - destruct (decide (c = c /\ c < length scores)) as [_|Hn]; [reflexivity|].
    exfalso; apply Hn; auto.
  - destruct (decide (c = x /\ c < length scores)) as [[-> _]|_]; [congruence|reflexivity].
Qed.

Lemma length_filter_seen (profile : list nat) (scores : list score) :
  length (fold_left (fun sc c => <[c := NegInf]> sc) profile scores) = length scores.
Proof.
  revert scores. induction profile as [|c profile IH]; intros scores; [reflexivity|].
  simpl. now rewrite IH, length_insert.
Qed.


Section Ranking.

Variable np_argsort : forall A : Type, (A -> A -> bool) -> list A -> list nat.
Hypothesis np_argsort_ok : argsort_spec np_argsort.


End Ranking.

(** ** Counting along a sorted permutation *)

Lemma Qle_bool_total (x y : Q) : Qle_bool x y = true \/ Qle_bool y x = true.
Proof.
  destruct (Qle_bool x y) eqn:E; [now left|right].
  apply Qle_bool_iff, Qlt_le_weak, Qnot_le_lt.
  intros H. apply Qle_bool_iff in H. congruence.
Qed.

Lemma Qle_bool_trans (x y z : Q) :
  Qle_bool x y = true -> Qle_bool y z = true -> Qle_bool x z = true.
Proof. rewrite !Qle_bool_iff. apply Qle_trans. Qed.













Section Column.

(** A column [col], the positions [idx] that [np.argsort] returns for it,
    and the number [keep] of positions kept at the top. *)
Variable col : list Q.
Variable idx : list nat.
Variable keep : nat.
Hypothesis idx_perm : Permutation idx (seq 0 (length col)).
Hypothesis idx_sorted :
  StronglySorted (fun a b => Qle_bool (nth a col 0%Q) (nth b col 0%Q) = true) idx.
Hypothesis keep_le : keep <= length col.

Lemma idx_length : length idx = length col.
Proof. now rewrite (Permutation_length idx_perm), length_seq. Qed.








End Column.

(** ** Compressed layout *)

Lemma offsets_map {A B} (f : A -> B) (from : nat) (sls : list (list A)) :
  offsets from (map (map f) sls) = offsets from sls.
Proof.
  revert from. induction sls as [|sl sls IH]; intros from; simpl; [reflexivity|].
  now rewrite length_map, IH.
Qed.

Lemma offsets_head {A} (from : nat) (sls : list (list A)) :
  nth 0 (offsets from sls) 0 = from.
Proof. destruct sls; reflexivity. Qed.

Lemma offsets_length {A} (from : nat) (sls : list (list A)) :
  length (offsets from sls) = S (length sls).
Proof.
  revert from. induction sls as [|sl sls IH]; intros from; simpl; [reflexivity|].
  now rewrite IH.
Qed.

Lemma slice_concat_offsets {A} (sls : list (list A)) :
  forall (pre : list A) (m : nat), m < length sls ->
  slice (pre ++ concat sls)
        (nth m (offsets (length pre) sls) 0)
        (nth (m + 1) (offsets (length pre) sls) 0)
  = nth m sls [].
Proof.
  induction sls as [|sl sls IH]; intros pre m Hm; simpl in Hm; [lia|].
  destruct m as [|m].
  - simpl. rewrite offsets_head. unfold slice.
    rewrite app_assoc, <- length_app, take_app_length, drop_app_length. reflexivity.
  - simpl. specialize (IH (pre ++ sl) m ltac:(lia)).
    rewrite length_app, <- app_assoc in IH. exact IH.
Qed.

Lemma combine_fst_snd {A B} (l : list (A * B)) : combine (map fst l) (map snd l) = l.
Proof. induction l as [|[a b] l IH]; simpl; [reflexivity | now rewrite IH]. Qed.

Lemma major_slice_compress (sls : list (list (nat * Q))) (m : nat) :
  m < length sls -> major_slice (compress sls) m = nth m sls [].
Proof.
  intros Hm. unfold major_slice, compress. simpl.
  pose proof (slice_concat_offsets (map (map fst) sls) [] m) as H1.
  pose proof (slice_concat_offsets (map (map snd) sls) [] m) as H2.
  simpl in H1, H2. rewrite offsets_map in H1. rewrite offsets_map in H2.
  rewrite H1, H2 by now rewrite length_map.
  rewrite (nth_indep _ [] (map (@fst nat Q) [])) by now rewrite length_map.
  rewrite (map_nth (map (@fst nat Q))).
  rewrite (nth_indep (map (map snd) sls) [] (map (@snd nat Q) [])) by now rewrite length_map.
  rewrite (map_nth (map (@snd nat Q))).
  apply combine_fst_snd.
Qed.

(** Reading [sps.csr_matrix(W)] gives the entries of [W]. *)
Lemma slice_get_nonzero_entries (col : list Q) :
  forall (s t : nat),
  slice_get (List.filter (fun p => nonzero (snd p)) (combine (seq s (length col)) col)) t
  = if (s <=? t) && (t <? s + length col) && nonzero (nth (t - s) col 0%Q)
    then nth (t - s) col 0%Q else 0%Q.
Proof.
  induction col as [|x col IH]; intros s t.
  - assert (nth (t - s) [] 0%Q = 0%Q) as -> by now destruct (t - s).
    now destruct (_ && _).
  - simpl length. simpl seq. simpl combine. simpl List.filter.
    destruct (Nat.eq_dec s t) as [->|Hne].
    + rewrite Nat.leb_refl, Nat.sub_diag. simpl nth.
      assert ((t <? t + S (length col)) = true) as -> by (apply Nat.ltb_lt; lia).
      simpl andb. destruct (nonzero x) eqn:Hx.
      * unfold slice_get. simpl. now rewrite Nat.eqb_refl.
      * rewrite IH. assert ((S t <=? t) = false) as -> by (apply Nat.leb_gt; lia).
        reflexivity.
    + assert (slice_get (List.filter (fun p => nonzero (snd p)) (combine (seq (S s) (length col)) col)) t
              = if (s <=? t) && (t <? s + S (length col)) && nonzero (nth (t - s) (x :: col) 0%Q)
                then nth (t - s) (x :: col) 0%Q else 0%Q) as Hrest.
      { rewrite IH. destruct (Nat.lt_ge_cases t s) as [Hlt|Hge].
        - assert ((S s <=? t) = false) as -> by (apply Nat.leb_gt; lia).
          assert ((s <=? t) = false) as -> by (apply Nat.leb_gt; lia). reflexivity.
        - assert ((S s <=? t) = true) as -> by (apply Nat.leb_le; lia).
          assert ((s <=? t) = true) as -> by (apply Nat.leb_le; lia).
          replace (t - s) with (S (t - S s)) by lia. simpl nth.
          replace (S s + length col) with (s + S (length col)) by lia. reflexivity. }
      destruct (nonzero x); [|exact Hrest].
      unfold slice_get. simpl find.
      assert ((s =? t) = false) as -> by now apply Nat.eqb_neq.
      exact Hrest.
Qed.

Lemma column_length (M : dense) (c : nat) : length (column M c) = length M.
Proof. unfold column. apply length_map. Qed.

Lemma mentry_sparse_of_dense (n : nat) (W : dense) (shp : nat * nat) (r c : nat) :
  r < length W -> c < n ->
  mentry (Sparse shp (sparse_of_dense n W)) r c
  = if nonzero (entry W r c) then entry W r c else 0%Q.
Proof.
  intros Hr Hc. simpl. unfold sparse_of_dense.
  rewrite major_slice_compress by now rewrite length_map, length_seq.
  rewrite (nth_indep _ [] ((fun c0 => List.filter (fun p => nonzero (snd p))
             (combine (seq 0 (length W)) (column W c0))) 0))
    by now rewrite length_map, length_seq.
  rewrite (map_nth (fun c0 => List.filter (fun p => nonzero (snd p))
             (combine (seq 0 (length W)) (column W c0)))).
  rewrite seq_nth by exact Hc. simpl.
  rewrite <- (column_length W c) at 1. rewrite slice_get_nonzero_entries.
  rewrite column_length, Nat.sub_0_r, nth_column. simpl.
  assert ((r <? length W) = true) as -> by now apply Nat.ltb_lt.
  reflexivity.
Qed.


(** ** The cells zeroed by the dense path *)



(** ** Top-K selection, dense path *)

Lemma slice_bound_neg (len : nat) (k : Z) :
  (1 <= k)%Z -> slice_bound len (- k) = len - Z.to_nat k.
Proof.
  intros Hk. unfold slice_bound.
  destruct (- k <? 0)%Z eqn:E; [|apply Z.ltb_ge in E; lia]. lia.
Qed.



Section DensePath.

Variable np_argsort : forall A : Type, (A -> A -> bool) -> list A -> list nat.
Hypothesis np_argsort_ok : argsort_spec np_argsort.


End DensePath.

(** ** Reading a canonical slice *)

Lemma slice_get_cons (r0 : nat) (v0 : Q) (e : list (nat * Q)) (r : nat) :
  slice_get ((r0, v0) :: e) r = if r0 =? r then v0 else slice_get e r.
Proof. unfold slice_get. simpl. now destruct (r0 =? r). Qed.

Lemma slice_get_notin (e : list (nat * Q)) (r : nat) :
  ~ In r (map fst e) -> slice_get e r = 0%Q.
Proof.
  induction e as [|[r0 v0] e IH]; intros Hin; [reflexivity|].
  rewrite slice_get_cons. simpl in Hin.
  destruct (Nat.eqb_spec r0 r) as [->|_]; [exfalso; auto|].
  apply IH. auto.
Qed.

Lemma slice_get_in (e : list (nat * Q)) (r : nat) (v : Q) :
  List.NoDup (map fst e) -> In (r, v) e -> slice_get e r = v.
Proof.
  induction e as [|[r0 v0] e IH]; intros Hnd Hin; [destruct Hin|].
  rewrite slice_get_cons. simpl in Hnd. inversion Hnd as [|? ? Hr0 Hnd']; subst.
  destruct Hin as [Heq|Hin].
  - inversion Heq; subst. now rewrite Nat.eqb_refl.
  - destruct (Nat.eqb_spec r0 r) as [->|_]; [|now apply IH].
    exfalso. apply Hr0. apply in_map_iff. now exists (r, v).
Qed.


Lemma mask_select_pairs (ix : list nat) (d : list Q) :
  length ix = length d ->
  mask_select (map nonzero d) d
  = map snd (List.filter (fun q => nonzero (snd q)) (combine ix d)) /\
  mask_select (map nonzero d) ix
  = map fst (List.filter (fun q => nonzero (snd q)) (combine ix d)).
Proof.
  revert ix. induction d as [|x d IH]; intros [|i ix] Hlen; try discriminate.
  - now split.
  - simpl in Hlen. destruct (IH ix ltac:(lia)) as [H1 H2].
    unfold mask_select in *. simpl. destruct (nonzero x); simpl; now rewrite H1, H2.
Qed.

Lemma slice_length_eq {A B} (l1 : list A) (l2 : list B) (a b : nat) :
  length l1 = length l2 -> length (slice l1 a b) = length (slice l2 a b).
Proof. intros H. unfold slice. rewrite !length_drop, !length_take. lia. Qed.

Lemma NoDup_map_fst_filter {A B} (p : A * B -> bool) (e : list (A * B)) :
  List.NoDup (map fst e) -> List.NoDup (map fst (List.filter p e)).
Proof.
  induction e as [|x e IH]; intros Hnd; [constructor|].
  simpl in *. inversion Hnd as [|? ? Hx Hnd']; subst.
  destruct (p x); [|now apply IH]. simpl. constructor; [|now apply IH].
  intros Hin. apply Hx. apply in_map_iff in Hin as (y & Hy & Hin).
  apply filter_In in Hin as [Hin _]. apply in_map_iff. now exists y.
Qed.

Lemma NoDup_take_idx {A} (l : list A) (ps : list nat) (d : A) :
  List.NoDup l -> List.NoDup ps -> Forall (fun q => q < length l) ps ->
  List.NoDup (map (fun q => nth q l d) ps).
Proof.
  intros Hl Hps Hlt. apply NoDup_map_NoDup_ForallPairs; [|exact Hps].
  intros x y Hx Hy Heq. rewrite List.Forall_forall in Hlt.
  apply (proj1 (NoDup_nth l d) Hl); auto.
Qed.

Lemma take_idx_pairs {A B} (l : list (A * B)) (ps : list nat) (da : A) (db : B) :
  combine (take_idx da (map fst l) ps) (take_idx db (map snd l) ps)
  = map (fun q => nth q l (da, db)) ps.
Proof.
  unfold take_idx. induction ps as [|q ps IH]; simpl; [reflexivity|].
  rewrite IH. f_equal.
  pose proof (map_nth fst l (da, db) q) as H1.
  pose proof (map_nth snd l (da, db) q) as H2. simpl in H1, H2.
  rewrite H1, H2. now destruct (nth q l (da, db)).
Qed.

(** ** The loop of the sparse path *)

Section SparseLoop.

Variable np_argsort : forall A : Type, (A -> A -> bool) -> list A -> list nat.
Hypothesis np_argsort_ok : argsort_spec np_argsort.

(** What [topK_column] appends for column [c]. *)
Lemma topK_loop (A : compressed) (k : Z) (cs : list nat) :
  forall (d0 : list Q) (r0 p0 : list nat),
  exists vals rows,
    length vals = length cs /\ length rows = length cs /\
    (forall m, m < length cs ->
       let c := nth m cs 0 in
       let column_data := slice (data A) (nth c (indptr A) 0) (nth (c + 1) (indptr A) 0) in
       let column_row_index :=
         slice (indices A) (nth c (indptr A) 0) (nth (c + 1) (indptr A) 0) in
       let non_zero_data := map nonzero column_data in
       let top_k_idx :=
         slice_from (np_argsort Q Qle_bool (mask_select non_zero_data column_data)) (- k) in
       nth m vals [] = take_idx 0%Q (mask_select non_zero_data column_data) top_k_idx /\
       nth m rows [] = take_idx 0 (mask_select non_zero_data column_row_index) top_k_idx) /\
    let '(d, r, p) := fold_left (topK_column np_argsort A k) cs (d0, r0, p0) in
    d = d0 ++ concat vals /\ r = r0 ++ concat rows /\
    p ++ [length d] = p0 ++ offsets (length d0) vals.
Proof.
  induction cs as [|c cs IH]; intros d0 r0 p0.
  - exists [], []. simpl. repeat split; try (intros; lia); now rewrite ?app_nil_r.
  - set (column_data := slice (data A) (nth c (indptr A) 0) (nth (c + 1) (indptr A) 0)).
    set (column_row_index := slice (indices A) (nth c (indptr A) 0) (nth (c + 1) (indptr A) 0)).
    set (top_k_idx := slice_from (np_argsort Q Qle_bool
                        (mask_select (map nonzero column_data) column_data)) (- k)).
    set (vc := take_idx 0%Q (mask_select (map nonzero column_data) column_data) top_k_idx).
    set (rc := take_idx 0 (mask_select (map nonzero column_data) column_row_index) top_k_idx).
    assert (topK_column np_argsort A k (d0, r0, p0) c
            = (d0 ++ vc, r0 ++ rc, p0 ++ [length d0])) as Hstep by reflexivity.
    cbn [fold_left]. rewrite Hstep.
    destruct (IH (d0 ++ vc) (r0 ++ rc) (p0 ++ [length d0])) as (vals & rows & Hv & Hr & Hnth & Hfold).
    exists (vc :: vals), (rc :: rows).
    split; [simpl; lia|]. split; [simpl; lia|]. split.
    + intros [|m] Hm; simpl in Hm.
      * simpl. split; reflexivity.
      * apply Hnth. lia.
    + destruct (fold_left _ cs _) as [[d r] p]. destruct Hfold as (Hd & Hr' & Hp).
      subst d r. simpl concat. simpl offsets.
      split; [now rewrite <- app_assoc|]. split; [now rewrite <- app_assoc|].
      rewrite Hp, <- app_assoc, length_app. reflexivity.
Qed.

End SparseLoop.

(** ** Top-K selection, sparse path *)




Section SparseColumn.

Variable np_argsort : forall A : Type, (A -> A -> bool) -> list A -> list nat.
Hypothesis np_argsort_ok : argsort_spec np_argsort.


End SparseColumn.

Lemma offsets_same_lengths {A B} (l1 : list (list A)) :
  forall (l2 : list (list B)) (from : nat),
  length l1 = length l2 ->
  (forall m, m < length l1 -> length (nth m l1 []) = length (nth m l2 [])) ->
  offsets from l1 = offsets from l2.
Proof.
  induction l1 as [|x l1 IH]; intros [|y l2] from Hlen Hnth; try discriminate.
  - reflexivity.
  - pose proof (Hnth 0 ltac:(simpl; lia)) as H0. simpl in H0.
    simpl. rewrite H0. f_equal.
    apply IH; [simpl in Hlen; lia|].
    intros m Hm. apply (Hnth (S m)). simpl. lia.
Qed.

Lemma major_slice_arrays (vals : list (list Q)) (rows : list (list nat)) (m : nat) :
  length rows = length vals ->
  (forall i, i < length vals -> length (nth i vals []) = length (nth i rows [])) ->
  m < length vals ->
  major_slice {| indptr := offsets 0 vals; indices := concat rows; data := concat vals |} m
  = combine (nth m rows []) (nth m vals []).
Proof.
  intros Hlen Hnth Hm. unfold major_slice. simpl.
  pose proof (slice_concat_offsets vals [] m Hm) as H1. simpl in H1. rewrite H1.
  rewrite (offsets_same_lengths vals rows 0) by (auto; lia).
  pose proof (slice_concat_offsets rows [] m ltac:(lia)) as H2. simpl in H2.
  now rewrite H2.
Qed.

Section TopK.

Variable np_argsort : forall A : Type, (A -> A -> bool) -> list A -> list nat.
Hypothesis np_argsort_ok : argsort_spec np_argsort.


End TopK.

(** ** The insertion argsort meets [argsort_spec] *)

Lemma insert_by_perm {A} (leb : A -> A -> bool) (x : nat * A) (l : list (nat * A)) :
  Permutation (insert_by leb x l) (x :: l).
Proof.
  induction l as [|y l IH]; simpl; [reflexivity|].
  destruct (leb (snd x) (snd y)); [reflexivity|].
  rewrite IH. apply perm_swap.
Qed.

Lemma insertion_perm {A} (leb : A -> A -> bool) (l : list (nat * A)) :
  Permutation (fold_right (insert_by leb) [] l) l.
Proof.
  induction l as [|x l IH]; simpl; [reflexivity|].
  rewrite insert_by_perm. now constructor.
Qed.

Lemma insert_by_sorted {A} (leb : A -> A -> bool) (x : nat * A) (l : list (nat * A)) :
  (forall a b, leb a b = true \/ leb b a = true) ->
  (forall a b c, leb a b = true -> leb b c = true -> leb a c = true) ->
  StronglySorted (fun p q => leb (snd p) (snd q) = true) l ->
  StronglySorted (fun p q => leb (snd p) (snd q) = true) (insert_by leb x l).
Proof.
  intros Htot Htrans. induction 1 as [|y l Hs IH Hy]; simpl.
  - constructor; constructor.
  - destruct (leb (snd x) (snd y)) eqn:E.
    + constructor; [now constructor|]. constructor; [exact E|].
      rewrite List.Forall_forall in *. intros z Hz. eapply Htrans; [exact E|]. now apply Hy.
    + constructor; [exact IH|].
      rewrite List.Forall_forall in *. intros z Hz.
      apply (Permutation_in _ (insert_by_perm leb x l)) in Hz as [<-|Hz].
      * destruct (Htot (snd x) (snd y)); congruence.
      * now apply Hy.
Qed.

Lemma insertion_sorted {A} (leb : A -> A -> bool) (l : list (nat * A)) :
  (forall a b, leb a b = true \/ leb b a = true) ->
  (forall a b c, leb a b = true -> leb b c = true -> leb a c = true) ->
  StronglySorted (fun p q => leb (snd p) (snd q) = true) (fold_right (insert_by leb) [] l).
Proof.
  intros Htot Htrans. induction l as [|x l IH]; simpl; [constructor|].
  now apply insert_by_sorted.
Qed.

Lemma in_combine_seq {A} (l : list A) (d : A) :
  forall (s i : nat) (x : A),
  In (i, x) (combine (seq s (length l)) l) -> s <= i /\ x = nth (i - s) l d.
Proof.
  induction l as [|y l IH]; intros s i x Hin; [destruct Hin|].
  simpl in Hin. destruct Hin as [Heq|Hin].
  - inversion Heq; subst. rewrite Nat.sub_diag. split; [lia|reflexivity].
  - apply IH in Hin as [Hle ->]. split; [lia|].
    replace (i - s) with (S (i - S s)) by lia. reflexivity.
Qed.

Lemma map_fst_combine_seq {A} (l : list A) (s : nat) :
  map fst (combine (seq s (length l)) l) = seq s (length l).
Proof.
  revert s. induction l as [|y l IH]; intros s; simpl; [reflexivity|]. now rewrite IH.
Qed.

Lemma sorted_map_fst {A} (leb : A -> A -> bool) (l : list A) (d : A) (ps : list (nat * A)) :
  Forall (fun p => snd p = nth (fst p) l d) ps ->
  StronglySorted (fun p q => leb (snd p) (snd q) = true) ps ->
  StronglySorted (fun a b => leb (nth a l d) (nth b l d) = true) (map fst ps).
Proof.
  intros Hall. induction 1 as [|p ps Hs IH Hp]; simpl; [constructor|].
  inversion Hall as [|? ? Hp0 Hall']; subst.
  constructor; [now apply IH|].
  rewrite List.Forall_forall in *. intros a Ha.
  apply in_map_iff in Ha as (q & <- & Hq).
  rewrite <- Hp0, <- (Hall' q Hq). now apply Hp.
Qed.

Lemma stable_argsort_ok : argsort_spec stable_argsort.
Proof.
  intros A leb d l Htot Htrans. unfold stable_argsort. split.
  - rewrite (Permutation_map fst (insertion_perm leb _)).
    now rewrite map_fst_combine_seq.
  - apply sorted_map_fst; [|now apply insertion_sorted].
    rewrite List.Forall_forall. intros [i x] Hin.
    apply (Permutation_in _ (insertion_perm leb _)) in Hin.
    apply (in_combine_seq l d) in Hin as [_ ->]. simpl. now rewrite Nat.sub_0_r.
Qed.

(** ** Fast-sampling index *)

Lemma URM_train_positive_In (self : SLIM_BPR_Python) (threshold : Q) (u c : nat) (v : Q) :
  In (c, v) (URM_train_positive self threshold u) <->
  In (c, v) (major_slice (URM_train self) u) /\ (threshold < v)%Q /\ ~ (v == 0)%Q.
Proof.
  unfold URM_train_positive. rewrite filter_In. simpl.
  rewrite andb_true_iff, negb_true_iff. unfold nonzero. rewrite negb_true_iff.
  split; intros (H1 & H2 & H3); (split; [exact H1|]); split.
  - apply Qnot_le_lt. intros H. apply Qle_bool_iff in H. congruence.
  - intros H. apply Qeq_bool_iff in H. congruence.
  - destruct (Qle_bool v threshold) eqn:E; [|reflexivity].
    apply Qle_bool_iff in E. exfalso. exact (Qlt_not_le _ _ H2 E).
  - destruct (Qeq_bool v 0) eqn:E; [|reflexivity].
    apply Qeq_bool_iff in E. contradiction.
Qed.

Lemma positive_mask_row_In (URM : compressed) (threshold : Q) (u c : nat) :
  In c (positive_mask_row URM threshold u) <->
  exists v, In (c, v) (major_slice URM u) /\ (threshold <= v)%Q.
Proof.
  unfold positive_mask_row. rewrite in_map_iff. split.
  - intros ([c' v] & <- & Hin). apply filter_In in Hin as [Hin Hle].
    exists v. split; [exact Hin | now apply Qle_bool_iff].
  - intros (v & Hin & Hle). exists (c, v). split; [reflexivity|].
    apply filter_In. split; [exact Hin | now apply Qle_bool_iff].
Qed.

Lemma fast_sampling_fold (self : SLIM_BPR_Python) (threshold : Q) (us : list nat) :
  forall (acc : list nat * gmap nat (list nat)) (u : nat),
  snd (fold_left
         (fun (acc : list nat * gmap nat (list nat)) user_id =>
            let row := URM_train_positive self threshold user_id in
            if 0 <? length row
            then (fst acc ++ [user_id], <[user_id := map fst row]> (snd acc))
            else acc) us acc) !! u
  = if member u us && (0 <? length (URM_train_positive self threshold u))
    then Some (map fst (URM_train_positive self threshold u))
    else snd acc !! u.
Proof.
  induction us as [|x us IH]; intros acc u; [reflexivity|].
  simpl fold_left. rewrite IH. unfold member. simpl existsb. fold (member u us).
  destruct (member u us && (0 <? length (URM_train_positive self threshold u))) eqn:E.
  - apply andb_true_iff in E as [E1 E2]. now rewrite E1, E2, orb_true_r.
  - destruct (Nat.eqb_spec u x) as [->|Hne].
    + simpl orb. destruct (0 <? length (URM_train_positive self threshold x)) eqn:E'.
      * simpl. apply lookup_insert_eq.
      * now rewrite andb_false_r.
    + simpl orb. rewrite E.
      destruct (0 <? length (URM_train_positive self threshold x)); [|reflexivity].
      simpl. now apply lookup_insert_ne.
Qed.

(** What [initializeFastSampling] stores for a user: the items whose
    rating is greater than the threshold (and not zero), when there are
    any. *)
Lemma initializeFastSampling_seen (self : SLIM_BPR_Python) (threshold : Q) (u : nat) :
  u < n_users self ->
  userSeenItems (initializeFastSampling self threshold) !! u
  = if 0 <? length (URM_train_positive self threshold u)
    then Some (map fst (URM_train_positive self threshold u))
    else None.
Proof.
  intros Hu. unfold initializeFastSampling.
  pose proof (fast_sampling_fold self threshold (seq 0 (n_users self)) ([], ∅) u) as H.
  destruct (fold_left _ _ _) as [eligible seen]. simpl in *. rewrite H.
  assert (member u (seq 0 (n_users self)) = true) as ->
    by (apply member_In, in_seq; lia).
  simpl. now destruct (0 <? _).
Qed.

(** C6: the fast-sampling index does not agree with the positive mask.
    With one user whose only rating is 3 and [positive_threshold = 3], the
    mask row of the user holds item 0 (3 >= 3), but
    [initializeFastSampling] compares with [>]: the user gets no entry in
    [userSeenItems] and is not in [eligibleUsers]. *)
Theorem fast_sampling_skips_threshold_rating :
  let self := initializeFastSampling (init URM_threshold (1, 2) 3) 3 in
  URM_mask self = [[0]] /\
  userSeenItems self !! 0 = None /\
  eligibleUsers self = [].
Proof. vm_compute. repeat split. Qed.

(** ** The guard on topK *)

Lemma topK_guard (v : pyval) :
  py_ne_False v && py_lt_1 v = true <-> (as_int v < 0)%Z.
Proof.
  unfold py_ne_False, py_lt_1.
  rewrite andb_true_iff, negb_true_iff, Z.eqb_neq, Z.ltb_lt. lia.
Qed.

Section Fit.

Variable np_exp : Q -> Q.
Variable np_argsort : forall A : Type, (A -> A -> bool) -> list A -> list nat.

(** [fit_alreadyInitialized] raises at entry exactly for the negative
    values of [topK]; [0] compares equal to [False] and passes. *)
Lemma fit_alreadyInitialized_guard (self : SLIM_BPR_Python) (epochs batch_size' : nat)
    (lambda_i' lambda_j' learning_rate' : Q) (topK' : pyval) (t : list nat) :
  ((as_int topK' < 0)%Z ->
   fit_alreadyInitialized np_exp np_argsort self epochs batch_size' lambda_i'
     lambda_j' learning_rate' topK' t = Raise ValueError) /\
  ((0 <= as_int topK')%Z ->
   fit_alreadyInitialized np_exp np_argsort self epochs batch_size' lambda_i'
     lambda_j' learning_rate' topK' t
   = run_epochs np_exp np_argsort (seq 0 epochs)
       (set_hyperparameters self batch_size' lambda_i' lambda_j' learning_rate' topK') t).
Proof.
  unfold fit_alreadyInitialized. split; intros H.
  - apply topK_guard in H. now rewrite H.
  - destruct (py_ne_False topK' && py_lt_1 topK') eqn:E; [|reflexivity].
    apply topK_guard in E. lia.
Qed.

(** With top-K disabled the export leaves [S] as it is. *)
Lemma updateSimilarityMatrix_disabled (self : SLIM_BPR_Python) :
  py_ne_False (topK self) = false ->
  exists self', updateSimilarityMatrix np_argsort self = Ok self' /\
                Smat self' = Smat self.
Proof.
  intros H. unfold updateSimilarityMatrix. rewrite H. eexists. split; reflexivity.
Qed.

(** With top-K configured the exported matrix is the top-K selection of
    [S.T], taken on [S] as it is before the call. *)
Lemma updateSimilarityMatrix_export (self self' : SLIM_BPR_Python) :
  py_ne_False (topK self) = true ->
  updateSimilarityMatrix np_argsort self = Ok self' ->
  exists out item_weights',
    similarityMatrixTopK np_argsort (Dense (transpose (Smat self))) true
      (as_int (topK self)) true = Ok (out, item_weights') /\
    W_sparse self' = Some out.
Proof.
  intros H. unfold updateSimilarityMatrix. rewrite H.
  destruct (similarityMatrixTopK _ _ _ _ _) as [[out w]|e]; [|discriminate].
  simpl. intros Heq; inversion Heq; subst. simpl. eauto.
Qed.

End Fit.

(** C8: [topK = 0] is not rejected.  [fit] with [topK = 0] raises no
    error: it stores [topK = 0] and trains ([S] changes), because the
    guard tests [topK != False] and [0 == False] in Python. *)
Theorem fit_accepts_topK_zero :
  exists self' t',
    fit exp_taylor2 stable_argsort (init URM_small (2, 3) 3) 2 1 0 0 (1 # 10)
        (PyInt 0) tape_small = Ok (self', t') /\
    topK self' = PyInt 0 /\
    Smat self' <> Smat (init URM_small (2, 3) 3).
Proof.
  vm_compute. eexists _, _. split; [reflexivity|]. split; [reflexivity|discriminate].
Qed.

(** C9: recomputing the exported similarity with top-K configured changes
    [S].  On a model with [S[0] = [0, 1, 2]] and [topK = 1],
    [updateSimilarityMatrix] returns and [S[0, 1]], which was 1, is 0
    afterwards: [similarityMatrixTopK] works in place on the view [S.T]. *)
Theorem updateSimilarityMatrix_truncates_S :
  exists self',
    updateSimilarityMatrix stable_argsort model_trained = Ok self' /\
    entry (Smat model_trained) 0 1 = 1%Q /\
    entry (Smat self') 0 1 = 0%Q.
Proof. vm_compute. eexists. repeat split. Qed.

(** ** The statements on concrete inputs *)

Lemma updateWeightsBatch_single_witness :
  batch_size (model_small 1 (PyBool false)) = 1 /\
  exists S',
    updateWeightsBatch exp_taylor2 (model_small 1 (PyBool false)) [0] [0] [1]
    = Ok (set_Smat (model_small 1 (PyBool false)) S') /\
    has_shape 3 3 S' /\ entry S' 0 0 = 0%Q /\ entry S' 1 1 = 0%Q.
Proof.
  split; [reflexivity|].
  destruct (updateWeightsBatch_single exp_taylor2 (model_small 1 (PyBool false))
              3 0 0 1 [0])
    as (S' & Hrun & Hshape & _ & _ & Hii & Hjj & _).
  - reflexivity.
  - split; [reflexivity | repeat constructor].
  - reflexivity.
  - repeat constructor.
  - simpl; auto.
  - simpl; intros [H|[]]; discriminate.
  - lia.
  - exists S'. auto.
Defined.

Lemma updateWeightsBatch_batch_witness :
  1 < batch_size (model_small 2 (PyBool false)) /\
  exists S',
    updateWeightsBatch exp_taylor2 (model_small 2 (PyBool false)) [0; 1] [0; 2] [1; 0]
    = Ok (set_Smat (model_small 2 (PyBool false)) S') /\
    has_shape 3 3 S' /\ entry S' 0 0 = 0%Q /\ entry S' 1 1 = 0%Q /\ entry S' 2 2 = 0%Q.
Proof.
  split; [simpl; lia|].
  destruct (updateWeightsBatch_batch exp_taylor2 (model_small 2 (PyBool false))
              3 [0; 1] [0; 2] [1; 0])
    as (S' & Hrun & Hshape & Htab).
  - simpl; lia.
  - reflexivity.
  - reflexivity.
  - reflexivity.
  - split; [reflexivity | repeat constructor].
  - reflexivity.
  - repeat constructor.
  - repeat constructor.
  - repeat constructor.
  - exists S'. split; [exact Hrun|]. split; [exact Hshape|].
    repeat split; rewrite Htab by lia; reflexivity.
Defined.

Lemma sampled_triples_valid_witness :
  (In 1 (map fst (major_slice (URM_train (model_small 2 (PyBool false))) 1)) /\
   ~ In 0 (map fst (major_slice (URM_train (model_small 2 (PyBool false))) 1)) /\
   0 < n_items (model_small 2 (PyBool false))) /\
  (In 0 (map fst (major_slice (URM_train (model_small 2 (PyBool false))) 0)) /\
   ~ In 1 (map fst (major_slice (URM_train (model_small 2 (PyBool false))) 0)) /\
   1 < n_items (model_small 2 (PyBool false))) /\
  (length [0; 0] = batch_size (model_small 2 (PyBool false)) /\
   forall k u p n,
     [0; 0] !! k = Some u -> [0; 0] !! k = Some p -> [1; 2] !! k = Some n ->
     exists seen, userSeenItems (model_small 2 (PyBool false)) !! u = Some seen /\
                  In p seen /\ ~ In n seen /\ n < n_items (model_small 2 (PyBool false))).
Proof.
  destruct (sampled_triples_valid (model_small 2 (PyBool false))) as (H1 & H2 & H3).
  split; [|split].
  - apply (H1 1 tape_small 1 0
             [1; 1; 0; 0; 0; 0; 2; 1; 1; 0; 0; 0; 1; 1; 1; 0; 2; 0; 1; 2; 0; 1]).
    vm_compute. reflexivity.
  - apply (H2 tape_small 0 0 1
             [1; 0; 0; 0; 0; 2; 1; 1; 0; 0; 0; 1; 1; 1; 0; 2; 0; 1; 2; 0; 1]).
    vm_compute. reflexivity.
  - destruct (H3 tape_small [0; 0] [0; 0] [1; 2]
                [1; 1; 0; 0; 0; 1; 1; 1; 0; 2; 0; 1; 2; 0; 1])
      as (Hu & _ & _ & Hall).
    + vm_compute. reflexivity.
    + split; [exact Hu | exact Hall].
Defined.

Lemma topK_zero_keeps_dense_witness :
  has_shape 2 2 M_positive /\
  similarityMatrixTopK stable_argsort (Dense M_positive) false 0 true
  = Ok (Dense M_positive, Dense M_positive).
Proof.
  assert (has_shape 2 2 M_positive) as H by (split; [reflexivity | repeat constructor]).
  split; [exact H|].
  exact (topK_zero_keeps_dense stable_argsort 2 M_positive true H).
Defined.




(** * Further properties of the code *)

(** ** similarityMatrixTopK: errors, shapes and what is kept *)

Lemma map_nth_seq_id {A} (l : list A) (d : A) :
  map (fun q => nth q l d) (seq 0 (length l)) = l.
Proof.
  apply (nth_ext _ _ d d).
  - now rewrite length_map, length_seq.
  - rewrite length_map, length_seq. intros r Hr.
    rewrite (nth_indep _ d ((fun q => nth q l d) 0)) by now rewrite length_map, length_seq.
    rewrite (map_nth (fun q => nth q l d)). now rewrite seq_nth.
Qed.

Lemma NoDup_drop_list {A} (m : nat) (l : list A) : List.NoDup l -> List.NoDup (drop m l).
Proof.
  intros H. rewrite <- (take_drop m l) in H. now apply NoDup_app_remove_l in H.
Qed.

Lemma in_drop_list {A} (m : nat) (l : list A) (x : A) : In x (drop m l) -> In x l.
Proof.
  intros H. rewrite <- (take_drop m l). apply in_or_app. now right.
Qed.

Lemma sorted_drop {A} (R : A -> A -> Prop) (m : nat) (l : list A) :
  StronglySorted R l -> StronglySorted R (drop m l).
Proof.
  intros H. revert m. induction H as [|x l Hs IH Hx]; intros [|m]; simpl;
    try constructor; auto.
Qed.

Section TopKMore.

Variable np_argsort : forall A : Type, (A -> A -> bool) -> list A -> list nat.
Hypothesis np_argsort_ok : argsort_spec np_argsort.

(** The sparse path, column by column: what the loop stores for column
    [c] is read off the non-zero stored entries of that column at the
    positions that the slice of the argsort selects. *)
Lemma topK_sparse_output (n : nat) (A : compressed) (k : Z)
    (forceSparseOutput inplace : bool) :
  length (indices A) = length (data A) ->
  exists A',
    similarityMatrixTopK np_argsort (Sparse (n, n) A) forceSparseOutput k inplace
    = Ok (Sparse (n, n) A', Sparse (n, n) A) /\
    forall c, c < n ->
      let nzs := List.filter (fun q => nonzero (snd q)) (major_slice A c) in
      major_slice A' c
      = map (fun q => nth q nzs (0, 0%Q))
            (slice_from (np_argsort Q Qle_bool (map snd nzs)) (- Z.min k (Z.of_nat n))).
Proof.
  intros Hlen. unfold similarityMatrixTopK. simpl mshape. cbn [fst snd].
  rewrite Nat.eqb_refl. cbn [negb]. unfold check_matrix.
  destruct (topK_loop np_argsort A (Z.min k (Z.of_nat n)) (seq 0 n) [] [] [])
    as (vals & rows & Hv & Hr & Hnth & Hfold).
  destruct (fold_left _ _ _) as [[d r] p]. destruct Hfold as (Hd & Hr' & Hp).
  simpl in Hd, Hr', Hp. subst d r. rewrite Hp. rewrite length_seq in Hv, Hr, Hnth.
  eexists. split; [reflexivity|].
  intros c Hc.
  pose proof Hnth as Hnth_all.
  specialize (Hnth c Hc). cbv zeta in Hnth. rewrite seq_nth in Hnth by exact Hc.
  simpl in Hnth.
  set (ix := slice (indices A) (nth c (indptr A) 0) (nth (c + 1) (indptr A) 0)) in *.
  set (dt := slice (data A) (nth c (indptr A) 0) (nth (c + 1) (indptr A) 0)) in *.
  assert (length ix = length dt) as Hixdt by now apply slice_length_eq.
  destruct (mask_select_pairs ix dt Hixdt) as [Hms1 Hms2].
  destruct Hnth as [Hvals Hrows]. rewrite Hms1 in Hvals, Hrows. rewrite Hms2 in Hrows.
  rewrite major_slice_arrays.
  - rewrite Hvals, Hrows, take_idx_pairs. reflexivity.
  - congruence.
  - intros i Hi. rewrite Hv in Hi.
    destruct (Hnth_all i Hi) as [Hv' Hr'']. rewrite Hv', Hr''.
    unfold take_idx. now rewrite !length_map.
  - lia.
Qed.

(** Facts on the positions kept for a column, for every [k]. *)
Lemma kept_positions (nzs : list (nat * Q)) (s : Z) :
  let idx := np_argsort Q Qle_bool (map snd nzs) in
  let top := slice_from idx s in
  List.NoDup top /\
  (forall q, In q top -> q < length nzs) /\
  StronglySorted (fun a b => Qle_bool (nth a (map snd nzs) 0%Q)
                                       (nth b (map snd nzs) 0%Q) = true) top.
Proof.
  intros idx top.
  destruct (np_argsort_ok Q Qle_bool 0%Q (map snd nzs) Qle_bool_total Qle_bool_trans)
    as [Hperm Hsorted]. fold idx in Hperm, Hsorted.
  unfold top, slice_from. split; [|split].
  - apply NoDup_drop_list, (Permutation_NoDup (Permutation_sym Hperm)), seq_NoDup.
  - intros q Hq. apply in_drop_list in Hq.
    apply (Permutation_in _ Hperm), in_seq in Hq. rewrite length_map in Hq. lia.
  - now apply sorted_drop.
Qed.

End TopKMore.

Lemma nonzero_false_eq (x : Q) : nonzero x = false -> (x == 0)%Q.
Proof.
  unfold nonzero. intros H. apply negb_false_iff in H. now apply Qeq_bool_iff.
Qed.

Lemma slice_bound_zero (len : nat) : slice_bound len 0 = 0.
Proof. unfold slice_bound. simpl. lia. Qed.

Lemma slice_get_nonzero_perm (l l' : list (nat * Q)) (r : nat) :
  List.NoDup (map fst l) ->
  Permutation l' (List.filter (fun q => nonzero (snd q)) l) ->
  (slice_get l' r == slice_get l r)%Q.
Proof.
  intros Hnd Hperm.
  assert (List.NoDup (map fst l')) as Hnd'.
  { eapply Permutation_NoDup; [symmetry; apply Permutation_map; exact Hperm|].
    now apply NoDup_map_fst_filter. }
  assert (forall v, In (r, v) l' <-> In (r, v) l /\ nonzero v = true) as Hin.
  { intros v. split.
    - intros H. apply (Permutation_in _ Hperm) in H. apply filter_In in H. exact H.
    - intros H. apply (Permutation_in _ (Permutation_sym Hperm)).
      apply filter_In. exact H. }
  destruct (in_dec Nat.eq_dec r (map fst l')) as [Hr|Hr].
  - apply in_map_iff in Hr as ([r0 v] & Heq & Hv). simpl in Heq. subst r0.
    rewrite (slice_get_in l' r v Hnd' Hv).
    apply Hin in Hv as [Hv _]. now rewrite (slice_get_in l r v Hnd Hv).
  - rewrite (slice_get_notin l' r Hr).
    destruct (in_dec Nat.eq_dec r (map fst l)) as [Hl|Hl].
    + apply in_map_iff in Hl as ([r0 v] & Heq & Hv). simpl in Heq. subst r0.
      rewrite (slice_get_in l r v Hnd Hv).
      destruct (nonzero v) eqn:E.
      * exfalso. apply Hr. apply in_map_iff. exists (r, v). split; [reflexivity|].
        apply Hin. auto.
      * symmetry. now apply nonzero_false_eq.
    + now rewrite (slice_get_notin l r Hl).
Qed.

Section TopKExtras.

Variable np_argsort : forall A : Type, (A -> A -> bool) -> list A -> list nat.
Hypothesis np_argsort_ok : argsort_spec np_argsort.

(** X1: [similarityMatrixTopK] raises [AssertionError] when the matrix is
    not square, whatever the other arguments; on a square matrix it
    returns for every [k] (zero and negative values included) and the
    matrix returned has the shape of the argument. *)
Theorem similarityMatrixTopK_square_check (M : matrix) (forceSparseOutput : bool)
    (k : Z) (inplace : bool) :
  (fst (mshape M) <> snd (mshape M) ->
   similarityMatrixTopK np_argsort M forceSparseOutput k inplace
   = Raise AssertionError) /\
  (forall n, square n M ->
   exists out item_weights',
     similarityMatrixTopK np_argsort M forceSparseOutput k inplace
     = Ok (out, item_weights') /\
     mshape out = (n, n) /\ mshape item_weights' = (n, n)).
Proof.
  unfold similarityMatrixTopK. split.
  - intros H. apply Nat.eqb_neq in H. now rewrite H.
  - intros n Hsq.
    assert (mshape M = (n, n)) as Hshape.
    { destruct M as [M|shp A]; simpl in *; [now apply shape_square | tauto]. }
    rewrite Hshape. cbn [fst snd]. rewrite Nat.eqb_refl. cbn [negb].
    destruct M as [M|shp A]; simpl in *.
    + destruct forceSparseOutput, inplace; eexists _, _;
        (split; [reflexivity|]); simpl; rewrite ?zero_out_shape_eq; auto.
    + destruct (fold_left _ _ _) as [[d r] p]. eexists _, _.
      split; [reflexivity|]. simpl. auto.
Qed.

(** X2: top-K selection creates no value: on a square matrix, dense or
    sparse, and for every [k], each entry of the result is the entry of
    the argument at the same place or zero. *)
Theorem similarityMatrixTopK_only_zeroes (n : nat) (M : matrix)
    (forceSparseOutput : bool) (k : Z) (inplace : bool) :
  square n M ->
  exists out item_weights',
    similarityMatrixTopK np_argsort M forceSparseOutput k inplace
    = Ok (out, item_weights') /\
    forall r c, r < n -> c < n ->
      mentry out r c = mentry M r c \/ mentry out r c = 0%Q.
Proof.
  intros HM. destruct M as [M|shp A].
  - simpl in HM. pose proof (shape_square n M HM) as Hshape.
    unfold similarityMatrixTopK. simpl mshape. rewrite Hshape. cbn [fst snd].
    rewrite Nat.eqb_refl. cbn [negb].
    set (W := zero_out M _).
    destruct forceSparseOutput; eexists _, _; (split; [reflexivity|]);
      intros r c Hr Hc.
    + rewrite mentry_sparse_of_dense;
        [| unfold W; rewrite zero_out_length; destruct HM as [-> _]; exact Hr
         | exact Hc].
      destruct (nonzero (entry W r c)); [|now right].
      simpl. apply entry_zero_out_cases.
    + simpl. apply entry_zero_out_cases.
  - destruct HM as [-> HA]. destruct HA as (_ & Hlen & _ & _ & Hslices).
    destruct (topK_sparse_output np_argsort n A k forceSparseOutput inplace Hlen)
      as (A' & Hrun & Hcols).
    eexists _, _. split; [exact Hrun|].
    intros r c Hr Hc. simpl. rewrite (Hcols c Hc). cbv zeta.
    set (nzs := List.filter (fun q => nonzero (snd q)) (major_slice A c)).
    destruct (kept_positions np_argsort np_argsort_ok nzs (- Z.min k (Z.of_nat n)))
      as (Hnd & Hlt & _).
    set (top := slice_from _ _) in *.
    destruct (Hslices c Hc) as [Hnd_e _].
    assert (List.NoDup (map fst nzs)) as Hnd_nzs by now apply NoDup_map_fst_filter.
    set (kept := map (fun q => nth q nzs (0, 0%Q)) top).
    assert (List.NoDup (map fst kept)) as Hkept_nd.
    { unfold kept. rewrite List.map_map.
      rewrite (map_ext _ (fun q => nth q (map fst nzs) 0))
        by (intros q; symmetry; apply (map_nth fst nzs (0, 0%Q) q)).
      apply NoDup_take_idx; auto.
      rewrite List.Forall_forall. intros q Hq. rewrite length_map. now apply Hlt. }
    destruct (in_dec Nat.eq_dec r (map fst kept)) as [Hin|Hnin];
      [left | right; now apply slice_get_notin].
    apply in_map_iff in Hin as ([r' v] & Hfst & Hq). simpl in Hfst. subst r'.
    rewrite (slice_get_in kept r v Hkept_nd Hq). symmetry.
    apply slice_get_in; [exact Hnd_e|].
    unfold kept in Hq. apply in_map_iff in Hq as (i & Hi & Hitop).
    assert (In (r, v) nzs) as Hnz by (rewrite <- Hi; apply nth_In, Hlt, Hitop).
    now apply filter_In in Hnz.
Qed.

(** X3: on a dense [n] x [n] matrix, every [k >= n] keeps the whole
    matrix: nothing is zeroed. *)
Theorem similarityMatrixTopK_large_k (n : nat) (M : dense) (k : Z) (inplace : bool) :
  has_shape n n M ->
  (Z.of_nat n <= k)%Z ->
  similarityMatrixTopK np_argsort (Dense M) false k inplace
  = Ok (Dense M, Dense M).
Proof.
  intros HM Hk. unfold similarityMatrixTopK. simpl mshape.
  rewrite (shape_square n M HM). cbn [fst snd]. rewrite Nat.eqb_refl. cbn [negb].
  replace (Z.min k (Z.of_nat n)) with (Z.of_nat n) by lia.
  rewrite concat_imap_nil.
  - simpl. now destruct inplace.
  - reflexivity.
  - rewrite List.Forall_forall. intros x Hx.
    apply in_map_iff in Hx as (idx & <- & Hidx).
    apply in_map_iff in Hidx as (c & <- & _).
    destruct (np_argsort_ok Q Qle_bool 0%Q (column M c) Qle_bool_total Qle_bool_trans)
      as [Hperm _].
    unfold slice_to. rewrite (idx_length _ _ Hperm), column_length.
    destruct HM as [-> _].
    destruct n as [|n']; [now rewrite slice_bound_zero|].
    rewrite slice_bound_neg by lia. rewrite Nat2Z.id, Nat.sub_diag. reflexivity.
Qed.


(** X5: the sparse path with [k = 0] keeps the whole matrix: the slice
    [idx_sorted[-0:]] is the whole argsort, so column [c] of the result
    is a rearrangement of the non-zero stored entries of column [c], and
    every entry of the result equals the entry of the argument. *)
Theorem similarityMatrixTopK_sparse_zero_k (n : nat) (A : compressed)
    (forceSparseOutput inplace : bool) :
  canonical n n A ->
  exists A',
    similarityMatrixTopK np_argsort (Sparse (n, n) A) forceSparseOutput 0 inplace
    = Ok (Sparse (n, n) A', Sparse (n, n) A) /\
    (forall c, c < n ->
       Permutation (major_slice A' c)
                   (List.filter (fun q => nonzero (snd q)) (major_slice A c))) /\
    forall r c, r < n -> c < n ->
      (mentry (Sparse (n, n) A') r c == mentry (Sparse (n, n) A) r c)%Q.
Proof.
  intros Hcan. pose proof Hcan as (_ & Hlen & _ & _ & Hslices).
  destruct (topK_sparse_output np_argsort n A 0 forceSparseOutput inplace Hlen)
    as (A' & Hrun & Hcols).
  exists A'. split; [exact Hrun|].
  assert (forall c, c < n ->
            Permutation (major_slice A' c)
              (List.filter (fun q => nonzero (snd q)) (major_slice A c))) as Hperms.
  { intros c Hc. rewrite (Hcols c Hc). cbv zeta.
    set (nzs := List.filter (fun q => nonzero (snd q)) (major_slice A c)).
    destruct (np_argsort_ok Q Qle_bool 0%Q (map snd nzs) Qle_bool_total Qle_bool_trans)
      as [Hperm _].
    replace (Z.min 0 (Z.of_nat n)) with 0%Z by lia. change (- 0)%Z with 0%Z.
    unfold slice_from. rewrite slice_bound_zero, drop_0.
    rewrite (Permutation_map (fun q => nth q nzs (0, 0%Q)) Hperm).
    rewrite length_map, map_nth_seq_id. reflexivity. }
  split; [exact Hperms|].
  intros r c Hr Hc. simpl.
  apply slice_get_nonzero_perm; [exact (proj1 (Hslices c Hc)) | exact (Hperms c Hc)].
Qed.

(** X6: on a dense square matrix [forceSparseOutput] changes the
    representation only: the sparse result and the dense result have
    equal entries, and the argument is left in the same state. *)
Theorem similarityMatrixTopK_forceSparse_entries (n : nat) (M : dense) (k : Z)
    (inplace : bool) :
  has_shape n n M ->
  exists out_sparse out_dense item_weights',
    similarityMatrixTopK np_argsort (Dense M) true k inplace
    = Ok (out_sparse, item_weights') /\
    similarityMatrixTopK np_argsort (Dense M) false k inplace
    = Ok (out_dense, item_weights') /\
    forall r c, r < n -> c < n ->
      (mentry out_sparse r c == mentry out_dense r c)%Q.
Proof.
  intros HM. pose proof (shape_square n M HM) as Hshape.
  unfold similarityMatrixTopK. simpl mshape. rewrite Hshape. cbn [fst snd].
  rewrite Nat.eqb_refl. cbn [negb].
  set (W := zero_out M _).
  eexists _, _, _. split; [reflexivity|]. split; [reflexivity|].
  intros r c Hr Hc.
  rewrite mentry_sparse_of_dense;
    [| unfold W; rewrite zero_out_length; destruct HM as [-> _]; exact Hr | exact Hc].
  simpl. destruct (nonzero (entry W r c)) eqn:E; [reflexivity|].
  symmetry. now apply nonzero_false_eq.
Qed.

End TopKExtras.

(** ** BPR_Sampling: what is sampled, and when sampling cannot return *)

Lemma rejection_never (high : nat) (accept : nat -> bool) (t : list nat) :
  (forall x, x < high -> accept x = false) ->
  forall x t', rejection high accept t <> Ok (x, t').
Proof.
  intros Hrej x t' H. apply rejection_Ok in H as [Hlt Hacc].
  rewrite (Hrej x Hlt) in Hacc. discriminate.
Qed.

Lemma fast_sampling_fold_eligible (self : SLIM_BPR_Python) (threshold : Q) (us : list nat) :
  forall (acc : list nat * gmap nat (list nat)),
  fst (fold_left
         (fun (acc : list nat * gmap nat (list nat)) user_id =>
            let row := URM_train_positive self threshold user_id in
            if 0 <? length row
            then (fst acc ++ [user_id], <[user_id := map fst row]> (snd acc))
            else acc) us acc)
  = fst acc ++ List.filter (fun u => 0 <? length (URM_train_positive self threshold u)) us.
Proof.
  induction us as [|x us IH]; intros acc; simpl; [now rewrite app_nil_r|].
  rewrite IH. destruct (0 <? length (URM_train_positive self threshold x)); simpl.
  - now rewrite <- app_assoc.
  - reflexivity.
Qed.

Lemma initializeFastSampling_eligible (self : SLIM_BPR_Python) (threshold : Q) :
  eligibleUsers (initializeFastSampling self threshold)
  = List.filter (fun u => 0 <? length (URM_train_positive self threshold u))
                (seq 0 (n_users self)).
Proof.
  unfold initializeFastSampling.
  pose proof (fast_sampling_fold_eligible self threshold (seq 0 (n_users self)) ([], ∅)) as H.
  destruct (fold_left _ _ _) as [eligible seen]. simpl in *. exact H.
Qed.

Lemma initializeFastSampling_lookup (self : SLIM_BPR_Python) (threshold : Q) (u : nat) :
  userSeenItems (initializeFastSampling self threshold) !! u
  = if (u <? n_users self) && (0 <? length (URM_train_positive self threshold u))
    then Some (map fst (URM_train_positive self threshold u))
    else None.
Proof.
  unfold initializeFastSampling.
  pose proof (fast_sampling_fold self threshold (seq 0 (n_users self)) ([], ∅) u) as H.
  destruct (fold_left _ _ _) as [eligible seen]. simpl in *. rewrite H.
  assert (member u (seq 0 (n_users self)) = (u <? n_users self)) as ->.
  { destruct (u <? n_users self) eqn:E.
    - apply member_In, in_seq. apply Nat.ltb_lt in E. lia.
    - apply member_false. rewrite in_seq. apply Nat.ltb_ge in E. lia. }
  now destruct (_ && _).
Qed.

Lemma initializeFastSampling_mask (self : SLIM_BPR_Python) (threshold : Q) :
  URM_mask (initializeFastSampling self threshold) = URM_mask self.
Proof.
  unfold initializeFastSampling. now destruct (fold_left _ _ _).
Qed.

Lemma length_pos_exists {A} (l : list A) : 0 < length l <-> exists x, In x l.
Proof.
  destruct l as [|x l]; simpl; split.
  - lia.
  - intros [x []].
  - intros _. exists x. now left.
  - lia.
Qed.

Lemma sorted_filter_seq (f : nat -> bool) (n s : nat) :
  StronglySorted lt (List.filter f (seq s n)).
Proof.
  revert s. induction n as [|m IH]; intros s; simpl; [constructor|].
  assert (Forall (lt s) (List.filter f (seq (S s) m))) as Hall.
  { rewrite List.Forall_forall. intros x Hx. apply filter_In in Hx as [Hx _].
    apply in_seq in Hx. lia. }
  destruct (f s); [constructor; [apply IH | exact Hall] | apply IH].
Qed.

(** X7: [sampleUser] only returns a user of the matrix that has at least
    one and fewer than [n_items] stored interactions. *)
Theorem sampleUser_valid (self : SLIM_BPR_Python) (t t' : list nat) (user_id : nat) :
  sampleUser self t = Ok (user_id, t') ->
  user_id < n_users self /\
  0 < length (major_slice (URM_train self) user_id) < n_items self.
Proof.
  unfold sampleUser. intros H. apply rejection_Ok in H as [Hlt Hacc].
  apply andb_true_iff in Hacc as [H1 H2].
  apply Nat.ltb_lt in H1. apply Nat.ltb_lt in H2. auto.
Qed.

(** X8: [sampleUser] has no exit when no user qualifies: if every user has
    no stored interaction or has interacted with all the items, it
    returns on no random tape (the loop of the source runs forever), and
    without any user [np.random.randint(0, 0)] raises [ValueError]. *)
Theorem sampleUser_no_candidate (self : SLIM_BPR_Python) (t : list nat) :
  (forall u, u < n_users self ->
     length (major_slice (URM_train self) u) = 0 \/
     n_items self <= length (major_slice (URM_train self) u)) ->
  (forall user_id t', sampleUser self t <> Ok (user_id, t')) /\
  (n_users self = 0 -> sampleUser self t = Raise ValueError).
Proof.
  intros Hnone. split.
  - unfold sampleUser. apply rejection_never. intros u Hu.
    apply andb_false_iff. destruct (Hnone u Hu) as [H|H].
    + left. apply Nat.ltb_ge. lia.
    + right. apply Nat.ltb_ge. lia.
  - intros H0. unfold sampleUser, rejection. simpl. now rewrite H0.
Qed.

Lemma rejection_loop_Raise (fuel high : nat) (accept : nat -> bool) :
  forall (t : list nat) (e : exn),
  rejection_loop fuel high accept t = Raise e ->
  e = Exhausted \/ (high = 0 /\ e = ValueError).
Proof.
  induction fuel as [|fuel IH]; intros t e; simpl.
  - intros H; inversion H. now left.
  - unfold randint. destruct (Nat.eqb_spec high 0) as [->|Hne].
    + cbn [mbind result_bind]. intros H; inversion H. now right.
    + destruct t as [|r t]; cbn [mbind result_bind].
      * intros H; inversion H. now left.
      * destruct (accept (r mod high)); [discriminate | apply IH].
Qed.

(** X9: [sampleTriple] raises no exception when the matrix has a user:
    the users that [sampleUser] accepts have a non-empty row and an unseen
    item, so neither [randint] of [sampleItemPair] gets an empty range,
    and the only way not to return a triple is that the draws never
    produce an acceptable value. *)
Theorem sampleTriple_failure (self : SLIM_BPR_Python) (t : list nat) (e : exn) :
  0 < n_users self ->
  sampleTriple self t = Raise e ->
  e = Exhausted.
Proof.
  intros Hn. unfold sampleTriple.
  destruct (sampleUser self t) as [[user_id t1]|e1] eqn:E1; cbn [mbind result_bind].
  - apply rejection_Ok in E1 as [Hu Hacc].
    apply andb_true_iff in Hacc as [Hpos Hlt].
    apply Nat.ltb_lt in Hpos. apply Nat.ltb_lt in Hlt.
    unfold sampleItemPair, get_row.
    apply Nat.ltb_lt in Hu as ->. cbn [mbind result_bind].
    unfold choice, randint. rewrite length_map.
    destruct (Nat.eqb_spec (length (major_slice (URM_train self) user_id)) 0)
      as [H0|_]; [lia|].
    destruct t1 as [|r t1]; cbn [mbind result_bind];
      [intros H; now inversion H|].
    destruct (rejection _ _ t1) as [[neg t2]|e2] eqn:E2; cbn [mbind result_bind];
      [discriminate|].
    intros H; inversion H; subst e2; clear H.
    apply rejection_loop_Raise in E2 as [He|[H0 _]]; [exact He | lia].
  - intros H; inversion H; subst e1; clear H.
    unfold sampleUser, rejection in E1.
    apply rejection_loop_Raise in E1 as [He|[H0 _]]; [exact He | lia].
Qed.

(** X10: what [initializeFastSampling] stores, for a matrix that stores no
    column twice in a row.  An item is listed in [userSeenItems[u]]
    exactly when user [u] of the matrix has a stored rating for it that
    is greater than the threshold and not zero; a stored list is never
    empty; and the keys are the users below [n_users]. *)
Theorem initializeFastSampling_index (self : SLIM_BPR_Python) (threshold : Q) (u : nat) :
  no_duplicates (n_users self) (URM_train self) ->
  let self' := initializeFastSampling self threshold in
  (forall c,
     (exists seen, userSeenItems self' !! u = Some seen /\ In c seen) <->
     u < n_users self /\
     exists v, In (c, v) (major_slice (URM_train self) u) /\
               (threshold < v)%Q /\ ~ (v == 0)%Q) /\
  (forall seen, userSeenItems self' !! u = Some seen -> seen <> [] /\ u < n_users self).
Proof.
  intros _ self'. unfold self'. split.
  - intros c. rewrite initializeFastSampling_lookup. split.
    + intros (seen & Hlook & Hin).
      destruct (u <? n_users self) eqn:Hu; [|discriminate]. simpl in Hlook.
      destruct (0 <? _); [|discriminate]. inversion Hlook; subst.
      apply Nat.ltb_lt in Hu. split; [exact Hu|].
      apply in_map_iff in Hin as ([c' v] & <- & Hin). exists v.
      now apply URM_train_positive_In.
    + intros (Hu & v & Hin).
      apply URM_train_positive_In in Hin.
      apply Nat.ltb_lt in Hu as ->.
      assert ((0 <? length (URM_train_positive self threshold u)) = true) as ->
        by (apply Nat.ltb_lt, length_pos_exists; eauto).
      simpl. eexists. split; [reflexivity|].
      apply in_map_iff. now exists (c, v).
  - intros seen. rewrite initializeFastSampling_lookup.
    destruct (u <? n_users self) eqn:Hu; [|discriminate]. simpl.
    destruct (0 <? _) eqn:Hpos; [|discriminate]. intros H; inversion H; subst.
    apply Nat.ltb_lt in Hu. split; [|exact Hu].
    apply Nat.ltb_lt in Hpos. rewrite <- (length_map fst) in Hpos.
    intros Heq. rewrite Heq in Hpos. simpl in Hpos. lia.
Qed.

(** X11: [eligibleUsers] after [initializeFastSampling] is the increasing
    list, without repetition, of the users that have an entry in
    [userSeenItems]. *)
Theorem initializeFastSampling_eligible_keys (self : SLIM_BPR_Python) (threshold : Q) :
  let self' := initializeFastSampling self threshold in
  (forall u, In u (eligibleUsers self') <-> userSeenItems self' !! u <> None) /\
  List.NoDup (eligibleUsers self') /\
  StronglySorted lt (eligibleUsers self').
Proof.
  intros self'. unfold self'. rewrite initializeFastSampling_eligible. split; [|split].
  - intros u. rewrite initializeFastSampling_lookup, filter_In, in_seq.
    destruct (u <? n_users self) eqn:Hu.
    + apply Nat.ltb_lt in Hu. simpl. destruct (0 <? _).
      * split; [discriminate | intros _; split; [lia | reflexivity]].
      * split; [intros [_ H]; discriminate | congruence].
    + apply Nat.ltb_ge in Hu. simpl. split; [lia | congruence].
  - apply List.NoDup_filter, seq_NoDup.
  - apply sorted_filter_seq.
Qed.

(** X12: on a freshly constructed model, built on a matrix that stores no
    column twice in a row, the fast-sampling index lies inside the
    positive mask: every item of [userSeenItems[u]] is in row [u] of
    [URM_mask]. *)
Theorem fast_index_within_mask (URM : compressed) (shp : nat * nat) (threshold : Q)
    (u c : nat) (seen : list nat) :
  no_duplicates (fst shp) URM ->
  let self := initializeFastSampling (init URM shp threshold) threshold in
  userSeenItems self !! u = Some seen ->
  In c seen ->
  In c (nth u (URM_mask self) []).
Proof.
  intros _ self Hlook Hin. unfold self in Hlook.
  rewrite initializeFastSampling_lookup in Hlook.
  destruct (u <? n_users (init URM shp threshold)) eqn:Hu; [|discriminate].
  cbn [andb] in Hlook. destruct (0 <? _); [|discriminate].
  inversion Hlook; subst seen; clear Hlook.
  apply in_map_iff in Hin as ([c' v] & Hc & Hin). cbn [fst] in Hc. subst c'.
  apply URM_train_positive_In in Hin as (Hrow & Hgt & _).
  apply Nat.ltb_lt in Hu.
  simpl in Hu, Hrow. unfold self. rewrite initializeFastSampling_mask. simpl.
  rewrite (nth_indep _ [] (positive_mask_row URM threshold 0))
    by now rewrite length_map, length_seq.
  rewrite (map_nth (positive_mask_row URM threshold)), seq_nth by exact Hu. simpl.
  apply positive_mask_row_In. exists v. split; [exact Hrow | now apply Qlt_le_weak].
Qed.

(** X13: the edges of [sampleBatch]: with [batch_size = 0] it returns three
    empty arrays and draws nothing; with a positive batch size and no
    eligible user it raises [ValueError], whatever the tape. *)
Theorem sampleBatch_edges (self : SLIM_BPR_Python) (t : list nat) :
  (batch_size self = 0 -> sampleBatch self t = Ok ([], [], [], t)) /\
  (0 < batch_size self -> eligibleUsers self = [] ->
   sampleBatch self t = Raise ValueError).
Proof.
  unfold sampleBatch. split.
  - intros ->. reflexivity.
  - intros Hb ->. destruct (batch_size self) as [|b]; [lia|]. reflexivity.
Qed.

Lemma sampleBatch_loop_stuck (self : SLIM_BPR_Python) (user_id : nat)
    (rest seen : list nat) (t : list nat) :
  userSeenItems self !! user_id = Some seen ->
  (forall c, c < n_items self -> In c seen) ->
  forall r, sampleBatch_loop self (user_id :: rest) t <> Ok r.
Proof.
  intros Hlook Hall r. simpl. unfold seen_of. rewrite Hlook. cbn [mbind result_bind].
  destruct (choice seen t) as [[p t0]|e]; [|discriminate]. cbn [mbind result_bind].
  destruct (rejection _ _ t0) as [[n0 t1]|e] eqn:E; [|discriminate].
  exfalso. revert E. apply rejection_never. intros x Hx.
  apply negb_false_iff, member_In, Hall, Hx.
Qed.

(** X14: [sampleBatch] does not check that a user has an unseen item: when
    every eligible user has all the items in [userSeenItems], it returns
    a batch on no random tape (the rejection loop of the source does not
    end). *)
Theorem sampleBatch_no_negative (self : SLIM_BPR_Python) (t : list nat) :
  0 < batch_size self ->
  (forall u, In u (eligibleUsers self) ->
     exists seen, userSeenItems self !! u = Some seen /\
                  forall c, c < n_items self -> In c seen) ->
  forall r, sampleBatch self t <> Ok r.
Proof.
  intros Hb Hall r. unfold sampleBatch.
  destruct (choice_n _ _ t) as [[us t0]|e] eqn:E; [|discriminate].
  cbn [mbind result_bind].
  apply choice_n_Ok in E as [Hlen Hin].
  destruct us as [|u us]; [simpl in Hlen; lia|].
  inversion Hin as [|? ? Hu _]; subst.
  destruct (Hall u Hu) as (seen & Hlook & Hseen).
  destruct (sampleBatch_loop self (u :: us) t0) as [[[ps ns] t1]|e] eqn:E';
    [|discriminate].
  exfalso. exact (sampleBatch_loop_stuck self u us seen t0 Hlook Hseen _ E').
Qed.

(** X15: after [initializeFastSampling] on a matrix that stores no column
    twice in a row, [sampleBatch] only samples users of the matrix that
    have a stored rating greater than the threshold. *)
Theorem sampleBatch_users_rated (self : SLIM_BPR_Python) (threshold : Q)
    (t t' : list nat) (users poss negs : list nat) :
  no_duplicates (n_users self) (URM_train self) ->
  sampleBatch (initializeFastSampling self threshold) t = Ok (users, poss, negs, t') ->
  forall u, In u users ->
    u < n_users self /\
    exists c v, In (c, v) (major_slice (URM_train self) u) /\ (threshold < v)%Q.
Proof.
  intros _.
  unfold sampleBatch.
  destruct (choice_n _ _ t) as [[us t0]|e] eqn:E; [|discriminate].
  cbn [mbind result_bind].
  destruct (sampleBatch_loop _ us t0) as [[[ps ns] t1]|e]; [|discriminate].
  cbn [mbind result_bind]. intros H; inversion H; subst; clear H.
  apply choice_n_Ok in E as [_ Hin]. rewrite List.Forall_forall in Hin.
  intros u Hu. specialize (Hin u Hu).
  rewrite initializeFastSampling_eligible in Hin.
  apply filter_In in Hin as [Hrange Hpos]. apply in_seq in Hrange.
  split; [lia|].
  apply Nat.ltb_lt, length_pos_exists in Hpos as [[c v] Hcv].
  apply URM_train_positive_In in Hcv as (Hrow & Hgt & _). eauto.
Qed.

(** ** updateWeightsBatch: what a step leaves alone *)

Section UpdateMore.

Variable np_exp : Q -> Q.

Lemma member_cases (x : nat) (l : list nat) :
  (member x l = true /\ In x l) \/ (member x l = false /\ ~ In x l).
Proof.
  destruct (member x l) eqn:E.
  - left. split; [reflexivity | now apply member_In].
  - right. split; [reflexivity | now apply member_false].
Qed.

Lemma updateWeightsBatch_entries (self self' : SLIM_BPR_Python) (u i j : list nat) :
  has_shape (n_items self) (n_items self) (Smat self) ->
  updateWeightsBatch np_exp self u i j = Ok self' ->
  has_shape (n_items self) (n_items self) (Smat self') /\
  forall r c, r < n_items self -> c < n_items self ->
    (r = c -> In r i \/ In r j -> entry (Smat self') r c = 0%Q) /\
    (~ In r i -> ~ In r j -> entry (Smat self') r c = entry (Smat self) r c).
Proof.
  intros HS. set (n := n_items self) in *.
  pose proof HS as [Hlen Hrows].
  unfold updateWeightsBatch.
  destruct (batch_size self =? 1).
  - destruct u as [|u0 [|]]; try discriminate.
    destruct i as [|i0 [|]]; try discriminate.
    destruct j as [|j0 [|]]; try discriminate.
    destruct (seen_of self u0) as [seen|]; [|discriminate]. cbn [mbind result_bind].
    destruct (negb _); [discriminate|].
    intros H; inversion H; subst; clear H. cbn [Smat set_Smat].
    set (S0 := Smat self) in *.
    set (d := (learning_rate self * _)%Q).
    pose proof (add_at_shape n n S0 i0 seen d HS) as H1.
    pose proof (zero_diag_shape n n _ [i0] H1) as H2.
    pose proof (add_at_shape n n _ j0 seen (- d)%Q H2) as H3.
    pose proof (zero_diag_shape n n _ [j0] H3) as H4.
    split; [exact H4|].
    intros r c Hr Hc.
    rewrite entry_zero_diag.
    rewrite entry_add_at;
      [| destruct H2 as [-> _]; exact Hr | now rewrite (has_shape_row n n _ r H2 Hr)].
    rewrite entry_zero_diag.
    rewrite entry_add_at;
      [| now rewrite Hlen | now rewrite (has_shape_row n n _ r HS Hr)].
    unfold member; simpl existsb. simpl In.
    split.
    + intros -> Hin. rewrite Nat.eqb_refl.
      repeat match goal with
             | |- context [decide (?a = ?b)] => destruct (decide (a = b)); subst
             | |- context [?a =? ?b] => destruct (Nat.eqb_spec a b); subst
             end; simpl; try reflexivity; try congruence; exfalso; intuition congruence.
    + intros Hi Hj.
      repeat match goal with
             | |- context [decide (?a = ?b)] => destruct (decide (a = b)); subst
             | |- context [?a =? ?b] => destruct (Nat.eqb_spec a b); subst
             end; simpl; try reflexivity; exfalso; intuition congruence.
  - destruct (negb _); [discriminate|].
    intros H; inversion H; subst; clear H. cbn [Smat set_Smat].
    set (S0 := Smat self) in *.
    set (step := map _ (any_positive _ _)).
    assert (length step = n) as Hstep
      by (unfold step; now rewrite length_map, any_positive_length).
    pose proof (add_rows_shape n n S0 i step Hstep HS) as H1.
    pose proof (zero_diag_shape n n _ i H1) as H2.
    assert (length (map Qopp step) = n) as Hstep' by now rewrite length_map.
    pose proof (add_rows_shape n n _ j (map Qopp step) Hstep' H2) as H3.
    pose proof (zero_diag_shape n n _ j H3) as H4.
    split; [exact H4|].
    intros r c Hr Hc.
    rewrite entry_zero_diag.
    rewrite entry_add_rows;
      [| destruct H2 as [-> _]; exact Hr | now rewrite (has_shape_row n n _ r H2 Hr)
       | now rewrite Hstep'].
    rewrite entry_zero_diag.
    rewrite entry_add_rows;
      [| now rewrite Hlen | now rewrite (has_shape_row n n _ r HS Hr) | now rewrite Hstep].
    split.
    + intros -> Hin. rewrite Nat.eqb_refl. cbn [andb].
      destruct (member_cases c j) as [[-> Hj]|[-> Hj]]; [reflexivity|].
      destruct (member_cases c i) as [[-> Hi]|[-> Hi]]; [reflexivity|].
      exfalso. tauto.
    + intros Hi Hj.
      apply member_false in Hi, Hj. rewrite Hi, Hj.
      now rewrite !andb_false_r.
Qed.


(** X17: [updateWeightsBatch], on arrays of [batch_size] elements, writes
    only the rows of the sampled items: [S] stays an [n_items] x
    [n_items] array, a row of [S] that is neither in [i] nor in [j] is
    unchanged, and the diagonal entry of every row in [i] or [j] is zero
    afterwards. *)
Theorem updateWeightsBatch_rows (self self' : SLIM_BPR_Python) (u i j : list nat) :
  has_shape (n_items self) (n_items self) (Smat self) ->
  length u = batch_size self -> length i = batch_size self ->
  length j = batch_size self ->
  updateWeightsBatch np_exp self u i j = Ok self' ->
  has_shape (n_items self) (n_items self) (Smat self') /\
  (forall r c, r < n_items self -> c < n_items self ->
     ~ In r i -> ~ In r j -> entry (Smat self') r c = entry (Smat self) r c) /\
  (forall r, r < n_items self -> In r i \/ In r j -> entry (Smat self') r r = 0%Q).
Proof.
  intros HS _ _ _ H.
  destruct (updateWeightsBatch_entries self self' u i j HS H) as [HS' Hent].
  split; [exact HS'|]. split.
  - intros r c Hr Hc. exact (proj2 (Hent r c Hr Hc)).
  - intros r Hr Hin. exact (proj1 (Hent r r Hr Hr) eq_refl Hin).
Qed.

(** X18: a batch drawn by [sampleBatch] is accepted by [updateWeightsBatch]:
    when [S] is [n_items] x [n_items], the items of [userSeenItems] are
    below [n_items] and the eligible users below [n_users], the update
    raises no [KeyError] and no [IndexError], in either mode. *)
Theorem sampleBatch_accepted (self : SLIM_BPR_Python) (t t' : list nat)
    (users poss negs : list nat) :
  has_shape (n_items self) (n_items self) (Smat self) ->
  (forall user seen, userSeenItems self !! user = Some seen ->
                     Forall (fun c => c < n_items self) seen) ->
  Forall (fun user => user < n_users self) (eligibleUsers self) ->
  sampleBatch self t = Ok (users, poss, negs, t') ->
  exists self', updateWeightsBatch np_exp self users poss negs = Ok self'.
Proof.
  intros HS Hseen Helig.
  pose proof (shape_square _ _ HS) as Hshape. pose proof HS as [Hlen _].
  unfold sampleBatch.
  destruct (choice_n _ _ t) as [[us t0]|e] eqn:E; [|discriminate].
  cbn [mbind result_bind].
  destruct (sampleBatch_loop self us t0) as [[[ps ns] t1]|e] eqn:E'; [|discriminate].
  cbn [mbind result_bind]. intros H; inversion H; subst; clear H.
  apply choice_n_Ok in E as [Hsize Hin].
  apply sampleBatch_loop_Ok in E' as (Hps & Hns & Hk).
  assert (Forall (fun p => p < n_items self) poss) as Hposs.
  { apply Forall_lookup. intros k p Hp.
    destruct (lookup_lt_is_Some_2 users k) as [u0 Hu];
      [rewrite <- Hps; eapply lookup_lt_Some; eauto|].
    destruct (lookup_lt_is_Some_2 negs k) as [n0 Hn];
      [rewrite Hns, <- Hps; eapply lookup_lt_Some; eauto|].
    destruct (Hk k u0 p n0 Hu Hp Hn) as (seen & Hlook & Hpin & _).
    specialize (Hseen u0 seen Hlook). rewrite List.Forall_forall in Hseen. auto. }
  assert (Forall (fun p => p < n_items self) negs) as Hnegs.
  { apply Forall_lookup. intros k n0 Hn.
    destruct (lookup_lt_is_Some_2 users k) as [u0 Hu];
      [rewrite <- Hns; eapply lookup_lt_Some; eauto|].
    destruct (lookup_lt_is_Some_2 poss k) as [p Hp];
      [rewrite Hps, <- Hns; eapply lookup_lt_Some; eauto|].
    destruct (Hk k u0 p n0 Hu Hp Hn) as (seen & _ & _ & _ & Hlt). exact Hlt. }
  unfold updateWeightsBatch.
  destruct (batch_size self =? 1) eqn:Hb.
  - apply Nat.eqb_eq in Hb. rewrite Hb in Hsize.
    destruct users as [|u0 [|]]; try discriminate.
    destruct poss as [|p [|]]; try discriminate.
    destruct negs as [|n0 [|]]; try discriminate.
    destruct (Hk 0 u0 p n0 eq_refl eq_refl eq_refl) as (seen & Hlook & _).
    unfold seen_of. rewrite Hlook. cbn [mbind result_bind].
    rewrite Hshape, Hlen. cbn [snd].
    inversion Hposs as [|? ? Hp _]; subst. inversion Hnegs as [|? ? Hn _]; subst.
    apply Nat.ltb_lt in Hp as ->. apply Nat.ltb_lt in Hn as ->.
    rewrite (proj2 (forallb_lt _ _) (Hseen u0 seen Hlook)). cbn [andb negb].
    eexists. reflexivity.
  - rewrite Hlen.
    rewrite (proj2 (forallb_lt _ _) Hposs), (proj2 (forallb_lt _ _) Hnegs).
    assert (Forall (fun user => user < n_users self) users) as Hus.
    { rewrite List.Forall_forall in *. auto. }
    rewrite (proj2 (forallb_lt _ _) Hus). cbn [andb negb].
    eexists. reflexivity.
Qed.

End UpdateMore.

(** ** The training loop: what [fit] keeps and what it exports *)

Lemma transpose_shape (n : nat) (M : dense) :
  has_shape n n M -> has_shape n n (transpose M).
Proof.
  intros HM. pose proof (shape_square n M HM) as Hshape. destruct HM as [Hlen _].
  unfold transpose. rewrite Hshape. cbn [snd]. split.
  - now rewrite length_map, length_seq.
  - rewrite List.Forall_forall. intros row Hrow.
    apply in_map_iff in Hrow as (c & <- & _). now rewrite column_length.
Qed.

Lemma initializeFastSampling_fields (self : SLIM_BPR_Python) (threshold : Q) :
  let self' := initializeFastSampling self threshold in
  URM_train self' = URM_train self /\ n_users self' = n_users self /\
  n_items self' = n_items self /\
  positive_threshold self' = positive_threshold self /\
  URM_mask self' = URM_mask self /\ sparse_weights self' = sparse_weights self /\
  Smat self' = Smat self /\ W self' = W self /\ W_sparse self' = W_sparse self.
Proof.
  unfold initializeFastSampling. destruct (fold_left _ _ _). cbn. repeat split.
Qed.

Lemma zeros_shape (nr nc : nat) : has_shape nr nc (zeros nr nc).
Proof.
  unfold zeros. split; [apply repeat_length|].
  rewrite List.Forall_forall. intros row Hrow.
  apply repeat_spec in Hrow. subst. apply repeat_length.
Qed.

Lemma entry_zeros (nr nc r c : nat) : entry (zeros nr nc) r c = 0%Q.
Proof.
  unfold entry, zeros.
  destruct (Nat.lt_ge_cases r nr) as [Hr|Hr].
  - rewrite (nth_indep _ [] (repeat 0%Q nc)); [|rewrite repeat_length; exact Hr].
    rewrite nth_repeat. destruct (Nat.lt_ge_cases c nc) as [Hc|Hc].
    + apply nth_repeat.
    + apply nth_overflow. rewrite repeat_length. exact Hc.
  - rewrite (nth_overflow (repeat (repeat 0%Q nc) nr) []);
      [now destruct c | rewrite repeat_length; exact Hr].
Qed.

Section FitMore.

Variable np_exp : Q -> Q.
Variable np_argsort : forall A : Type, (A -> A -> bool) -> list A -> list nat.

Local Abbreviation data_of s :=
  (URM_train s, n_users s, n_items s, positive_threshold s, URM_mask s,
   eligibleUsers s, userSeenItems s, topK s, batch_size s,
   lambda_i s, lambda_j s, learning_rate s).

(** [updateSimilarityMatrix] on a square [S]: the call always returns. *)
Lemma updateSimilarityMatrix_topK (self : SLIM_BPR_Python) (n : nat) :
  has_shape n n (Smat self) ->
  py_ne_False (topK self) = true ->
  exists self' cells,
    updateSimilarityMatrix np_argsort self = Ok self' /\
    Smat self' = transpose (zero_out (transpose (Smat self)) cells) /\
    W_sparse self' =
      Some (Sparse (n, n) (sparse_of_dense n (zero_out (transpose (Smat self)) cells))) /\
    sparse_weights self' = true /\ W self' = W self /\
    data_of self' = data_of self.
Proof.
  intros HS Htop. apply transpose_shape in HS as HT.
  pose proof (shape_square n _ HT) as Hshape.
  unfold updateSimilarityMatrix. rewrite Htop.
  unfold similarityMatrixTopK. simpl mshape. rewrite Hshape. cbn [fst snd].
  rewrite Nat.eqb_refl. cbn [negb mbind result_bind].
  eexists _, _. split; [reflexivity|]. cbn.
  repeat split.
Qed.

Lemma updateSimilarityMatrix_data (self self' : SLIM_BPR_Python) :
  updateSimilarityMatrix np_argsort self = Ok self' ->
  data_of self' = data_of self.
Proof.
  unfold updateSimilarityMatrix. destruct (py_ne_False (topK self)).
  - destruct (similarityMatrixTopK _ _ _ _ _) as [[out iw]|e]; [|discriminate].
    cbn [mbind result_bind]. intros H; inversion H; subst. reflexivity.
  - intros H; inversion H; subst. reflexivity.
Qed.

Lemma updateSimilarityMatrix_shape (self self' : SLIM_BPR_Python) (n : nat) :
  has_shape n n (Smat self) ->
  updateSimilarityMatrix np_argsort self = Ok self' ->
  has_shape n n (Smat self').
Proof.
  intros HS H. destruct (py_ne_False (topK self)) eqn:Htop.
  - destruct (updateSimilarityMatrix_topK self n HS Htop)
      as (self1 & cells & Heq & HSm & _).
    rewrite Heq in H. inversion H; subst. rewrite HSm.
    apply transpose_shape, zero_out_shape, transpose_shape, HS.
  - destruct (updateSimilarityMatrix_disabled np_argsort self Htop) as (self1 & Heq & HSm).
    rewrite Heq in H. inversion H; subst. now rewrite HSm.
Qed.

Lemma updateSimilarityMatrix_off (self self' : SLIM_BPR_Python) :
  py_ne_False (topK self) = false ->
  updateSimilarityMatrix np_argsort self = Ok self' ->
  Smat self' = Smat self /\
  sparse_weights self' = sparse_weights self /\
  W self' = (if sparse_weights self then W self else Some (transpose (Smat self))) /\
  W_sparse self' = (if sparse_weights self then Some (Dense (transpose (Smat self)))
                    else W_sparse self).
Proof.
  unfold updateSimilarityMatrix. intros ->. intros H; inversion H; subst. cbn.
  repeat split.
Qed.

Lemma run_batches_frame (n : nat) :
  forall (self self' : SLIM_BPR_Python) (t t' : list nat),
  has_shape (n_items self) (n_items self) (Smat self) ->
  run_batches np_exp n self t = Ok (self', t') ->
  self' = set_Smat self (Smat self') /\
  has_shape (n_items self) (n_items self) (Smat self').
Proof.
  induction n as [|n IH]; intros self self' t t' HS; simpl.
  - intros H; inversion H; subst. split; [now destruct self'|exact HS].
  - destruct (sampleBatch self t) as [[[[us ps] ns] t0]|e]; [|discriminate].
    cbn [mbind result_bind].
    destruct (updateWeightsBatch np_exp self us ps ns) as [self1|e] eqn:E;
      [|discriminate]. cbn [mbind result_bind].
    intros H.
    pose proof (updateWeightsBatch_frame np_exp self self1 us ps ns E) as Hframe.
    destruct (updateWeightsBatch_entries np_exp self self1 us ps ns HS E) as [HS1 _].
    assert (n_items self1 = n_items self) as Hn by (rewrite Hframe; reflexivity).
    rewrite <- Hn in HS1.
    destruct (IH self1 self' t0 t' HS1 H) as [Hf Hs].
    split.
    + rewrite Hf, Hframe. reflexivity.
    + now rewrite <- Hn.
Qed.

Lemma epochIteration_steps (self self' : SLIM_BPR_Python) (t t' : list nat) :
  has_shape (n_items self) (n_items self) (Smat self) ->
  epochIteration np_exp np_argsort self t = Ok (self', t') ->
  exists S1,
    has_shape (n_items self) (n_items self) S1 /\
    updateSimilarityMatrix np_argsort
      (set_Smat self (zero_diag S1 (seq 0 (n_items self)))) = Ok self'.
Proof.
  intros HS. unfold epochIteration.
  destruct (batch_size self =? 0); [discriminate|].
  destruct (run_batches _ _ self t) as [[self1 t1]|e] eqn:E; [|discriminate].
  cbn [mbind result_bind]. destruct (negb _); [discriminate|].
  destruct (updateSimilarityMatrix _ _) as [self2|e] eqn:E'; [|discriminate].
  cbn [mbind result_bind]. intros H; inversion H; subst; clear H.
  destruct (run_batches_frame _ self self1 t t' HS E) as [Hframe HS1].
  exists (Smat self1). split; [exact HS1|].
  rewrite <- E'. clear E'. set (S1 := Smat self1) in *.
  rewrite Hframe. reflexivity.
Qed.

Lemma run_epochs_preserves (P : SLIM_BPR_Python -> Prop) :
  (forall self self', P self -> updateSimilarityMatrix np_argsort self = Ok self' ->
                      P self') ->
  (forall self self' t t', P self ->
     epochIteration np_exp np_argsort self t = Ok (self', t') -> P self') ->
  forall (epochs : list nat) (self self' : SLIM_BPR_Python) (t t' : list nat),
  P self -> run_epochs np_exp np_argsort epochs self t = Ok (self', t') -> P self'.
Proof.
  intros Hexp Hepoch epochs.
  induction epochs as [|e epochs IH]; intros self self' t t' HP; simpl.
  - intros H; inversion H; subst. exact HP.
  - destruct (0 <? e).
    + destruct (0 <? batch_size self).
      * destruct (epochIteration _ _ self t) as [[self1 t1]|err] eqn:E; [|discriminate].
        cbn [mbind result_bind]. apply IH. eapply Hepoch; eauto.
      * cbn [mbind result_bind]. apply IH. exact HP.
    + destruct (updateSimilarityMatrix _ self) as [self1|err] eqn:E; [|discriminate].
      cbn [mbind result_bind]. apply IH. eapply Hexp; eauto.
Qed.

(** The base invariant of the epochs: the data and the hyper-parameters
    stay those of [self0], and [S] stays square. *)
Lemma run_epochs_base (self0 : SLIM_BPR_Python) (epochs : list nat)
    (self self' : SLIM_BPR_Python) (t t' : list nat) :
  data_of self = data_of self0 ->
  has_shape (n_items self0) (n_items self0) (Smat self) ->
  run_epochs np_exp np_argsort epochs self t = Ok (self', t') ->
  data_of self' = data_of self0 /\
  has_shape (n_items self0) (n_items self0) (Smat self').
Proof.
  intros Hd HS H.
  apply (run_epochs_preserves
           (fun s => data_of s = data_of self0 /\
                     has_shape (n_items self0) (n_items self0) (Smat s)))
    with (epochs := epochs) (self := self) (t := t) (t' := t'); auto.
  - intros s s' [Hd1 HS1] E. split.
    + rewrite <- Hd1. now apply updateSimilarityMatrix_data.
    + eapply updateSimilarityMatrix_shape; eauto.
  - intros s s' t1 t1' [Hd1 HS1] E.
    assert (n_items s = n_items self0) as Hn by congruence.
    rewrite <- Hn in HS1.
    destruct (epochIteration_steps s s' t1 t1' HS1 E) as (S1 & HS2 & E').
    split.
    + rewrite <- Hd1. apply updateSimilarityMatrix_data in E'. exact E'.
    + rewrite <- Hn. eapply updateSimilarityMatrix_shape; [|exact E'].
      cbn [Smat set_Smat]. now apply zero_diag_shape.
Qed.

Lemma fit_run_epochs (self self' : SLIM_BPR_Python) (epochs batch_size' : nat)
    (lambda_i' lambda_j' learning_rate' : Q) (topK' : pyval) (t t' : list nat) :
  fit np_exp np_argsort self epochs batch_size' lambda_i' lambda_j' learning_rate'
    topK' t = Ok (self', t') ->
  run_epochs np_exp np_argsort (seq 0 epochs)
    (set_hyperparameters (initializeFastSampling self (positive_threshold self))
       batch_size' lambda_i' lambda_j' learning_rate' topK') t = Ok (self', t').
Proof.
  unfold fit, fit_alreadyInitialized.
  destruct (py_ne_False topK' && py_lt_1 topK'); [discriminate|]. auto.
Qed.

(** C7: when [epochIteration] completes, whatever the batch size and the
    [topK] setting, every diagonal entry [S[i, i]] with [i < n_items] is
    zero; and [S], an [n_items] x [n_items] array before the epoch, is an
    [n_items] x [n_items] array after it, so these entries are cells of
    the array. *)
Theorem epochIteration_diagonal_zero (self self' : SLIM_BPR_Python) (t t' : list nat) :
  epochIteration np_exp np_argsort self t = Ok (self', t') ->
  n_items self' = n_items self /\
  (forall i, i < n_items self -> entry (Smat self') i i = 0%Q) /\
  (has_shape (n_items self) (n_items self) (Smat self) ->
   has_shape (n_items self) (n_items self) (Smat self')).
Proof.
  intros Hrun. split; [|split].
  - revert Hrun. unfold epochIteration.
    destruct (batch_size self =? 0); [discriminate|].
    destruct (run_batches _ _ self t) as [[self1 t1]|e] eqn:E; [|discriminate].
    cbn [mbind result_bind]. destruct (negb _); [discriminate|].
    destruct (updateSimilarityMatrix _ _) as [self2|e] eqn:E'; [|discriminate].
    cbn [mbind result_bind]. intros H; inversion H; subst; clear H.
    apply run_batches_n_items in E.
    apply updateSimilarityMatrix_data in E'. cbn in E'. congruence.
  - revert Hrun. unfold epochIteration.
    destruct (batch_size self =? 0); [discriminate|].
    destruct (run_batches _ _ self t) as [[self1 t1]|e] eqn:E; [|discriminate].
    cbn [mbind result_bind]. destruct (negb _); [discriminate|].
    destruct (updateSimilarityMatrix _ _) as [self2|e] eqn:E'; [|discriminate].
    cbn [mbind result_bind]. intros H; inversion H; subst; clear H.
    apply run_batches_n_items in E.
    apply updateSimilarityMatrix_entries in E' as [_ Hent]. cbn [Smat set_Smat] in Hent.
    intros i Hi. destruct (Hent i i) as [He|He]; [|exact He].
    rewrite He. unfold zero_diag. apply entry_zero_out_in.
    apply in_combine_diag. congruence.
  - intros HS.
    destruct (epochIteration_steps self self' t t' HS Hrun) as (S1 & HS1 & E').
    eapply updateSimilarityMatrix_shape; [|exact E'].
    cbn [Smat set_Smat]. now apply zero_diag_shape.
Qed.

(** X19: [updateSimilarityMatrix] with top-K configured, on a square [S]:
    the call returns, sets [sparse_weights], and the exported [W_sparse]
    is the transpose of [S] as the call leaves it (entry [(r, c)] of
    [W_sparse] equals [S[c, r]]). *)
Theorem updateSimilarityMatrix_export_agrees (self : SLIM_BPR_Python) :
  has_shape (n_items self) (n_items self) (Smat self) ->
  py_ne_False (topK self) = true ->
  exists self' out,
    updateSimilarityMatrix np_argsort self = Ok self' /\
    sparse_weights self' = true /\
    W_sparse self' = Some out /\
    mshape out = (n_items self, n_items self) /\
    has_shape (n_items self) (n_items self) (Smat self') /\
    forall r c, r < n_items self -> c < n_items self ->
      (mentry out r c == entry (Smat self') c r)%Q.
Proof.
  intros HS Htop. set (n := n_items self) in *.
  destruct (updateSimilarityMatrix_topK self n HS Htop)
    as (self' & cells & Heq & HSm & HW & Hsw & _).
  exists self'. eexists. split; [exact Heq|]. split; [exact Hsw|].
  split; [exact HW|]. split; [reflexivity|].
  pose proof (zero_out_shape n n cells _ (transpose_shape n _ HS)) as HWs.
  split; [rewrite HSm; now apply transpose_shape|].
  intros r c Hr Hc. rewrite HSm, entry_transpose.
  rewrite (shape_square n _ HWs). cbn [snd].
  apply Nat.ltb_lt in Hc as Hcb. rewrite Hcb.
  rewrite mentry_sparse_of_dense; [| destruct HWs as [-> _]; exact Hr | exact Hc].
  destruct (nonzero _) eqn:E; [reflexivity|].
  symmetry. now apply nonzero_false_eq.
Qed.

(** X20: a run of [fit] that returns, on a matrix in canonical format,
    keeps the data of the model ([URM_train], its shape, the threshold
    and [URM_mask]), leaves the sampling index as
    [initializeFastSampling] built it, and holds the hyper-parameters
    that were passed. *)
Theorem fit_keeps_data (self self' : SLIM_BPR_Python) (epochs batch_size' : nat)
    (lambda_i' lambda_j' learning_rate' : Q) (topK' : pyval) (t t' : list nat) :
  has_canonical_format (n_users self) (URM_train self) ->
  has_shape (n_items self) (n_items self) (Smat self) ->
  fit np_exp np_argsort self epochs batch_size' lambda_i' lambda_j' learning_rate'
    topK' t = Ok (self', t') ->
  let indexed := initializeFastSampling self (positive_threshold self) in
  URM_train self' = URM_train self /\
  n_users self' = n_users self /\ n_items self' = n_items self /\
  positive_threshold self' = positive_threshold self /\
  URM_mask self' = URM_mask self /\
  eligibleUsers self' = eligibleUsers indexed /\
  userSeenItems self' = userSeenItems indexed /\
  topK self' = topK' /\ batch_size self' = batch_size' /\
  lambda_i self' = lambda_i' /\ lambda_j self' = lambda_j' /\
  learning_rate self' = learning_rate'.
Proof.
  intros _ HS H indexed. apply fit_run_epochs in H.
  destruct (initializeFastSampling_fields self (positive_threshold self))
    as (H1 & H2 & H3 & H4 & H5 & H6 & H7 & H8 & H9).
  fold indexed in H, H1, H2, H3, H4, H5, H6, H7, H8, H9.
  set (start := set_hyperparameters indexed _ _ _ _ _) in H.
  destruct (run_epochs_base start (seq 0 epochs) start self' t t' eq_refl) as [Hd _];
    [cbn; rewrite H3, H7; exact HS | exact H |].
  cbn in Hd. repeat split; congruence.
Qed.

(** X21: [fit] keeps [S] square with a zero diagonal: started on an
    [n_items] x [n_items] matrix whose diagonal is zero (as the
    constructor builds it), a run that returns ends on such a matrix. *)
Theorem fit_square_zero_diagonal (self self' : SLIM_BPR_Python)
    (epochs batch_size' : nat) (lambda_i' lambda_j' learning_rate' : Q)
    (topK' : pyval) (t t' : list nat) :
  has_shape (n_items self) (n_items self) (Smat self) ->
  (forall r, r < n_items self -> entry (Smat self) r r = 0%Q) ->
  fit np_exp np_argsort self epochs batch_size' lambda_i' lambda_j' learning_rate'
    topK' t = Ok (self', t') ->
  has_shape (n_items self) (n_items self) (Smat self') /\
  forall r, r < n_items self -> entry (Smat self') r r = 0%Q.
Proof.
  intros HS HD H. apply fit_run_epochs in H.
  destruct (initializeFastSampling_fields self (positive_threshold self))
    as (H1 & H2 & H3 & H4 & H5 & H6 & H7 & H8 & H9).
  set (n := n_items self) in *.
  set (start := set_hyperparameters _ _ _ _ _ _) in H.
  apply (run_epochs_preserves
           (fun s => n_items s = n /\ has_shape n n (Smat s) /\
                     forall r, r < n -> entry (Smat s) r r = 0%Q))
    with (self' := self') in H.
  - exact (proj2 H).
  - intros s s' (Hn & Hs & Hd) E. split; [|split].
    + apply updateSimilarityMatrix_data in E. congruence.
    + eapply updateSimilarityMatrix_shape; eauto.
    + intros r Hr. apply updateSimilarityMatrix_entries in E as [_ Hent].
      destruct (Hent r r) as [->| ->]; auto.
  - intros s s' t1 t1' (Hn & Hs & Hd) E. rewrite <- Hn in Hs.
    destruct (epochIteration_steps s s' t1 t1' Hs E) as (S1 & HS1 & E').
    split; [|split].
    + apply updateSimilarityMatrix_data in E'. cbn in E'. congruence.
    + rewrite <- Hn. eapply updateSimilarityMatrix_shape; [|exact E'].
      cbn [Smat set_Smat]. now apply zero_diag_shape.
    + intros r Hr. apply updateSimilarityMatrix_entries in E' as [_ Hent].
      destruct (Hent r r) as [->| ->]; [|reflexivity].
      cbn [Smat set_Smat]. unfold zero_diag. apply entry_zero_out_in.
      apply in_combine_diag. cbn [n_items set_Smat]. lia.
  - unfold start. cbn. rewrite H3, H7. auto.
Qed.

Lemma run_epochs_idle (epochs : list nat) :
  forall (self : SLIM_BPR_Python) (t : list nat),
  py_ne_False (topK self) = false ->
  batch_size self = 0 \/ Forall (fun e => e = 0) epochs ->
  exists self', run_epochs np_exp np_argsort epochs self t = Ok (self', t) /\
                Smat self' = Smat self.
Proof.
  induction epochs as [|e epochs IH]; intros self t Htop Hidle; simpl.
  - eauto.
  - assert (forall self1, updateSimilarityMatrix np_argsort self = Ok self1 ->
              Smat self1 = Smat self ->
              exists self', run_epochs np_exp np_argsort epochs self1 t = Ok (self', t) /\
                            Smat self' = Smat self) as Hnext.
    { intros self1 E HS1. pose proof (updateSimilarityMatrix_data _ _ E) as Hd.
      destruct (IH self1 t) as (self' & Hrun & HS');
        [congruence | destruct Hidle as [Hb|Hz];
                      [left; congruence | right; now inversion Hz] |].
      exists self'. split; [exact Hrun | congruence]. }
    destruct (updateSimilarityMatrix_disabled np_argsort self Htop) as (self1 & E & HS1).
    destruct (0 <? e) eqn:He.
    + destruct Hidle as [Hb|Hz].
      * rewrite Hb. cbn [Nat.ltb Nat.leb mbind result_bind].
        apply IH; auto.
      * inversion Hz; subst. discriminate.
    + rewrite E. cbn [mbind result_bind]. now apply Hnext.
Qed.

(** X22: [fit] trains nothing when [batch_size] is 0 or [epochs] is at
    most 1: with top-K off it returns without drawing a random number
    and leaves [S] as it was. *)
Theorem fit_without_training (self : SLIM_BPR_Python) (epochs batch_size' : nat)
    (lambda_i' lambda_j' learning_rate' : Q) (topK' : pyval) (t : list nat) :
  py_ne_False topK' = false ->
  batch_size' = 0 \/ epochs <= 1 ->
  exists self',
    fit np_exp np_argsort self epochs batch_size' lambda_i' lambda_j' learning_rate'
      topK' t = Ok (self', t) /\
    Smat self' = Smat self.
Proof.
  intros Htop Hidle. unfold fit, fit_alreadyInitialized. rewrite Htop. cbn [andb].
  set (start := set_hyperparameters _ _ _ _ _ _).
  destruct (run_epochs_idle (seq 0 epochs) start t) as (self' & Hrun & HS).
  - exact Htop.
  - destruct Hidle as [Hb|He]; [left; exact Hb | right].
    destruct epochs as [|[|]]; [constructor | repeat constructor | lia].
  - exists self'. split; [exact Hrun|]. rewrite HS. unfold start. cbn.
    exact (proj1 (proj2 (proj2 (proj2 (proj2 (proj2 (proj2
             (initializeFastSampling_fields self (positive_threshold self))))))))).
Qed.

(** X23: with the defaults ([sparse_weights = False] in the constructor,
    top-K off in [fit]) a fitted model cannot recommend: [fit] stores the
    weights in [W] and never creates [W_sparse], so [recommend] raises
    [AttributeError] for every user of the matrix, and [IndexError] for
    any other user. *)
Theorem fit_default_cannot_recommend (URM : compressed) (shp : nat * nat)
    (threshold : Q) (self' : SLIM_BPR_Python) (epochs batch_size' : nat)
    (lambda_i' lambda_j' learning_rate' : Q) (topK' : pyval) (t t' : list nat) :
  py_ne_False topK' = false ->
  fit np_exp np_argsort (init URM shp threshold) epochs batch_size' lambda_i'
    lambda_j' learning_rate' topK' t = Ok (self', t') ->
  (0 < epochs -> W self' = Some (transpose (Smat self'))) /\
  forall user_id at_ exclude_seen,
    recommend np_argsort self' user_id at_ exclude_seen
    = if user_id <? fst shp then Raise AttributeError else Raise IndexError.
Proof.
  intros Htop H. apply fit_run_epochs in H.
  cbn [positive_threshold init] in H.
  destruct (initializeFastSampling_fields (init URM shp threshold) threshold)
    as (H1 & H2 & H3 & H4 & H5 & H6 & H7 & H8 & H9).
  set (start := set_hyperparameters _ _ _ _ _ _) in H.
  set (P := fun s : SLIM_BPR_Python =>
              n_users s = fst shp /\ n_items s = snd shp /\
              has_shape (snd shp) (snd shp) (Smat s) /\
              py_ne_False (topK s) = false /\
              sparse_weights s = false /\ W_sparse s = None).
  assert (forall s s', P s -> updateSimilarityMatrix np_argsort s = Ok s' ->
                       P s' /\ W s' = Some (transpose (Smat s'))) as Hexp.
  { intros s s' (Hu & Hn & Hs & Ht & Hsw & Hws) E.
    pose proof (updateSimilarityMatrix_data _ _ E) as Hd.
    assert (n_users s' = n_users s) as D2 by congruence.
    assert (n_items s' = n_items s) as D3 by congruence.
    assert (topK s' = topK s) as D8 by congruence.
    destruct (updateSimilarityMatrix_off s s' Ht E) as (E1 & E2 & E3 & E4).
    rewrite Hsw in E3, E4. unfold P. rewrite E1, E2, E3, E4, D2, D3, D8. auto 10. }
  assert (forall s s' t1 t1', P s ->
            epochIteration np_exp np_argsort s t1 = Ok (s', t1') ->
            P s' /\ W s' = Some (transpose (Smat s'))) as Hepoch.
  { intros s s' t1 t1' (Hu & Hn & Hs & Ht & Hsw & Hws) E.
    rewrite <- Hn in Hs.
    destruct (epochIteration_steps s s' t1 t1' Hs E) as (S1 & HS1 & E').
    apply Hexp in E'; [exact E'|].
    unfold P. cbn. rewrite Hn in HS1 |- *.
    pose proof (zero_diag_shape _ _ S1 (seq 0 (snd shp)) HS1). auto 10. }
  assert (P start) as Hstart.
  { unfold P, start. cbn. rewrite H2, H3, H6, H7, H9. cbn.
    pose proof (zeros_shape (snd shp) (snd shp)). auto 10. }
  assert (P self') as HP.
  { apply (run_epochs_preserves P) with (self' := self') in H; auto.
    - intros s s' Hs E. exact (proj1 (Hexp s s' Hs E)).
    - intros s s' t1 t1' Hs E. exact (proj1 (Hepoch s s' t1 t1' Hs E)). }
  split.
  - intros Hpos. destruct epochs as [|m]; [lia|].
    cbn [seq run_epochs Nat.ltb Nat.leb] in H.
    destruct (updateSimilarityMatrix np_argsort start) as [s1|e] eqn:E; [|discriminate].
    cbn [mbind result_bind] in H.
    apply (run_epochs_preserves
             (fun s => P s /\ W s = Some (transpose (Smat s))))
      with (self' := self') in H.
    + exact (proj2 H).
    + intros s s' [Hs _] E1. exact (Hexp s s' Hs E1).
    + intros s s' t1 t1' [Hs _] E1. exact (Hepoch s s' t1 t1' Hs E1).
    + exact (Hexp start s1 Hstart E).
  - intros user_id at_ exclude_seen.
    destruct HP as (Hu & _ & _ & _ & _ & Hws).
    unfold recommend, get_row. rewrite Hu, Hws.
    destruct (user_id <? fst shp); reflexivity.
Qed.

End FitMore.

(** ** recommend and filter_seen: the shape of a ranking *)




Lemma sparse_of_dense_agrees (n : nat) (W : dense) (r c : nat) :
  has_shape n n W -> r < n -> c < n ->
  (mentry (Sparse (n, n) (sparse_of_dense n W)) r c == entry (transpose W) c r)%Q.
Proof.
  intros HW Hr Hc. rewrite entry_transpose, (shape_square n W HW). cbn [snd].
  apply Nat.ltb_lt in Hc as Hcb. rewrite Hcb.
  rewrite mentry_sparse_of_dense; [| destruct HW as [-> _]; exact Hr | exact Hc].
  destruct (nonzero _) eqn:E; [reflexivity|].
  symmetry. now apply nonzero_false_eq.
Qed.

Section RecommendMore.

Variable np_exp : Q -> Q.
Variable np_argsort : forall A : Type, (A -> A -> bool) -> list A -> list nat.
Hypothesis np_argsort_ok : argsort_spec np_argsort.

(** The score of item [c] for [user_id]: the product of the user's row of
    [URM_train] with column [c] of the weights. *)
Local Abbreviation dot self A user_id c :=
  (np_sum (map (fun p : nat * Q => Qmult (snd p) (slice_get (major_slice A c) (fst p)))
               (major_slice (URM_train self) user_id))).

(** The score that ranks item [c]: [-inf] for a seen item under
    [exclude_seen]. *)
Local Abbreviation ranked_score self A user_id exclude_seen c :=
  (if (exclude_seen : bool) && member c (interaction_row self user_id)
   then NegInf else Fin (dot self A user_id c)).

Lemma recommend_at (self : SLIM_BPR_Python) (user_id : nat) (a : Z)
    (exclude_seen : bool) :
  recommend np_argsort self user_id (Some a) exclude_seen
  = (full ← recommend np_argsort self user_id None exclude_seen;
     Ok (slice_to full a)).
Proof.
  unfold recommend. destruct (get_row self user_id); [|reflexivity].
  cbn [mbind result_bind].
  destruct (W_sparse self) as [[|shp A]|]; try reflexivity.
  destruct (negb _); [reflexivity|].
  destruct exclude_seen; [destruct (filter_seen _ _ _)|]; reflexivity.
Qed.

Lemma recommend_full (self : SLIM_BPR_Python) (user_id : nat)
    (exclude_seen : bool) (ranking : list nat) :
  recommend np_argsort self user_id None exclude_seen = Ok ranking ->
  user_id < n_users self /\
  exists shp A scores,
    W_sparse self = Some (Sparse shp A) /\ n_items self = fst shp /\
    length scores = snd shp /\
    (exclude_seen = true ->
     Forall (fun c => c < snd shp) (interaction_row self user_id)) /\
    (forall c, c < snd shp ->
       nth c scores NegInf = ranked_score self A user_id exclude_seen c) /\
    ranking = rev (np_argsort score score_leb scores).
Proof.
  unfold recommend, get_row.
  destruct (user_id <? n_users self) eqn:Hu; [|discriminate].
  apply Nat.ltb_lt in Hu. cbn [mbind result_bind].
  destruct (W_sparse self) as [[|shp A]|]; try discriminate.
  destruct (n_items self =? fst shp) eqn:Hn; [|discriminate].
  apply Nat.eqb_eq in Hn. cbn [negb].
  set (scores := map _ (seq 0 (snd shp))).
  assert (length scores = snd shp) as Hlen
    by (unfold scores; now rewrite length_map, length_seq).
  assert (forall c, c < snd shp ->
            nth c scores NegInf = Fin (dot self A user_id c)) as Hnth.
  { intros c Hc. unfold scores.
    rewrite (nth_indep _ NegInf (Fin (dot self A user_id 0)))
      by now rewrite length_map, length_seq.
    rewrite (map_nth (fun c => Fin (dot self A user_id c))), seq_nth by exact Hc.
    reflexivity. }
  destruct exclude_seen.
  - unfold filter_seen.
    destruct (user_id + 1 <? _); [|discriminate]. cbn [negb].
    destruct (forallb _ _) eqn:Hall; [|discriminate].
    cbn [negb mbind result_bind]. intros H; inversion H; subst; clear H.
    split; [exact Hu|]. eexists shp, A, _. split; [reflexivity|].
    split; [exact Hn|]. rewrite length_filter_seen.
    split; [exact Hlen|].
    apply forallb_lt in Hall. rewrite Hlen in Hall.
    split; [intros _; exact Hall|]. split; [|reflexivity].
    intros c Hc. rewrite nth_filter_seen by now rewrite Hlen.
    cbn [andb]. destruct (member c _); [reflexivity | now apply Hnth].
  - cbn [mbind result_bind]. intros H; inversion H; subst; clear H.
    split; [exact Hu|]. eexists shp, A, scores. split; [reflexivity|].
    split; [exact Hn|]. split; [exact Hlen|].
    split; [discriminate|]. split; [|reflexivity].
    intros c Hc. cbn [andb]. now apply Hnth.
Qed.

Lemma ranking_permutation (scores : list score) :
  Permutation (rev (np_argsort score score_leb scores)) (seq 0 (length scores)).
Proof.
  destruct (np_argsort_ok score score_leb NegInf scores score_leb_total score_leb_trans)
    as [Hperm _].
  rewrite <- Hperm. symmetry. apply Permutation_rev.
Qed.




(** X24: a ranking returned by [recommend] lists items of the weight
    matrix without repetition: with [at=None] it is a permutation of all
    the columns of [W_sparse], and with a cut-off it is the slice [[:at]]
    of that full ranking. *)
Theorem recommend_ranking_permutation (self : SLIM_BPR_Python) (user_id : nat)
    (at_ : option Z) (exclude_seen : bool) (ranking : list nat) :
  recommend np_argsort self user_id at_ exclude_seen = Ok ranking ->
  exists full shp A,
    W_sparse self = Some (Sparse shp A) /\
    recommend np_argsort self user_id None exclude_seen = Ok full /\
    Permutation full (seq 0 (snd shp)) /\
    ranking = match at_ with Some a => slice_to full a | None => full end /\
    List.NoDup ranking.
Proof.
  intros H.
  assert (exists full, recommend np_argsort self user_id None exclude_seen = Ok full /\
            ranking = match at_ with Some a => slice_to full a | None => full end)
    as (full & Hfull & Hcut).
  { destruct at_ as [a|]; [|eauto].
    rewrite recommend_at in H.
    destruct (recommend np_argsort self user_id None exclude_seen) as [full|e];
      [|discriminate].
    cbn [mbind result_bind] in H. inversion H; subst. eauto. }
  pose proof Hfull as Hdec. apply recommend_full in Hdec
    as (_ & shp & A & scores & HW & Hn & Hlen & _ & _ & Heq).
  exists full, shp, A. split; [exact HW|]. split; [exact Hfull|].
  assert (Hperm : Permutation full (seq 0 (snd shp))).
  { rewrite Heq, <- Hlen. apply ranking_permutation. }
  split; [exact Hperm|]. split; [exact Hcut|].
  assert (List.NoDup full) as Hnd.
  { eapply Permutation_NoDup; [symmetry; exact Hperm | apply seq_NoDup]. }
  subst ranking. destruct at_ as [a|]; [|exact Hnd].
  unfold slice_to. rewrite <- (take_drop (slice_bound (length full) a) full) in Hnd.
  now apply NoDup_app_remove_r in Hnd.
Qed.




End RecommendMore.

(** ** A fitted model with top-K, the constructor, the sigmoid *)

Section ExportMore.

Variable np_exp : Q -> Q.
Variable np_argsort : forall A : Type, (A -> A -> bool) -> list A -> list nat.

(** X28: after [fit] with top-K configured and at least one epoch, the
    model holds sparse weights that are the transpose of [S] as training
    left it (entry [(r, c)] of [W_sparse] equals [S[c, r]]), and
    [recommend] without the seen-filter returns a ranking for every user
    of the matrix. *)
Theorem fit_topK_exports (self self' : SLIM_BPR_Python) (epochs batch_size' : nat)
    (lambda_i' lambda_j' learning_rate' : Q) (topK' : pyval) (t t' : list nat) :
  has_shape (n_items self) (n_items self) (Smat self) ->
  py_ne_False topK' = true ->
  0 < epochs ->
  fit np_exp np_argsort self epochs batch_size' lambda_i' lambda_j' learning_rate'
    topK' t = Ok (self', t') ->
  sparse_weights self' = true /\
  (exists out,
     W_sparse self' = Some out /\
     mshape out = (n_items self, n_items self) /\
     forall r c, r < n_items self -> c < n_items self ->
       (mentry out r c == entry (Smat self') c r)%Q) /\
  forall user_id at_, user_id < n_users self ->
    exists ranking, recommend np_argsort self' user_id at_ false = Ok ranking.
Proof.
  intros HS Htop Hpos H. apply fit_run_epochs in H.
  destruct (initializeFastSampling_fields self (positive_threshold self))
    as (H1 & H2 & H3 & H4 & H5 & H6 & H7 & H8 & H9).
  set (n := n_items self) in *.
  set (start := set_hyperparameters _ _ _ _ _ _) in H.
  set (P := fun s : SLIM_BPR_Python =>
              n_users s = n_users self /\ n_items s = n /\
              has_shape n n (Smat s) /\ py_ne_False (topK s) = true).
  set (R := fun s : SLIM_BPR_Python =>
              sparse_weights s = true /\
              exists A, W_sparse s = Some (Sparse (n, n) A) /\
                forall r c, r < n -> c < n ->
                  (mentry (Sparse (n, n) A) r c == entry (Smat s) c r)%Q).
  assert (forall s s', P s -> updateSimilarityMatrix np_argsort s = Ok s' ->
                       P s' /\ R s') as Hexp.
  { intros s s' (Hu & Hn & Hs & Ht) E.
    destruct (updateSimilarityMatrix_topK np_argsort s n Hs Ht)
      as (s1 & cells & E1 & HSm & HW & Hsw & _ & Hd).
    rewrite E1 in E. inversion E; subst s1; clear E.
    pose proof (zero_out_shape n n cells _ (transpose_shape n _ Hs)) as HWs.
    split; [|split].
    - unfold P. rewrite HSm.
      pose proof (transpose_shape n _ HWs) as HT.
      assert (n_users s' = n_users s) as D2 by congruence.
      assert (n_items s' = n_items s) as D3 by congruence.
      assert (topK s' = topK s) as D8 by congruence.
      rewrite D2, D3, D8. auto.
    - exact Hsw.
    - eexists. split; [exact HW|]. intros r c Hr Hc. rewrite HSm.
      now apply sparse_of_dense_agrees. }
  assert (forall s s' t1 t1', P s ->
            epochIteration np_exp np_argsort s t1 = Ok (s', t1') ->
            P s' /\ R s') as Hepoch.
  { intros s s' t1 t1' (Hu & Hn & Hs & Ht) E.
    rewrite <- Hn in Hs.
    destruct (epochIteration_steps np_exp np_argsort s s' t1 t1' Hs E)
      as (S1 & HS1 & E').
    apply Hexp in E'; [exact E'|].
    unfold P. cbn. rewrite Hn in HS1 |- *.
    pose proof (zero_diag_shape _ _ S1 (seq 0 n) HS1). auto 10. }
  assert (P start) as Hstart.
  { unfold P, start. cbn. rewrite H2, H3, H7. auto. }
  destruct epochs as [|m]; [lia|].
  cbn [seq run_epochs Nat.ltb Nat.leb] in H.
  destruct (updateSimilarityMatrix np_argsort start) as [s1|e] eqn:E; [|discriminate].
  cbn [mbind result_bind] in H.
  apply (run_epochs_preserves np_exp np_argsort (fun s => P s /\ R s))
    with (self' := self') in H.
  - destruct H as [(Hu & Hn & _) (Hsw & A & HW & Hagree)].
    split; [exact Hsw|]. split.
    + exists (Sparse (n, n) A). auto.
    + intros user_id at_ Huser. unfold recommend, get_row.
      rewrite Hu. apply Nat.ltb_lt in Huser as ->. cbn [mbind result_bind].
      rewrite HW. cbn [fst snd]. rewrite Hn, Nat.eqb_refl. cbn [negb mbind result_bind].
      eexists. reflexivity.
  - intros s s' [Hs _] E1. exact (Hexp s s' Hs E1).
  - intros s s' t1 t1' [Hs _] E1. exact (Hepoch s s' t1 t1' Hs E1).
  - exact (Hexp start s1 Hstart E).
Qed.

(** X29: [sigmoidFunction] takes its values between 0 and 1, bounds
    included, wherever the exponential is not negative. *)
Theorem sigmoidFunction_range (x : Q) :
  (0 <= np_exp (- x))%Q ->
  (0 <= sigmoidFunction np_exp x)%Q /\ (sigmoidFunction np_exp x <= 1)%Q.
Proof.
  intros Hn. unfold sigmoidFunction.
  set (b := np_exp (- x)) in *.
  assert (1 <= 1 + b)%Q as Hle.
  { rewrite <- (Qplus_0_r 1) at 1. now apply Qplus_le_r. }
  assert (0 < 1 + b)%Q as Hb by (eapply Qlt_le_trans; [|exact Hle]; reflexivity).
  split.
  - apply Qle_shift_div_l; [exact Hb|]. rewrite Qmult_0_l. discriminate.
  - apply Qle_shift_div_r; [exact Hb|]. now rewrite Qmult_1_l.
Qed.

End ExportMore.

(** X30: the constructor leaves a model whose [S] is the zero
    [n_items] x [n_items] array, with no exported weights, and whose
    mask row [u] lists exactly the items of user [u] with a stored rating
    of at least the threshold. *)
Theorem init_state (URM : compressed) (shp : nat * nat) (threshold : Q) :
  let self := init URM shp threshold in
  has_shape (n_items self) (n_items self) (Smat self) /\
  (forall r c, entry (Smat self) r c = 0%Q) /\
  W self = None /\ W_sparse self = None /\
  forall u c,
    In c (nth u (URM_mask self) []) <->
    u < n_users self /\
    exists v, In (c, v) (major_slice (URM_train self) u) /\ (threshold <= v)%Q.
Proof.
  cbn. split; [apply zeros_shape|]. split; [intros r c; apply entry_zeros|].
  split; [reflexivity|]. split; [reflexivity|].
  intros u c. destruct (Nat.lt_ge_cases u (fst shp)) as [Hu|Hu].
  - rewrite (nth_indep _ [] (positive_mask_row URM threshold 0))
      by now rewrite length_map, length_seq.
    rewrite (map_nth (positive_mask_row URM threshold)), seq_nth by exact Hu.
    rewrite positive_mask_row_In. cbn. tauto.
  - rewrite nth_overflow by now rewrite length_map, length_seq.
    split; [intros [] | lia].
Qed.

(** ** The further properties on concrete inputs *)

Lemma M_positive_shape : has_shape 2 2 M_positive.
Proof. split; [reflexivity | repeat constructor]. Qed.

Lemma W_small_canonical : canonical 2 2 W_small.
Proof.
  split; [reflexivity|]. split; [reflexivity|]. split; [|split].
  - intros [|[|m]] Hm; vm_compute; lia.
  - vm_compute. lia.
  - intros [|[|m]] Hm; [| |lia]; split.
    + vm_compute. repeat constructor; simpl; intuition discriminate.
    + vm_compute. repeat constructor.
    + vm_compute. repeat constructor; simpl; intuition discriminate.
    + vm_compute. repeat constructor.
Qed.

Lemma model_small_shape (batch_size' : nat) (topK' : pyval) :
  has_shape (n_items (model_small batch_size' topK'))
            (n_items (model_small batch_size' topK'))
            (Smat (model_small batch_size' topK')).
Proof. split; [reflexivity | repeat constructor]. Qed.

Lemma model_small_seen (batch_size' : nat) (topK' : pyval) (user : nat)
    (seen : list nat) :
  userSeenItems (model_small batch_size' topK') !! user = Some seen ->
  Forall (fun c => c < n_items (model_small batch_size' topK')) seen.
Proof.
  change (userSeenItems (model_small batch_size' topK'))
    with (userSeenItems (initializeFastSampling (init URM_small (2, 3) 3) 3)).
  rewrite initializeFastSampling_lookup.
  destruct user as [|[|user]]; vm_compute; intros H; inversion H; subst;
    repeat constructor.
Qed.

Lemma URM_small_canonical_format : has_canonical_format 2 URM_small.
Proof.
  intros [|[|m]] Hm; [| |lia]; vm_compute; repeat constructor.
Qed.

Lemma URM_small_no_duplicates : no_duplicates 2 URM_small.
Proof.
  intros [|[|m]] Hm; [| |lia]; vm_compute; repeat constructor;
    simpl; intuition discriminate.
Qed.

Lemma epochIteration_diagonal_zero_witness :
  exists self' t',
    epochIteration exp_taylor2 stable_argsort (model_small 1 (PyInt 1)) tape_small
    = Ok (self', t') /\
    n_items self' = 3 /\
    (forall i, i < 3 -> entry (Smat self') i i = 0%Q) /\
    has_shape 3 3 (Smat self').
Proof.
  destruct (epochIteration exp_taylor2 stable_argsort (model_small 1 (PyInt 1)) tape_small)
    as [[self' t']|e] eqn:E; [|vm_compute in E; discriminate].
  exists self', t'. split; [reflexivity|].
  destruct (epochIteration_diagonal_zero exp_taylor2 stable_argsort _ _ _ _ E)
    as (Hn & Hdiag & Hshape).
  split; [exact Hn|]. split; [exact Hdiag|].
  exact (Hshape (model_small_shape 1 (PyInt 1))).
Defined.


Lemma initializeFastSampling_index_witness :
  no_duplicates 2 URM_small /\
  (forall c,
     (exists seen,
        userSeenItems (initializeFastSampling (init URM_small (2, 3) 3) 3) !! 1
        = Some seen /\ In c seen) <->
     1 < 2 /\
     exists v, In (c, v) (major_slice URM_small 1) /\ (3 < v)%Q /\ ~ (v == 0)%Q).
Proof.
  split; [exact URM_small_no_duplicates|].
  exact (proj1 (initializeFastSampling_index (init URM_small (2, 3) 3) 3 1
                  URM_small_no_duplicates)).
Defined.

Lemma similarityMatrixTopK_only_zeroes_witness :
  square 2 (Sparse (2, 2) W_small) /\
  exists out item_weights',
    similarityMatrixTopK stable_argsort (Sparse (2, 2) W_small) true 1 true
    = Ok (out, item_weights') /\
    forall r c, r < 2 -> c < 2 ->
      mentry out r c = mentry (Sparse (2, 2) W_small) r c \/ mentry out r c = 0%Q.
Proof.
  assert (square 2 (Sparse (2, 2) W_small)) as H
    by (split; [reflexivity | exact W_small_canonical]).
  split; [exact H|].
  exact (similarityMatrixTopK_only_zeroes stable_argsort stable_argsort_ok 2
           (Sparse (2, 2) W_small) true 1 true H).
Defined.

Lemma similarityMatrixTopK_large_k_witness :
  has_shape 2 2 M_positive /\ (Z.of_nat 2 <= 5)%Z /\
  similarityMatrixTopK stable_argsort (Dense M_positive) false 5 true
  = Ok (Dense M_positive, Dense M_positive).
Proof.
  split; [exact M_positive_shape|]. split; [lia|].
  apply (similarityMatrixTopK_large_k stable_argsort stable_argsort_ok 2 M_positive 5 true).
  - exact M_positive_shape.
  - lia.
Defined.


Lemma similarityMatrixTopK_sparse_zero_k_witness :
  canonical 2 2 W_small /\
  exists A',
    similarityMatrixTopK stable_argsort (Sparse (2, 2) W_small) true 0 true
    = Ok (Sparse (2, 2) A', Sparse (2, 2) W_small) /\
    Permutation (major_slice A' 1) [(1, 2%Q); (0, (-1)%Q)] /\
    Qeq (mentry (Sparse (2, 2) A') 1 0) (mentry (Sparse (2, 2) W_small) 1 0).
Proof.
  split; [exact W_small_canonical|].
  destruct (similarityMatrixTopK_sparse_zero_k stable_argsort stable_argsort_ok 2
              W_small true true W_small_canonical) as (A' & Hrun & Hcols & Hent).
  exists A'. split; [exact Hrun|]. split.
  - exact (Hcols 1 ltac:(lia)).
  - exact (Hent 1 0 ltac:(lia) ltac:(lia)).
Defined.

Lemma similarityMatrixTopK_forceSparse_entries_witness :
  has_shape 2 2 M_positive /\
  exists out_sparse out_dense item_weights',
    similarityMatrixTopK stable_argsort (Dense M_positive) true 1 true
    = Ok (out_sparse, item_weights') /\
    similarityMatrixTopK stable_argsort (Dense M_positive) false 1 true
    = Ok (out_dense, item_weights') /\
    forall r c, r < 2 -> c < 2 ->
      (mentry out_sparse r c == mentry out_dense r c)%Q.
Proof.
  split; [exact M_positive_shape|].
  exact (similarityMatrixTopK_forceSparse_entries stable_argsort 2 M_positive 1 true
           M_positive_shape).
Defined.

Lemma sampleUser_valid_witness :
  exists user_id t',
    sampleUser (model_small 1 (PyBool false)) tape_small = Ok (user_id, t') /\
    user_id < 2 /\
    0 < length (major_slice URM_small user_id) < 3.
Proof.
  destruct (sampleUser (model_small 1 (PyBool false)) tape_small)
    as [[user_id t']|e] eqn:E; [|vm_compute in E; discriminate].
  exists user_id, t'. split; [reflexivity|].
  exact (sampleUser_valid (model_small 1 (PyBool false)) tape_small t' user_id E).
Defined.

Lemma sampleUser_no_candidate_witness :
  sampleUser (init URM_threshold (1, 1) 3) tape_small <> Ok (0, []).
Proof.
  apply (proj1 (sampleUser_no_candidate (init URM_threshold (1, 1) 3) tape_small
                  ltac:(intros [|u] Hu; [right; vm_compute; lia | simpl in Hu; lia]))).
Defined.

Lemma sampleTriple_failure_witness :
  0 < n_users (model_small 1 (PyBool false)) /\
  sampleTriple (model_small 1 (PyBool false)) [0] = Raise Exhausted.
Proof.
  assert (0 < n_users (model_small 1 (PyBool false))) as Hn by (simpl; lia).
  split; [exact Hn|].
  destruct (sampleTriple (model_small 1 (PyBool false)) [0]) as [r|e] eqn:E;
    [vm_compute in E; discriminate|].
  f_equal.
  exact (sampleTriple_failure (model_small 1 (PyBool false)) [0] e Hn E).
Defined.

Lemma fast_index_within_mask_witness :
  userSeenItems (initializeFastSampling (init URM_small (2, 3) 3) 3) !! 1 = Some [1; 2] /\
  In 2 (nth 1 (URM_mask (initializeFastSampling (init URM_small (2, 3) 3) 3)) []).
Proof.
  assert (userSeenItems (initializeFastSampling (init URM_small (2, 3) 3) 3) !! 1
          = Some [1; 2]) as H by (vm_compute; reflexivity).
  split; [exact H|].
  apply (fast_index_within_mask URM_small (2, 3) 3 1 2 [1; 2]
           URM_small_no_duplicates H).
  simpl; auto.
Defined.

Lemma sampleBatch_no_negative_witness :
  0 < batch_size model_one_item /\
  sampleBatch model_one_item tape_small <> Ok ([0], [0], [0], []).
Proof.
  assert (0 < batch_size model_one_item) as Hb by (vm_compute; lia).
  split; [exact Hb|].
  apply (sampleBatch_no_negative model_one_item tape_small Hb).
  intros u Hu. vm_compute in Hu. destruct Hu as [<-|[]].
  exists [0]. split; [vm_compute; reflexivity|].
  intros c Hc. vm_compute in Hc. assert (c = 0) as -> by lia. simpl; auto.
Defined.

Lemma sampleBatch_users_rated_witness :
  exists users poss negs t',
    sampleBatch (model_small 2 (PyBool false)) tape_small = Ok (users, poss, negs, t') /\
    forall u, In u users ->
      u < 2 /\ exists c v, In (c, v) (major_slice URM_small u) /\ (3 < v)%Q.
Proof.
  destruct (sampleBatch
              (initializeFastSampling
                 (set_hyperparameters (init URM_small (2, 3) 3) 2 0 0 (1 # 10)
                    (PyBool false)) 3) tape_small)
    as [[[[users poss] negs] t']|e] eqn:E; [|vm_compute in E; discriminate].
  exists users, poss, negs, t'. split; [exact E|].
  exact (sampleBatch_users_rated
           (set_hyperparameters (init URM_small (2, 3) 3) 2 0 0 (1 # 10) (PyBool false))
           3 tape_small t' users poss negs URM_small_no_duplicates E).
Defined.


Lemma updateWeightsBatch_rows_witness :
  exists self',
    updateWeightsBatch exp_taylor2 (model_small 2 (PyBool false)) [0; 1] [0; 2] [1; 0]
    = Ok self' /\
    has_shape 3 3 (Smat self') /\
    entry (Smat self') 2 2 = 0%Q.
Proof.
  destruct (updateWeightsBatch exp_taylor2 (model_small 2 (PyBool false))
              [0; 1] [0; 2] [1; 0])
    as [self'|e] eqn:E; [|vm_compute in E; discriminate].
  exists self'. split; [reflexivity|].
  destruct (updateWeightsBatch_rows exp_taylor2 (model_small 2 (PyBool false)) self'
              [0; 1] [0; 2] [1; 0] (model_small_shape 2 (PyBool false))
              eq_refl eq_refl eq_refl E) as (Hshape & _ & Hdiag).
  split; [exact Hshape|].
  apply Hdiag; [simpl; lia | simpl; auto].
Defined.

Lemma sampleBatch_accepted_witness :
  exists users poss negs t' self',
    sampleBatch (model_small 2 (PyBool false)) tape_small = Ok (users, poss, negs, t') /\
    updateWeightsBatch exp_taylor2 (model_small 2 (PyBool false)) users poss negs
    = Ok self'.
Proof.
  destruct (sampleBatch (model_small 2 (PyBool false)) tape_small)
    as [[[[users poss] negs] t']|e] eqn:E; [|vm_compute in E; discriminate].
  destruct (sampleBatch_accepted exp_taylor2 (model_small 2 (PyBool false)) tape_small t'
              users poss negs (model_small_shape 2 (PyBool false))
              (model_small_seen 2 (PyBool false))
              ltac:(vm_compute; repeat constructor) E) as [self' Hrun].
  exists users, poss, negs, t', self'. split; [reflexivity | exact Hrun].
Defined.

Lemma updateSimilarityMatrix_export_agrees_witness :
  py_ne_False (topK model_trained) = true /\
  exists self' out,
    updateSimilarityMatrix stable_argsort model_trained = Ok self' /\
    sparse_weights self' = true /\
    W_sparse self' = Some out /\
    mshape out = (3, 3) /\
    has_shape 3 3 (Smat self') /\
    forall r c, r < 3 -> c < 3 -> (mentry out r c == entry (Smat self') c r)%Q.
Proof.
  split; [reflexivity|].
  apply (updateSimilarityMatrix_export_agrees stable_argsort model_trained).
  - split; [reflexivity | repeat constructor].
  - reflexivity.
Defined.

Lemma fit_keeps_data_witness :
  exists self' t',
    fit exp_taylor2 stable_argsort (init URM_small (2, 3) 3) 2 1 0 0 (1 # 10)
      (PyInt 1) tape_small = Ok (self', t') /\
    URM_train self' = URM_small /\ n_users self' = 2 /\ n_items self' = 3 /\
    topK self' = PyInt 1 /\ batch_size self' = 1.
Proof.
  destruct (fit exp_taylor2 stable_argsort (init URM_small (2, 3) 3) 2 1 0 0 (1 # 10)
              (PyInt 1) tape_small) as [[self' t']|e] eqn:E;
    [|vm_compute in E; discriminate].
  exists self', t'. split; [reflexivity|].
  destruct (fit_keeps_data exp_taylor2 stable_argsort (init URM_small (2, 3) 3) self'
              2 1 0 0 (1 # 10) (PyInt 1) tape_small t'
              URM_small_canonical_format (zeros_shape 3 3) E)
    as (H1 & H2 & H3 & _ & _ & _ & _ & H8 & H9 & _).
  auto.
Defined.

Lemma fit_square_zero_diagonal_witness :
  exists self' t',
    fit exp_taylor2 stable_argsort (init URM_small (2, 3) 3) 2 1 0 0 (1 # 10)
      (PyBool false) tape_small = Ok (self', t') /\
    has_shape 3 3 (Smat self') /\
    forall r, r < 3 -> entry (Smat self') r r = 0%Q.
Proof.
  destruct (fit exp_taylor2 stable_argsort (init URM_small (2, 3) 3) 2 1 0 0 (1 # 10)
              (PyBool false) tape_small) as [[self' t']|e] eqn:E;
    [|vm_compute in E; discriminate].
  exists self', t'. split; [reflexivity|].
  apply (fit_square_zero_diagonal exp_taylor2 stable_argsort (init URM_small (2, 3) 3)
           self' 2 1 0 0 (1 # 10) (PyBool false) tape_small t' (zeros_shape 3 3)).
  - intros r _. apply entry_zeros.
  - exact E.
Defined.

Lemma fit_without_training_witness :
  exists self',
    fit exp_taylor2 stable_argsort model_trained 30 0 0 0 (1 # 10) (PyInt 0) tape_small
    = Ok (self', tape_small) /\
    Smat self' = Smat model_trained.
Proof.
  apply (fit_without_training exp_taylor2 stable_argsort model_trained 30 0 0 0 (1 # 10)
           (PyInt 0) tape_small).
  - reflexivity.
  - left. reflexivity.
Defined.

Lemma fit_default_cannot_recommend_witness :
  exists self' t',
    fit exp_taylor2 stable_argsort (init URM_small (2, 3) 3) 2 1 0 0 (1 # 10)
      (PyBool false) tape_small = Ok (self', t') /\
    W self' = Some (transpose (Smat self')) /\
    recommend stable_argsort self' 0 None true = Raise AttributeError /\
    recommend stable_argsort self' 2 None true = Raise IndexError.
Proof.
  destruct (fit exp_taylor2 stable_argsort (init URM_small (2, 3) 3) 2 1 0 0 (1 # 10)
              (PyBool false) tape_small) as [[self' t']|e] eqn:E;
    [|vm_compute in E; discriminate].
  exists self', t'. split; [reflexivity|].
  destruct (fit_default_cannot_recommend exp_taylor2 stable_argsort URM_small (2, 3) 3
              self' 2 1 0 0 (1 # 10) (PyBool false) tape_small t' eq_refl E)
    as [HW Hrec].
  split; [apply HW; lia|]. split; apply Hrec.
Defined.

Lemma recommend_ranking_permutation_witness :
  exists full shp A,
    W_sparse model_exported = Some (Sparse shp A) /\
    recommend stable_argsort model_exported 1 None true = Ok full /\
    Permutation full (seq 0 (snd shp)) /\
    [0; 2] = slice_to full 2 /\
    List.NoDup [0; 2].
Proof.
  apply (recommend_ranking_permutation stable_argsort stable_argsort_ok model_exported 1
           (Some 2%Z) true [0; 2]).
  vm_compute. reflexivity.
Defined.




Lemma fit_topK_exports_witness :
  exists self' t',
    fit exp_taylor2 stable_argsort (init URM_small (2, 3) 3) 2 1 0 0 (1 # 10)
      (PyInt 1) tape_small = Ok (self', t') /\
    sparse_weights self' = true /\
    (exists out,
       W_sparse self' = Some out /\
       mshape out = (3, 3) /\
       forall r c, r < 3 -> c < 3 -> (mentry out r c == entry (Smat self') c r)%Q) /\
    forall user_id at_, user_id < 2 ->
      exists ranking, recommend stable_argsort self' user_id at_ false = Ok ranking.
Proof.
  destruct (fit exp_taylor2 stable_argsort (init URM_small (2, 3) 3) 2 1 0 0 (1 # 10)
              (PyInt 1) tape_small) as [[self' t']|e] eqn:E;
    [|vm_compute in E; discriminate].
  exists self', t'. split; [reflexivity|].
  apply (fit_topK_exports exp_taylor2 stable_argsort (init URM_small (2, 3) 3) self'
           2 1 0 0 (1 # 10) (PyInt 1) tape_small t' (zeros_shape 3 3)).
  - reflexivity.
  - lia.
  - exact E.
Defined.

Lemma sigmoidFunction_range_witness :
  (0 <= exp_taylor2 (- 1))%Q /\
  (0 <= sigmoidFunction exp_taylor2 1)%Q /\ (sigmoidFunction exp_taylor2 1 <= 1)%Q.
Proof.
  assert (0 <= exp_taylor2 (- 1))%Q as H by (vm_compute; discriminate).
  split; [exact H|].
  exact (sigmoidFunction_range exp_taylor2 1 H).
Defined.
